(** * libcloudforensics: volume naming and Kubernetes selectors

    A shallow embedding of the naming logic of [libcloudforensics/aws.py]
    ([AwsAccount._GenerateVolumeName], [AwsAccount.CreateVolumeFromSnapshot],
    [AwsAccount.GetVolume]) and of the selector builder of
    [libcloudforensics/providers/kubernetes/selector.py] ([K8sSelector]),
    followed by the listings, the lookups of instances, the snapshots and
    the copy of a volume of [aws.py] and by the paths of
    [libcloudforensics/providers/aws/internal/s3.py].

    Python values are modelled as follows:
    - a [str] is the list of its Unicode code points (integers), so [len]
      counts code points and slicing works on code points;
    - [bytes] is a list of integers in [0, 256);
    - Python integers are [Z];
    - a [dict] is an association list in insertion order;
    - an exception is a value of [exn], and a computation that may raise
      returns a [result]. *)

From Stdlib Require Import String Ascii ZArith List Bool Lia.
Import ListNotations.
Open Scope Z_scope.

(** ** Python strings *)

Module Py.

Abbreviation char := Z (only parsing).
Abbreviation str := (list Z) (only parsing).
Abbreviation bytes := (list Z) (only parsing).

(** A string literal of the source, whose characters are all ASCII. *)
Definition lit (s : string) : str :=
  map (fun a => Z.of_N (N_of_ascii a)) (list_ascii_of_string s).
Arguments lit s%_string.

Definition len {A} (s : list A) : Z := Z.of_nat (length s).

(** [s[:n]]: a negative bound counts from the end of the string. *)
Definition slice_to {A} (s : list A) (n : Z) : list A :=
  if 0 <=? n then firstn (Z.to_nat n) s
  else firstn (Z.to_nat (len s + n)) s.

Definition char_eqb (a b : char) : bool := a =? b.

Fixpoint str_eqb (a b : str) : bool :=
  match a, b with
  | [], [] => true
  | x :: a', y :: b' => char_eqb x y && str_eqb a' b'
  | _, _ => false
  end.

(** Truth value of an optional string: [None] and [''] are both false. *)
Definition truthy (s : option str) : bool :=
  match s with
  | None => false
  | Some [] => false
  | Some (_ :: _) => true
  end.

(** [sep.join(parts)]. *)
Fixpoint join (sep : str) (parts : list str) : str :=
  match parts with
  | [] => []
  | p :: rest =>
      match rest with
      | [] => p
      | _ :: _ => p ++ sep ++ join sep rest
      end
  end.

(** Exceptions raised by the modelled code. The argument of a
    [RuntimeError] is either a message or another exception. *)
Inductive exn : Type :=
| UnicodeEncodeError
| TypeError
| UnboundLocalError
| KeyError (key : str)
| ValueError (msg : str)
| ClientError (msg : str)
| RuntimeError (arg : exn_arg)
with exn_arg : Type :=
| Msg (m : str)
| Exc (e : exn).

Inductive result (A : Type) : Type :=
| Ok (a : A)
| Raise (e : exn).
Arguments Ok {A} a.
Arguments Raise {A} e.

Definition bind {A B} (r : result A) (k : A -> result B) : result B :=
  match r with
  | Ok a => k a
  | Raise e => Raise e
  end.

(** *** [str.encode()]: UTF-8, strict error handler.
    Surrogates (and integers that are no code point) cannot be encoded. *)
Definition utf8_char (c : char) : option bytes :=
  if c <? 0 then None
  else if c <? 0x80 then Some [c]
  else if c <? 0x800 then
    Some [Z.lor 0xC0 (Z.shiftr c 6); Z.lor 0x80 (Z.land c 0x3F)]
  else if c <? 0x10000 then
    if (0xD800 <=? c) && (c <=? 0xDFFF) then None
    else Some [Z.lor 0xE0 (Z.shiftr c 12);
               Z.lor 0x80 (Z.land (Z.shiftr c 6) 0x3F);
               Z.lor 0x80 (Z.land c 0x3F)]
  else if c <? 0x110000 then
    Some [Z.lor 0xF0 (Z.shiftr c 18);
          Z.lor 0x80 (Z.land (Z.shiftr c 12) 0x3F);
          Z.lor 0x80 (Z.land (Z.shiftr c 6) 0x3F);
          Z.lor 0x80 (Z.land c 0x3F)]
  else None.

Fixpoint encode (s : str) : option bytes :=
  match s with
  | [] => Some []
  | c :: s' =>
      match utf8_char c, encode s' with
      | Some b, Some bs => Some (b ++ bs)
      | _, _ => None
      end
  end.

(** *** [binascii.crc32]: the CRC-32 of zlib (reflected polynomial
    0xEDB88320, initial value and final xor 0xFFFFFFFF). *)
Fixpoint crc32_bits (n : nat) (crc : Z) : Z :=
  match n with
  | O => crc
  | S n' =>
      crc32_bits n'
        (if Z.testbit crc 0 then Z.lxor (Z.shiftr crc 1) 0xEDB88320
         else Z.shiftr crc 1)
  end.

Definition crc32_update (crc : Z) (b : Z) : Z :=
  crc32_bits 8 (Z.lxor crc b).

Definition crc32 (data : bytes) : Z :=
  Z.lxor (fold_left crc32_update data 0xFFFFFFFF) 0xFFFFFFFF.

(** *** ['{0:08x}'.format(n)] for a non-negative [n]: lowercase
    hexadecimal digits, padded with zeros on the left to width 8. *)
Definition hex_digit (d : Z) : char :=
  nth (Z.to_nat d) (lit "0123456789abcdef") 0.

Fixpoint hex_digits (fuel : nat) (n : Z) (acc : str) : str :=
  match fuel with
  | O => acc
  | S fuel' =>
      let acc' := hex_digit (n mod 16) :: acc in
      if n / 16 =? 0 then acc' else hex_digits fuel' (n / 16) acc'
  end.

Definition format_x (n : Z) : str :=
  hex_digits (S (Z.to_nat (Z.log2 n))) n [].

Definition format_08x (n : Z) : str :=
  let ds := format_x n in
  repeat 48 (8 - length ds) ++ ds.

(** *** Dictionaries in insertion order *)
Definition dict (V : Type) := list (str * V).

Fixpoint dict_get {V} (d : dict V) (k : str) : option V :=
  match d with
  | [] => None
  | (k', v) :: d' => if str_eqb k' k then Some v else dict_get d' k
  end.

Definition dict_get_default {V} (d : dict V) (k : str) (dflt : V) : V :=
  match dict_get d k with
  | Some v => v
  | None => dflt
  end.

Definition dict_keys {V} (d : dict V) : list str := map fst d.

(** *** [re.compile('^.{1,255}$').match]: a backtracking matcher for a
    bounded greedy repetition of [.] followed by [$]. Without flags, [.]
    matches every character but the newline, and [$] matches at the end
    of the string and just before a newline that ends the string. *)
Definition newline : char := 10.

Definition dot_matches (c : char) : bool := negb (c =? newline).

Definition dollar_matches (rest : str) : bool :=
  match rest with
  | [] => true
  | [c] => c =? newline
  | _ :: _ :: _ => false
  end.

Fixpoint dot_repeat_then_dollar (lo hi : nat) (s : str) : bool :=
  match hi, s with
  | S hi', c :: s' =>
      (dot_matches c && dot_repeat_then_dollar (Nat.pred lo) hi' s')
      || (Nat.eqb lo 0 && dollar_matches s)
  | _, _ => Nat.eqb lo 0 && dollar_matches s
  end.

End Py.
Import Py.


(** ** [libcloudforensics/aws.py] *)

Module Aws.

Definition REGEX_TAG_VALUE_pattern : str := lit "^.{1,255}$".

Definition REGEX_TAG_VALUE_match (s : str) : bool :=
  dot_repeat_then_dollar 1 255 s.

Record AwsAccount := {
  default_availability_zone : str
}.

(** The region is the zone minus its last letter. *)
Definition default_region (self : AwsAccount) : str :=
  slice_to (default_availability_zone self) (-1).

Record AwsVolume := {
  volume_id : str;
  volume_account : AwsAccount;
  volume_region : str;
  volume_availability_zone : str;
  volume_name : option str
}.

Record AwsSnapshot := {
  snapshot_id : str;
  volume : AwsVolume;
  name : option str
}.

Definition availability_zone (snapshot : AwsSnapshot) : str :=
  volume_availability_zone (volume snapshot).

Record TagSpecification := {
  ResourceType : str;
  Tags : list (dict str)
}.

Definition GetTagForResourceType (resource name : str) : TagSpecification :=
  {| ResourceType := resource;
     Tags := [[(lit "Key", lit "Name"); (lit "Value", name)]] |}.

(** [AwsAccount._GenerateVolumeName]. [identity] is the response of the
    [get_caller_identity] call of the account service; [snapshot.name] is
    sliced, which raises [TypeError] when the snapshot has no name. *)
Definition _GenerateVolumeName (identity : dict str) (snapshot : AwsSnapshot)
    (volume_name_prefix : option str) : result str :=
  let user_id := dict_get_default identity (lit "UserId") [] in
  let volume_id := user_id ++ volume_id (volume snapshot) in
  match encode volume_id with
  | None => Raise UnicodeEncodeError
  | Some data =>
      let volume_id_crc32 := format_08x (Z.land (crc32 data) 0xffffffff) in
      let truncate_at := 255 - len volume_id_crc32 - len (lit "-copy") - 1 in
      match volume_name_prefix with
      | Some (c :: p) =>
          let volume_name_prefix := (c :: p) ++ lit "-" in
          let volume_name_prefix :=
            if len volume_name_prefix >? truncate_at
            then slice_to volume_name_prefix truncate_at
            else volume_name_prefix in
          let truncate_at := truncate_at - len volume_name_prefix in
          match name snapshot with
          | None => Raise TypeError
          | Some snapshot_name =>
              Ok (volume_name_prefix ++ slice_to snapshot_name truncate_at
                    ++ lit "-" ++ volume_id_crc32 ++ lit "-copy")
          end
      | _ =>
          match name snapshot with
          | None => Raise TypeError
          | Some snapshot_name =>
              Ok (slice_to snapshot_name truncate_at
                    ++ lit "-" ++ volume_id_crc32 ++ lit "-copy")
          end
      end
  end.

(** Listing entry of [ListVolumes]: keys [region], [zone] and, when
    present, [name] and [device]. *)
Definition VolumeInfo := dict str.

Record CreateVolumeResponse := {
  VolumeId : str;
  AvailabilityZone : str
}.

Section Account.

(** The cloud account behind the SDK client. The calls of the SDK are
    taken as they are: each one reads or changes the state of the account
    and may raise. [get_caller_identity] only reads. [ListVolumes], the
    loop over the pages of [describe_volumes], is taken by the listing
    it returns. *)
Variable World : Type.
Variable get_caller_identity : World -> dict str.
Variable create_volume :
  str -> str -> list TagSpecification -> World ->
  result CreateVolumeResponse * World.
Variable wait_volume_available : list str -> World -> result unit * World.
Variable ListVolumes : option str -> World -> result (dict VolumeInfo) * World.

(** The [try] block and the [return] of [CreateVolumeFromSnapshot]:
    what the method does once the name has passed the check. A
    [ClientError] of the SDK is raised again as a [RuntimeError], whose
    message formats [snapshot.name]. *)
Definition create_tagged_volume (self : AwsAccount) (snapshot : AwsSnapshot)
    (volume_name : str) (w : World) : result AwsVolume * World :=
  let on_client_error (exception : str) : result AwsVolume :=
    match name snapshot with
    | None => Raise TypeError
    | Some snapshot_name =>
        Raise (RuntimeError (Msg
          (lit "Error: could not create volume " ++ volume_name
             ++ lit " from snapshot " ++ snapshot_name
             ++ lit ": " ++ exception)))
    end in
  match create_volume (availability_zone snapshot) (snapshot_id snapshot)
          [GetTagForResourceType (lit "volume") volume_name] w with
  | (Raise (ClientError m), w1) => (on_client_error m, w1)
  | (Raise e, w1) => (Raise e, w1)
  | (Ok response, w1) =>
      match wait_volume_available [VolumeId response] w1 with
      | (Raise (ClientError m), w2) => (on_client_error m, w2)
      | (Raise e, w2) => (Raise e, w2)
      | (Ok _, w2) =>
          (Ok {| volume_id := VolumeId response;
                 volume_account := self;
                 volume_region := default_region self;
                 volume_availability_zone := AvailabilityZone response;
                 volume_name := Some volume_name |}, w2)
      end
  end.

Definition name_error_message (volume_name : str) : str :=
  lit "Error: volume name " ++ volume_name
    ++ lit " does not comply with " ++ REGEX_TAG_VALUE_pattern.

(** [AwsAccount.CreateVolumeFromSnapshot]. *)
Definition CreateVolumeFromSnapshot (self : AwsAccount)
    (snapshot : AwsSnapshot) (volume_name : option str)
    (volume_name_prefix : option str) (w : World)
    : result AwsVolume * World :=
  let generated :=
    match volume_name with
    | Some (c :: n) => Ok (c :: n)
    | _ => _GenerateVolumeName (get_caller_identity w) snapshot
             volume_name_prefix
    end in
  match generated with
  | Raise e => (Raise e, w)
  | Ok volume_name =>
      if negb (REGEX_TAG_VALUE_match volume_name) then
        (Raise (ValueError (name_error_message volume_name)), w)
      else create_tagged_volume self snapshot volume_name w
  end.

(** The call with the defaults of the signature:
    [volume_name=None, volume_name_prefix='']. *)
Definition CreateVolumeFromSnapshot_default (self : AwsAccount)
    (snapshot : AwsSnapshot) (w : World) : result AwsVolume * World :=
  CreateVolumeFromSnapshot self snapshot None (Some []) w.

Definition region_or_default (self : AwsAccount) (region : option str) : str :=
  match region with
  | Some (c :: r) => c :: r
  | _ => default_region self
  end.

(** [AwsAccount.__GetVolumeById]. *)
Definition __GetVolumeById (self : AwsAccount) (volume_id : str)
    (region : option str) (w : World) : result AwsVolume * World :=
  match ListVolumes region w with
  | (Raise e, w1) => (Raise e, w1)
  | (Ok volumes, w1) =>
      match dict_get volumes volume_id with
      | Some ((_ :: _) as volume) =>
          match dict_get volume (lit "zone") with
          | None => (Raise (KeyError (lit "zone")), w1)
          | Some zone =>
              (Ok {| Aws.volume_id := volume_id;
                     volume_account := self;
                     volume_region := region_or_default self region;
                     volume_availability_zone := zone;
                     volume_name := None |}, w1)
          end
      | _ =>
          (Raise (RuntimeError (Msg
             (lit "Volume " ++ volume_id
                ++ lit " was not found in AWS account"))), w1)
      end
  end.

(** The loop of [__GetVolumeByName]: the last key whose entry carries the
    name, and the number of such keys. *)
Definition count_by_name (volumes : dict VolumeInfo) (volume_name : str)
    : option str * Z :=
  fold_left
    (fun (st : option str * Z) (key : str) =>
       match dict_get volumes key with
       | Some info =>
           match dict_get info (lit "name") with
           | Some n => if str_eqb n volume_name
                       then (Some key, snd st + 1) else st
           | None => st
           end
       | None => st
       end)
    (dict_keys volumes) (None, 0).

(** [AwsAccount.__GetVolumeByName]. *)
Definition __GetVolumeByName (self : AwsAccount) (volume_name : str)
    (region : option str) (w : World) : result AwsVolume * World :=
  match ListVolumes region w with
  | (Raise e, w1) => (Raise e, w1)
  | (Ok volumes, w1) =>
      let '(volume_id, count) := count_by_name volumes volume_name in
      if count =? 0 then
        (Raise (RuntimeError (Msg
           (lit "Volume " ++ volume_name
              ++ lit " was not found in AWS account"))), w1)
      else if count >? 1 then
        (Raise (RuntimeError (Msg
           (lit "Multiple volumes with tag name " ++ volume_name
              ++ lit " were found in the AWS account. Please look-up the volume by its unique AWS volume-ID instead"))),
         w1)
      else
        match volume_id with
        | None => (Raise TypeError, w1)
        | Some volume_id =>
            match dict_get volumes volume_id with
            | None => (Raise (KeyError volume_id), w1)
            | Some info =>
                match dict_get info (lit "zone") with
                | None => (Raise (KeyError (lit "zone")), w1)
                | Some zone =>
                    (Ok {| Aws.volume_id := volume_id;
                           volume_account := self;
                           volume_region := region_or_default self region;
                           volume_availability_zone := zone;
                           volume_name := Some volume_name |}, w1)
                end
            end
        end
  end.

(** A [try] block with the handler [except RuntimeError as exception:
    e = exception]: the value of the block, or the caught exception; any
    other exception propagates. *)
Definition try_except_RuntimeError {A} (r : result A)
    : result (option A * option exn) :=
  match r with
  | Ok a => Ok (Some a, None)
  | Raise (RuntimeError arg) => Ok (None, Some (RuntimeError arg))
  | Raise e => Raise e
  end.

(** [AwsAccount.GetVolume]. *)
Definition GetVolume (self : AwsAccount) (volume_name_or_id : str)
    (region : option str) (w : World) : result AwsVolume * World :=
  let '(r1, w1) := __GetVolumeById self volume_name_or_id region w in
  match try_except_RuntimeError r1 with
  | Raise ex => (Raise ex, w1)
  | Ok (aws_volume, e) =>
      match aws_volume with
      | Some v => (Ok v, w1)
      | None =>
          let '(r2, w2) := __GetVolumeByName self volume_name_or_id region w1 in
          match try_except_RuntimeError r2 with
          | Raise ex => (Raise ex, w2)
          | Ok (aws_volume, e2) =>
              let e := match e2 with Some _ => e2 | None => e end in
              match aws_volume with
              | Some v => (Ok v, w2)
              | None =>
                  match e with
                  | Some e => (Raise (RuntimeError (Exc e)), w2)
                  | None => (Raise UnboundLocalError, w2)
                  end
              end
          end
      end
  end.

End Account.

End Aws.

(** ** [libcloudforensics/providers/kubernetes/selector.py] *)

Module K8sSelector.

(** The concrete components of a selector. *)
Inductive Component : Type :=
| Name (name : str)
| Node (node : str)
| Running
| Label (key value : str).

(** [Keyword]: [FieldComponent] for [Name], [Node] and [Running],
    [LabelComponent] for [Label]. *)
Definition Keyword (c : Component) : str :=
  match c with
  | Name _ | Node _ | Running => lit "field_selector"
  | Label _ _ => lit "label_selector"
  end.

Definition ToString (c : Component) : str :=
  match c with
  | Name name => lit "metadata.name=" ++ name
  | Node node => lit "spec.nodeName=" ++ node
  | Running => lit "status.phase!=Failed,status.phase!=Succeeded"
  | Label key value => key ++ lit "=" ++ value
  end.

Record K8sSelector := {
  selectors : list Component
}.

(** [keywords[k].append(v)] on a [defaultdict(list)]: a missing key is
    inserted, after the keys already there, with the list [[v]]. *)
Fixpoint defaultdict_append (keywords : dict (list str)) (k v : str)
    : dict (list str) :=
  match keywords with
  | [] => [(k, [v])]
  | (k', vs) :: rest =>
      if str_eqb k' k then (k', vs ++ [v]) :: rest
      else (k', vs) :: defaultdict_append rest k v
  end.

Definition collect (sels : list Component) (keywords : dict (list str))
    : dict (list str) :=
  fold_left
    (fun keywords selector =>
       defaultdict_append keywords (Keyword selector) (ToString selector))
    sels keywords.

(** [K8sSelector.ToKeywords]. *)
Definition ToKeywords (self : K8sSelector) : dict str :=
  map (fun kvs => (fst kvs, join (lit ",") (snd kvs)))
      (collect (selectors self) []).

Fixpoint map_result {A B} (f : A -> result B) (l : list A) : result (list B) :=
  match l with
  | [] => Ok []
  | a :: l' =>
      bind (f a) (fun b => bind (map_result f l') (fun bs => Ok (b :: bs)))
  end.

(** [K8sSelector.FromDict]: one [Label] per key of [labels], in the
    order of iteration; [labels[k]] raises [KeyError] on a missing key. *)
Definition FromDict (labels : dict str) : result K8sSelector :=
  bind
    (map_result
       (fun k =>
          match dict_get labels k with
          | Some v => Ok (Label k v)
          | None => Raise (KeyError k)
          end)
       (dict_keys labels))
    (fun args => Ok {| selectors := args |}).

(** A Python [dict] has one entry per key. *)
Definition dict_wf {V} (d : dict V) : Prop := NoDup (dict_keys d).

(** The fragments of the components of one kind, in their order. *)
Definition fragments_of_kind (kind : str) (sels : list Component) : list str :=
  map ToString (filter (fun c => str_eqb (Keyword c) kind) sels).

(** *** Reading a keyword string back

    The inverse direction is not in the source; it follows the
    specification: a keyword string is cut at every [','], and in a field
    selector the two halves of the fragment of [Running] are put together
    again. *)
Definition comma : char := 44.

(** [s.split(sep)] for a separator of one character. *)
Fixpoint split (sep : char) (s : str) : list str :=
  match s with
  | [] => [[]]
  | c :: s' =>
      if char_eqb c sep then [] :: split sep s'
      else match split sep s' with
           | p :: ps => (c :: p) :: ps
           | [] => [[c]]
           end
  end.

Definition running_failed : str := lit "status.phase!=Failed".
Definition running_succeeded : str := lit "status.phase!=Succeeded".

Fixpoint regroup_running (pieces : list str) : list str :=
  match pieces with
  | [] => []
  | a :: rest =>
      match rest with
      | b :: rest' =>
          if str_eqb a running_failed && str_eqb b running_succeeded
          then ToString Running :: regroup_running rest'
          else a :: regroup_running rest
      | [] => [a]
      end
  end.

Definition resplit (kind : str) (s : str) : list str :=
  if str_eqb kind (lit "field_selector")
  then regroup_running (split comma s)
  else split comma s.

End K8sSelector.

(** ** Notions used in the statements *)

Import Aws.

Definition is_lower_hex (c : char) : Prop :=
  48 <= c <= 57 \/ 97 <= c <= 102.

(** The checksum of [_GenerateVolumeName] on the encoded identity. *)
Definition checksum_of (data : bytes) : str :=
  format_08x (Z.land (crc32 data) 0xffffffff).

(** The part of a generated name that comes from the prefix. *)
Definition prefix_segment (volume_name_prefix : option str) : str :=
  match volume_name_prefix with
  | Some (c :: p) => firstn 241 ((c :: p) ++ lit "-")
  | _ => []
  end.

(** The name before the tag check of [CreateVolumeFromSnapshot]: the
    name of the caller, or else the generated one. *)
Definition composed_name (identity : dict str) (snapshot : AwsSnapshot)
    (volume_name volume_name_prefix : option str) : result str :=
  match volume_name with
  | Some (c :: n) => Ok (c :: n)
  | _ => _GenerateVolumeName identity snapshot volume_name_prefix
  end.

(** What [REGEX_TAG_VALUE] accepts: 1 to 255 characters other than the
    newline, with possibly one newline after them. *)
Definition tag_value_ok (s : str) : Prop :=
  exists body tail,
    s = body ++ tail /\ (tail = [] \/ tail = [newline]) /\
    ~ In newline body /\ (1 <= length body <= 255)%nat.

(** The names that the specification calls invalid: the empty one and
    those of more than 255 characters. *)
Definition spec_invalid_name (s : str) : Prop := s = [] \/ 255 < len s.

(** What [GetVolume] does when both lookups fail, as the specification
    words it: whatever the two errors are, a [RuntimeError] built from
    the error of the lookup by name is raised. *)
Definition spec_both_lookups_fail (World : Type)
    (ListVolumes : option str -> World -> result (dict VolumeInfo) * World)
    (self : AwsAccount) (volume_name_or_id : str) (region : option str)
    (w : World) : Prop :=
  let by_id :=
    __GetVolumeById World ListVolumes self volume_name_or_id region w in
  let by_name :=
    __GetVolumeByName World ListVolumes self volume_name_or_id region
      (snd by_id) in
  forall e1 e2,
    fst by_id = Raise e1 -> fst by_name = Raise e2 ->
    fst (GetVolume World ListVolumes self volume_name_or_id region w)
    = Raise (RuntimeError (Exc e2)).

(** The shape of a copy name as the specification words it: a prefix
    segment that ends in ['-'] when a prefix is given, then left-most
    characters of the display name, then ['-'], the checksum and
    ['-copy']. *)
Definition spec_copy_name_shape (volume_name_prefix : option str)
    (display_name crc result : str) : Prop :=
  match volume_name_prefix with
  | Some (c :: p) =>
      exists seg k,
        seg <> [] /\ last seg 0 = 45 /\
        result = seg ++ firstn k display_name ++ lit "-" ++ crc ++ lit "-copy"
  | _ =>
      exists k,
        result = firstn k display_name ++ lit "-" ++ crc ++ lit "-copy"
  end.

Import K8sSelector.

(** The rendering of one entry of a label mapping. *)
Definition label_fragment (kv : str * str) : str :=
  fst kv ++ lit "=" ++ snd kv.

(** ** A small account, for concrete instances *)

Module Demo.

Definition account : AwsAccount :=
  {| default_availability_zone := lit "us-east-1a" |}.

Definition source_volume : AwsVolume :=
  {| volume_id := lit "vol-0123";
     volume_account := account;
     volume_region := lit "us-east-1";
     volume_availability_zone := lit "us-east-1a";
     volume_name := None |}.

Definition snapshot (nm : str) : AwsSnapshot :=
  {| snapshot_id := lit "snap-0456"; volume := source_volume;
     name := Some nm |}.

Definition identity : dict str := [(lit "UserId", lit "AIDAEXAMPLE")].

(** The bytes of ["AIDAEXAMPLE" + "vol-0123"]. *)
Definition identity_bytes : bytes := lit "AIDAEXAMPLEvol-0123".

Definition long_prefix : str := repeat 97 241.

(** A display name of two lines. *)
Definition two_lines : str := lit "a" ++ [newline] ++ lit "b".

(** The state of the demo account: the tag specifications of the volumes
    created so far. *)
Definition World : Type := list (list TagSpecification).

Definition get_caller_identity (w : World) : dict str := identity.

Definition create_volume (zone sid : str) (tags : list TagSpecification)
    (w : World) : result CreateVolumeResponse * World :=
  (Ok {| VolumeId := lit "vol-0789"; AvailabilityZone := zone |}, tags :: w).

Definition wait_volume_available (ids : list str) (w : World)
    : result unit * World := (Ok tt, w).

Definition listing : dict VolumeInfo :=
  [ (lit "vol-0123",
      [(lit "region", lit "us-east-1"); (lit "zone", lit "us-east-1a");
       (lit "name", lit "data")]);
    (lit "vol-0124",
      [(lit "region", lit "us-east-1"); (lit "zone", lit "us-east-1b")]) ].

Definition ListVolumes (region : option str) (w : World)
    : result (dict VolumeInfo) * World := (Ok listing, w).

Import K8sSelector.

Definition components : list Component :=
  [Name (lit "foo"); Running; Label (lit "app") (lit "web");
   Node (lit "node-1"); Label (lit "tier") (lit "frontend")].

Definition labels : dict str :=
  [(lit "app", lit "web"); (lit "tier", lit "frontend")].

End Demo.

(** ** Further notions and further code of the repository *)

(** An entry of a listing that carries the name tag [wanted]: the test
    of the loops of [__GetVolumeByName] and [__GetInstanceByName]. *)
Definition named (wanted : str) (entry : str * dict str) : bool :=
  match dict_get (snd entry) (lit "name") with
  | Some n => str_eqb n wanted
  | None => false
  end.

Definition volume_not_found (volume : str) : exn :=
  RuntimeError (Msg (lit "Volume " ++ volume
                       ++ lit " was not found in AWS account")).

(** *** More of Python *)

Module PyMore.

(** [d[k] = v]: the value of a key that is there is replaced in place,
    a new key is added after the others. *)
Fixpoint dict_set {V} (d : dict V) (k : str) (v : V) : dict V :=
  match d with
  | [] => [(k, v)]
  | (k', v') :: d' =>
      if str_eqb k' k then (k', v) :: d' else (k', v') :: dict_set d' k v
  end.

(** [s.startswith(prefix)]. *)
Fixpoint startswith (s prefix : str) : bool :=
  match prefix, s with
  | [], _ => true
  | p :: prefix', c :: s' => char_eqb c p && startswith s' prefix'
  | _ :: _, [] => false
  end.

(** [s[n:]]: a negative bound counts from the end of the string. *)
Definition slice_from {A} (s : list A) (n : Z) : list A :=
  if 0 <=? n then skipn (Z.to_nat n) s
  else skipn (Z.to_nat (len s + n)) s.

(** [s.rfind(c)] for one character: the highest index of [c] in [s],
    or [-1]. *)
Fixpoint rfind_from (s : str) (c : char) (i found : Z) : Z :=
  match s with
  | [] => found
  | x :: s' => rfind_from s' c (i + 1) (if char_eqb x c then i else found)
  end.

Definition rfind (s : str) (c : char) : Z := rfind_from s c 0 (-1).

(** [os.path.basename] of [posixpath]:
    [i = p.rfind('/') + 1; return p[i:]]. *)
Definition slash : char := 47.

Definition basename (p : str) : str := slice_from p (rfind p slash + 1).

End PyMore.
Import PyMore.

(** *** The listings: [AwsAccount.ListVolumes] and
    [AwsAccount.ListInstances] *)

(** The responses of [describe_volumes], with the keys that the code
    reads. [VolumeId], [AvailabilityZone], [Attachments] and the
    [Device] of an attachment are subscripted and always there; [Tags]
    and [NextToken] are read with [get]. *)
Module DescribeVolumes.

Record Attachment := {
  Device : str
}.

Record Volume := {
  VolumeId : str;
  AvailabilityZone : str;
  Tags : option (list (dict str));
  Attachments : list Attachment
}.

Record Response := {
  Volumes : list Volume;
  NextToken : option str
}.

End DescribeVolumes.

(** The responses of [describe_instances]. [State_Name] is
    [instance['State']['Name']] and [Placement_AvailabilityZone] is
    [instance['Placement']['AvailabilityZone']]. *)
Module DescribeInstances.

Record Instance := {
  InstanceId : str;
  Tags : option (list (dict str));
  State_Name : str;
  Placement_AvailabilityZone : str
}.

Record Reservation := {
  Instances : list Instance
}.

Record Response := {
  Reservations : list Reservation;
  NextToken : option str
}.

End DescribeInstances.

Module Listing.

(** A filter of a query: [dict(Name=..., Values=[...])]. *)
Record Filter := {
  Filter_Name : str;
  Filter_Values : list str
}.

(** One turn of the loop over the tags:
    [tag.get('Value') if tag.get('Key') == 'Name' else None]. *)
Definition tag_name_value (tag : dict str) : option str :=
  match dict_get tag (lit "Key") with
  | Some k => if str_eqb k (lit "Name") then dict_get tag (lit "Value")
              else None
  | None => None
  end.

(** The loop over the tags, which stops at the first value that is not
    [None]; without such a value the name is [None] in the end. *)
Fixpoint first_name_tag (tags : list (dict str)) : option str :=
  match tags with
  | [] => None
  | tag :: rest =>
      match tag_name_value tag with
      | Some n => Some n
      | None => first_name_tag rest
      end
  end.

(** The name of a resource: the loop runs when [get('Tags')] is true. *)
Definition resource_name (tags : option (list (dict str))) : option str :=
  match tags with
  | Some (t :: ts) => first_name_tag (t :: ts)
  | _ => None
  end.

Definition InstanceInfo := dict str.

(** The entry of a volume in the listing. *)
Definition volume_info (self : AwsAccount) (volume : DescribeVolumes.Volume)
    : VolumeInfo :=
  let volume_info :=
    [(lit "region", default_region self);
     (lit "zone", DescribeVolumes.AvailabilityZone volume)] in
  let volume_info :=
    match resource_name (DescribeVolumes.Tags volume) with
    | Some (c :: n) => dict_set volume_info (lit "name") (c :: n)
    | _ => volume_info
    end in
  match DescribeVolumes.Attachments volume with
  | a :: _ => dict_set volume_info (lit "device") (DescribeVolumes.Device a)
  | [] => volume_info
  end.

(** The loop over the volumes of one response. *)
Definition add_volumes (self : AwsAccount)
    (page : list DescribeVolumes.Volume) (volumes : dict VolumeInfo)
    : dict VolumeInfo :=
  fold_left
    (fun volumes volume =>
       dict_set volumes (DescribeVolumes.VolumeId volume)
         (volume_info self volume))
    page volumes.

(** The entry of an instance in the listing. *)
Definition instance_info (self : AwsAccount)
    (instance : DescribeInstances.Instance) : InstanceInfo :=
  let instance_info :=
    [(lit "region", default_region self);
     (lit "zone", DescribeInstances.Placement_AvailabilityZone instance)] in
  match resource_name (DescribeInstances.Tags instance) with
  | Some (c :: n) => dict_set instance_info (lit "name") (c :: n)
  | _ => instance_info
  end.

(** The loops over the reservations of one response and over their
    instances; terminated instances are filtered out. *)
Definition add_instances (self : AwsAccount)
    (reservations : list DescribeInstances.Reservation)
    (instances : dict InstanceInfo) : dict InstanceInfo :=
  fold_left
    (fun instances reservation =>
       fold_left
         (fun instances instance =>
            if negb (str_eqb (DescribeInstances.State_Name instance)
                       (lit "terminated"))
            then dict_set instances (DescribeInstances.InstanceId instance)
                   (instance_info self instance)
            else instances)
         (DescribeInstances.Instances reservation) instances)
    reservations instances.

Section Pages.

(** The two queries of the SDK client, by the region of the client, the
    filters and the token of the page ([None] for the first page). *)
Variable World : Type.
Variable describe_volumes :
  str -> list Filter -> option str -> World ->
  result DescribeVolumes.Response * World.
Variable describe_instances :
  str -> list Filter -> option str -> World ->
  result DescribeInstances.Response * World.

(** The [while] loop of [ListVolumes], with the pages counted by
    [fuel]: [None] when [fuel] pages do not end the listing. *)
Fixpoint ListVolumes_pages (fuel : nat) (self : AwsAccount)
    (region : option str) (filters : list Filter) (next_token : option str)
    (volumes : dict VolumeInfo) (w : World)
    : option (result (dict VolumeInfo) * World) :=
  match fuel with
  | O => None
  | S fuel' =>
      match describe_volumes (region_or_default self region) filters
              next_token w with
      | (Raise e, w1) => Some (Raise e, w1)
      | (Ok response, w1) =>
          let volumes :=
            add_volumes self (DescribeVolumes.Volumes response) volumes in
          match DescribeVolumes.NextToken response with
          | Some (c :: t) =>
              ListVolumes_pages fuel' self region filters (Some (c :: t))
                volumes w1
          | _ => Some (Ok volumes, w1)
          end
      end
  end.

(** [AwsAccount.ListVolumes]. *)
Definition ListVolumes (fuel : nat) (self : AwsAccount)
    (region : option str) (filters : option (list Filter)) (w : World)
    : option (result (dict VolumeInfo) * World) :=
  let filters := match filters with
                 | Some (f :: fs) => f :: fs
                 | _ => []
                 end in
  ListVolumes_pages fuel self region filters None [] w.

Fixpoint ListInstances_pages (fuel : nat) (self : AwsAccount)
    (region : option str) (filters : list Filter) (next_token : option str)
    (instances : dict InstanceInfo) (w : World)
    : option (result (dict InstanceInfo) * World) :=
  match fuel with
  | O => None
  | S fuel' =>
      match describe_instances (region_or_default self region) filters
              next_token w with
      | (Raise e, w1) => Some (Raise e, w1)
      | (Ok response, w1) =>
          let instances :=
            add_instances self (DescribeInstances.Reservations response)
              instances in
          match DescribeInstances.NextToken response with
          | Some (c :: t) =>
              ListInstances_pages fuel' self region filters (Some (c :: t))
                instances w1
          | _ => Some (Ok instances, w1)
          end
      end
  end.

(** [AwsAccount.ListInstances]. *)
Definition ListInstances (fuel : nat) (self : AwsAccount)
    (region : option str) (filters : option (list Filter)) (w : World)
    : option (result (dict InstanceInfo) * World) :=
  let filters := match filters with
                 | Some (f :: fs) => f :: fs
                 | _ => []
                 end in
  ListInstances_pages fuel self region filters None [] w.

End Pages.

End Listing.

(** *** Instances, snapshots and the copy of a volume *)

Module Forensics.

Import Listing.

Record AwsInstance := {
  instance_account : AwsAccount;
  instance_id : str;
  instance_region : str;
  instance_availability_zone : str;
  instance_name : option str
}.

Definition instance_not_found (instance : str) : exn :=
  RuntimeError (Msg (lit "Instance " ++ instance
                       ++ lit " was not found in AWS account")).

(** The loop of [__GetInstanceByName]. *)
Definition count_instances_by_name (instances : dict InstanceInfo)
    (instance_name : str) : option str * Z :=
  fold_left
    (fun (st : option str * Z) (key : str) =>
       match dict_get instances key with
       | Some info =>
           match dict_get info (lit "name") with
           | Some n => if str_eqb n instance_name
                       then (Some key, snd st + 1) else st
           | None => st
           end
       | None => st
       end)
    (dict_keys instances) (None, 0).

(** The loop of [AwsInstance.GetBootVolume]: the first key whose entry
    has the boot device as its [device]; an entry without [device]
    raises [KeyError]. *)
Fixpoint find_boot_volume (volumes : dict VolumeInfo) (keys : list str)
    (boot_device : option str) : result (option str) :=
  match keys with
  | [] => Ok None
  | volume_id :: rest =>
      match dict_get volumes volume_id with
      | None => Raise (KeyError volume_id)
      | Some info =>
          match dict_get info (lit "device") with
          | None => Raise (KeyError (lit "device"))
          | Some device =>
              if match boot_device with
                 | Some b => str_eqb device b
                 | None => false
                 end
              then Ok (Some volume_id)
              else find_boot_volume volumes rest boot_device
          end
      end
  end.

(** What a call raises: an exception of [exn], or the [AttributeError]
    of a method call on [None]. *)
Inductive raised : Type :=
| Exn (e : exn)
| AttributeError.

Inductive outcome (A : Type) : Type :=
| Returned (a : A)
| Raised (r : raised).
Arguments Returned {A} a.
Arguments Raised {A} r.

Definition outcome_of {A} (r : result A) : outcome A :=
  match r with
  | Ok a => Returned a
  | Raise e => Raised (Exn e)
  end.

Record CreateSnapshotResponse := {
  SnapshotId : str
}.

Section Account.

(** The account behind the SDK, as in [Aws]: the listings are taken by
    what they return; [root_device_name] is the attribute of the
    instance resource, [now] the clock read by [datetime.now()] and
    formatted with ['%Y%m%d%H%M%S'], and [text_of_other] the text that
    [str] gives for the exceptions whose text [exn] does not record. *)
Variable World : Type.
Variable get_caller_identity : World -> dict str.
Variable create_volume :
  str -> str -> list TagSpecification -> World ->
  result CreateVolumeResponse * World.
Variable wait_volume_available : list str -> World -> result unit * World.
Variable ListVolumes :
  option str -> list Filter -> World -> result (dict VolumeInfo) * World.
Variable ListInstances :
  option str -> World -> result (dict InstanceInfo) * World.
Variable root_device_name : str -> World -> result (option str) * World.
Variable create_snapshot :
  str -> list TagSpecification -> World ->
  result CreateSnapshotResponse * World.
Variable wait_snapshot_completed : list str -> World -> result unit * World.
Variable delete_snapshot : str -> World -> result unit * World.
Variable now : World -> str.
Variable text_of_other : exn -> str.

(** [str(exception)]: the message of an exception built from a text,
    and for [RuntimeError(e)], built from an exception, the text of
    [e], since [str] of an exception with one argument is [str] of that
    argument. *)
Fixpoint str_exception (e : exn) : str :=
  match e with
  | RuntimeError (Msg m) => m
  | RuntimeError (Exc e') => str_exception e'
  | ValueError m => m
  | ClientError m => m
  | e => text_of_other e
  end.

(** [AwsAccount.__GetInstanceById]. *)
Definition __GetInstanceById (self : AwsAccount) (instance_id : str)
    (region : option str) (w : World) : result AwsInstance * World :=
  match ListInstances region w with
  | (Raise e, w1) => (Raise e, w1)
  | (Ok instances, w1) =>
      match dict_get instances instance_id with
      | Some ((_ :: _) as instance) =>
          match dict_get instance (lit "zone") with
          | None => (Raise (KeyError (lit "zone")), w1)
          | Some zone =>
              (Ok {| instance_account := self;
                     Forensics.instance_id := instance_id;
                     instance_region := region_or_default self region;
                     instance_availability_zone := zone;
                     instance_name := None |}, w1)
          end
      | _ => (Raise (instance_not_found instance_id), w1)
      end
  end.

(** [AwsAccount.__GetInstanceByName]. *)
Definition __GetInstanceByName (self : AwsAccount) (instance_name : str)
    (region : option str) (w : World) : result AwsInstance * World :=
  match ListInstances region w with
  | (Raise e, w1) => (Raise e, w1)
  | (Ok instances, w1) =>
      let '(instance_id, count) :=
        count_instances_by_name instances instance_name in
      if count =? 0 then (Raise (instance_not_found instance_name), w1)
      else if count >? 1 then
        (Raise (RuntimeError (Msg
           (lit "Multiple instances with tag name " ++ instance_name
              ++ lit " were found in the AWS account. Please look-up the instance by its unique AWS instance-ID instead"))),
         w1)
      else
        match instance_id with
        | None => (Raise TypeError, w1)
        | Some instance_id =>
            match dict_get instances instance_id with
            | None => (Raise (KeyError instance_id), w1)
            | Some info =>
                match dict_get info (lit "zone") with
                | None => (Raise (KeyError (lit "zone")), w1)
                | Some zone =>
                    (Ok {| instance_account := self;
                           Forensics.instance_id := instance_id;
                           instance_region := region_or_default self region;
                           instance_availability_zone := zone;
                           Forensics.instance_name := Some instance_name |},
                     w1)
                end
            end
        end
  end.

(** [AwsAccount.GetInstance]. *)
Definition GetInstance (self : AwsAccount) (instance_name_or_id : str)
    (region : option str) (w : World) : result AwsInstance * World :=
  let '(r1, w1) := __GetInstanceById self instance_name_or_id region w in
  match try_except_RuntimeError r1 with
  | Raise ex => (Raise ex, w1)
  | Ok (aws_instance, e) =>
      match aws_instance with
      | Some i => (Ok i, w1)
      | None =>
          let '(r2, w2) :=
            __GetInstanceByName self instance_name_or_id region w1 in
          match try_except_RuntimeError r2 with
          | Raise ex => (Raise ex, w2)
          | Ok (aws_instance, e2) =>
              let e := match e2 with Some _ => e2 | None => e end in
              match aws_instance with
              | Some i => (Ok i, w2)
              | None =>
                  match e with
                  | Some e => (Raise (RuntimeError (Exc e)), w2)
                  | None => (Raise UnboundLocalError, w2)
                  end
              end
          end
      end
  end.

(** [AwsInstance.ListVolumes]: the volumes attached to the instance. *)
Definition Instance_ListVolumes (self : AwsInstance) (w : World)
    : result (dict VolumeInfo) * World :=
  ListVolumes None
    [{| Filter_Name := lit "attachment.instance-id";
        Filter_Values := [instance_id self] |}] w.

(** [AwsInstance.GetBootVolume]. *)
Definition GetBootVolume (self : AwsInstance) (w : World)
    : result AwsVolume * World :=
  match root_device_name (instance_id self) w with
  | (Raise e, w1) => (Raise e, w1)
  | (Ok boot_device, w1) =>
      match Instance_ListVolumes self w1 with
      | (Raise e, w2) => (Raise e, w2)
      | (Ok volumes, w2) =>
          match find_boot_volume volumes (dict_keys volumes) boot_device with
          | Raise e => (Raise e, w2)
          | Ok (Some volume_id) =>
              (Ok {| Aws.volume_id := volume_id;
                     volume_account := instance_account self;
                     volume_region := instance_region self;
                     volume_availability_zone :=
                       instance_availability_zone self;
                     volume_name := None |}, w2)
          | Ok None =>
              (Raise (RuntimeError (Msg
                 (lit "Boot volume not found for instance: "
                    ++ instance_id self))), w2)
          end
      end
  end.

(** The name that [AwsVolume.Snapshot] gives to the snapshot. *)
Definition snapshot_tag_name (self : AwsVolume) (snapshot_name : option str)
    (timestamp : str) : str :=
  let snapshot_name :=
    match snapshot_name with
    | Some (c :: n) => c :: n
    | _ => volume_id self
    end in
  let truncate_at := 255 - len timestamp - 1 in
  slice_to snapshot_name truncate_at ++ lit "-" ++ timestamp.

(** [AwsVolume.Snapshot]. *)
Definition Snapshot (self : AwsVolume) (snapshot_name : option str)
    (w : World) : result AwsSnapshot * World :=
  let timestamp := now w in
  let snapshot_name := snapshot_tag_name self snapshot_name timestamp in
  if negb (REGEX_TAG_VALUE_match snapshot_name) then
    (Raise (ValueError
              (lit "Error: snapshot name " ++ snapshot_name
                 ++ lit " does not comply with "
                 ++ REGEX_TAG_VALUE_pattern)), w)
  else
    let on_client_error (exception : str) : result AwsSnapshot :=
      Raise (RuntimeError (Msg
        (lit "Error: could not create snapshot for volume "
           ++ volume_id self ++ lit ": " ++ exception))) in
    match create_snapshot (volume_id self)
            [GetTagForResourceType (lit "snapshot") snapshot_name] w with
    | (Raise (ClientError m), w1) => (on_client_error m, w1)
    | (Raise e, w1) => (Raise e, w1)
    | (Ok response, w1) =>
        match wait_snapshot_completed [SnapshotId response] w1 with
        | (Raise (ClientError m), w2) => (on_client_error m, w2)
        | (Raise e, w2) => (Raise e, w2)
        | (Ok _, w2) =>
            (Ok {| snapshot_id := SnapshotId response;
                   volume := self;
                   name := Some snapshot_name |}, w2)
        end
    end.

(** [AwsSnapshot.Delete]. *)
Definition Delete (self : AwsSnapshot) (w : World) : result unit * World :=
  match delete_snapshot (snapshot_id self) w with
  | (Raise (ClientError m), w1) =>
      (Raise (RuntimeError (Msg
         (lit "Error: could not delete snapshot " ++ snapshot_id self
            ++ lit ": " ++ m))), w1)
  | r => r
  end.

(** The first statement of the [try] block of [CreateVolumeCopy]:
    [aws_account.GetVolume(volume_name) if volume_name else
    instance.GetBootVolume()]. *)
Definition volume_to_copy (aws_account : AwsAccount)
    (instance : option AwsInstance) (volume_name : option str) (w : World)
    : outcome AwsVolume * World :=
  match volume_name with
  | Some (c :: n) =>
      let '(r, w1) :=
        GetVolume World (fun region => ListVolumes region [])
          aws_account (c :: n) None w in
      (outcome_of r, w1)
  | _ =>
      match instance with
      | None => (Raised AttributeError, w)
      | Some instance =>
          let '(r, w1) := GetBootVolume instance w in (outcome_of r, w1)
      end
  end.

(** The [try] block of [CreateVolumeCopy]. *)
Definition copy_steps (aws_account : AwsAccount)
    (instance : option AwsInstance) (volume_name : option str) (w : World)
    : outcome AwsVolume * World :=
  let '(volume_to_copy, w1) :=
    volume_to_copy aws_account instance volume_name w in
  match volume_to_copy with
  | Raised r => (Raised r, w1)
  | Returned volume_to_copy =>
      match Snapshot volume_to_copy None w1 with
      | (Raise e, w2) => (Raised (Exn e), w2)
      | (Ok snapshot, w2) =>
          match CreateVolumeFromSnapshot World get_caller_identity
                  create_volume wait_volume_available aws_account snapshot
                  None (Some (lit "evidence")) w2 with
          | (Raise e, w3) => (Raised (Exn e), w3)
          | (Ok new_volume, w3) =>
              match Delete snapshot w3 with
              | (Raise e, w4) => (Raised (Exn e), w4)
              | (Ok _, w4) => (Returned new_volume, w4)
              end
          end
      end
  end.

(** [aws_account.GetInstance(instance_name) if instance_name else
    None]. *)
Definition lookup_instance (aws_account : AwsAccount)
    (instance_name : option str) (w : World)
    : result (option AwsInstance) * World :=
  match instance_name with
  | Some (c :: n) =>
      match GetInstance aws_account (c :: n) None w with
      | (Ok i, w0) => (Ok (Some i), w0)
      | (Raise e, w0) => (Raise e, w0)
      end
  | _ => (Ok None, w)
  end.

(** ['Error copying volume "{0:s}": {1!s}'.format(volume_name,
    exception)] for a volume name that is a string. *)
Definition copy_error_message (volume_name : str) (e : exn) : str :=
  lit "Error copying volume " ++ [34] ++ volume_name ++ [34] ++ lit ": "
    ++ str_exception e.

(** [CreateVolumeCopy]: the account of the zone, the instance when a
    name is given, the [try] block, and the handler of [RuntimeError],
    whose message formats [volume_name] with ['{0:s}']. *)
Definition CreateVolumeCopy (instance_name : option str) (zone : str)
    (volume_name : option str) (w : World) : outcome AwsVolume * World :=
  let aws_account := {| default_availability_zone := zone |} in
  let '(instance, w0) := lookup_instance aws_account instance_name w in
  match instance with
  | Raise e => (Raised (Exn e), w0)
  | Ok instance =>
      match copy_steps aws_account instance volume_name w0 with
      | (Raised (Exn (RuntimeError arg)), w1) =>
          match volume_name with
          | None => (Raised (Exn TypeError), w1)
          | Some volume_name =>
              (Raised (Exn (RuntimeError (Msg
                 (copy_error_message volume_name (RuntimeError arg))))),
               w1)
          end
      | r => r
      end
  end.

End Account.

End Forensics.

(** *** [libcloudforensics/providers/aws/internal/s3.py] *)

Module S3.

(** What a call of the S3 client raises, with the text that [str]
    gives. [BucketAlreadyOwnedByYou] is a [ClientError] of its own
    class. *)
Inductive sdk_exception : Type :=
| BucketAlreadyOwnedByYou (text : str)
| ClientError (text : str)
| FileNotFoundError (text : str)
| OtherException (text : str).

(** What the methods raise: the errors of [libcloudforensics.errors],
    with their message, the name of the module and their cause, or the
    exception of the client as it is. *)
Inductive error : Type :=
| ResourceCreationError (message name : str) (cause : sdk_exception)
| ResourceNotFoundError (message name : str) (cause : sdk_exception)
| Propagated (e : sdk_exception).

Definition module_name : str :=
  lit "libcloudforensics.providers.aws.internal.s3".

(** The resource, by the default region of its account. *)
Record S3 := {
  account_default_region : str
}.

Section Client.

Variable World : Type.
Variable Bucket : Type.
Variable create_bucket :
  str -> str -> str -> World -> (sdk_exception + Bucket) * World.
Variable upload_file :
  str -> str -> str -> World -> option sdk_exception * World.

(** [S3.CreateBucket]; the arguments of [create_bucket] are [Bucket],
    [ACL] and the [LocationConstraint] of the configuration. *)
Definition CreateBucket (self : S3) (name : str) (region : option str)
    (acl : str) (w : World) : (error + Bucket) * World :=
  let location :=
    match region with
    | Some (c :: r) => c :: r
    | _ => account_default_region self
    end in
  match create_bucket name acl location w with
  | (inr bucket, w1) => (inr bucket, w1)
  | (inl (BucketAlreadyOwnedByYou text), w1) =>
      (inl (ResourceCreationError
              (lit "Bucket " ++ name ++ lit " already exists: " ++ text)
              module_name (BucketAlreadyOwnedByYou text)), w1)
  | (inl (ClientError text), w1) =>
      (inl (ResourceCreationError
              (lit "Could not create bucket " ++ name ++ lit ": " ++ text)
              module_name (ClientError text)), w1)
  | (inl e, w1) => (inl (Propagated e), w1)
  end.

(** The bucket argument of [Put]: the path without one leading
    ['s3://']. *)
Definition strip_scheme (s3_path : str) : str :=
  if startswith s3_path (lit "s3://") then slice_from s3_path 5
  else s3_path.

(** [S3.Put]; the arguments of [upload_file] are the file, the bucket
    and the key. *)
Definition Put (self : S3) (s3_path local_file : str) (w : World)
    : option error * World :=
  let s3_path := strip_scheme s3_path in
  match upload_file local_file s3_path (basename local_file) w with
  | (None, w1) => (None, w1)
  | (Some (FileNotFoundError text), w1) =>
      (Some (ResourceNotFoundError
               (lit "Could not upload file " ++ local_file ++ lit ": "
                  ++ text)
               module_name (FileNotFoundError text)), w1)
  | (Some (ClientError text), w1) =>
      (Some (ResourceCreationError
               (lit "Could not upload file " ++ local_file ++ lit ": "
                  ++ text)
               module_name (ClientError text)), w1)
  | (Some (BucketAlreadyOwnedByYou text), w1) =>
      (Some (ResourceCreationError
               (lit "Could not upload file " ++ local_file ++ lit ": "
                  ++ text)
               module_name (BucketAlreadyOwnedByYou text)), w1)
  | (Some e, w1) => (Some (Propagated e), w1)
  end.

End Client.

End S3.

(** *** A small account with instances, for concrete instances *)

Module Sample.

Import Listing Forensics.

(** The state of the account: the calls that changed it, last first. *)
Definition World : Type := list str.

Definition get_caller_identity (w : World) : dict str := Demo.identity.

Definition create_volume (zone sid : str) (tags : list TagSpecification)
    (w : World) : result CreateVolumeResponse * World :=
  (Ok {| Aws.VolumeId := lit "vol-0789"; Aws.AvailabilityZone := zone |},
   lit "create_volume" :: w).

Definition create_volume_fails (zone sid : str)
    (tags : list TagSpecification) (w : World)
    : result CreateVolumeResponse * World :=
  (Raise (Py.ClientError (lit "VolumeLimitExceeded")), w).

Definition wait_ok (ids : list str) (w : World) : result unit * World :=
  (Ok tt, w).

Definition volumes : dict VolumeInfo :=
  [ (lit "vol-0123",
      [(lit "region", lit "us-east-1"); (lit "zone", lit "us-east-1a");
       (lit "name", lit "data"); (lit "device", lit "/dev/sdf")]);
    (lit "vol-0124",
      [(lit "region", lit "us-east-1"); (lit "zone", lit "us-east-1a");
       (lit "device", lit "/dev/sda1")]) ].

Definition ListVolumes (region : option str) (filters : list Filter)
    (w : World) : result (dict VolumeInfo) * World := (Ok volumes, w).

Definition instances : dict InstanceInfo :=
  [ (lit "i-0001",
      [(lit "region", lit "us-east-1"); (lit "zone", lit "us-east-1a");
       (lit "name", lit "web")]) ].

Definition ListInstances (region : option str) (w : World)
    : result (dict InstanceInfo) * World := (Ok instances, w).

Definition root_device_name (instance_id : str) (w : World)
    : result (option str) * World := (Ok (Some (lit "/dev/sda1")), w).

Definition root_device_xvda (instance_id : str) (w : World)
    : result (option str) * World := (Ok (Some (lit "/dev/xvda")), w).

Definition create_snapshot (volume_id : str) (tags : list TagSpecification)
    (w : World) : result CreateSnapshotResponse * World :=
  (Ok {| SnapshotId := lit "snap-0456" |}, lit "create_snapshot" :: w).

Definition delete_snapshot (snapshot_id : str) (w : World)
    : result unit * World := (Ok tt, lit "delete_snapshot" :: w).

Definition now (w : World) : str := lit "20200102030405".

(** The text of the exceptions that [str_exception] leaves open: for a
    [KeyError] the [repr] of its key, here for a key without quotes or
    escapes, as ['zone'] is; the three others are recorded without
    arguments, and [str] of an exception without arguments is the empty
    text. In the sample account every [RuntimeError] that the handler
    of [CreateVolumeCopy] catches is built from a message or from a
    [RuntimeError] of a message, so none of these texts is taken. *)
Definition text_of_other (e : exn) : str :=
  match e with
  | KeyError key => [39] ++ key ++ [39]
  | _ => []
  end.

(** A listing that answers once and then fails as a throttled call of
    the SDK does, with botocore's [ClientError]. *)
Definition ListVolumes_once (region : option str) (w : World)
    : result (dict VolumeInfo) * World :=
  match w with
  | [] => (Ok volumes, [lit "describe_volumes"])
  | _ => (Raise (Py.ClientError (lit "RequestLimitExceeded")), w)
  end.

Definition account : AwsAccount :=
  {| default_availability_zone := lit "us-east-1a" |}.

(** Two pages of [describe_volumes]: the second one, under the token
    ["t1"], describes [vol-0123] again. *)
Definition page1 : DescribeVolumes.Response :=
  {| DescribeVolumes.Volumes :=
       [ {| DescribeVolumes.VolumeId := lit "vol-0123";
            DescribeVolumes.AvailabilityZone := lit "us-east-1a";
            DescribeVolumes.Tags :=
              Some [ [(lit "Key", lit "Owner"); (lit "Value", lit "ir")];
                     [(lit "Key", lit "Name"); (lit "Value", lit "data")] ];
            DescribeVolumes.Attachments := [] |} ];
     DescribeVolumes.NextToken := Some (lit "t1") |}.

Definition page2 : DescribeVolumes.Response :=
  {| DescribeVolumes.Volumes :=
       [ {| DescribeVolumes.VolumeId := lit "vol-0124";
            DescribeVolumes.AvailabilityZone := lit "us-east-1b";
            DescribeVolumes.Tags := None;
            DescribeVolumes.Attachments :=
              [ {| DescribeVolumes.Device := lit "/dev/sda1" |} ] |} ];
     DescribeVolumes.NextToken := None |}.

Definition describe_volumes (region : str) (filters : list Filter)
    (next_token : option str) (w : World)
    : result DescribeVolumes.Response * World :=
  match next_token with
  | None => (Ok page1, w)
  | Some _ => (Ok page2, w)
  end.

Definition reservations : list DescribeInstances.Reservation :=
  [ {| DescribeInstances.Instances :=
         [ {| DescribeInstances.InstanceId := lit "i-0001";
              DescribeInstances.Tags :=
                Some [ [(lit "Key", lit "Name"); (lit "Value", lit "web")] ];
              DescribeInstances.State_Name := lit "running";
              DescribeInstances.Placement_AvailabilityZone :=
                lit "us-east-1a" |};
           {| DescribeInstances.InstanceId := lit "i-0002";
              DescribeInstances.Tags := None;
              DescribeInstances.State_Name := lit "terminated";
              DescribeInstances.Placement_AvailabilityZone :=
                lit "us-east-1a" |} ] |} ].

Definition instance : AwsInstance :=
  {| instance_account := account;
     instance_id := lit "i-0001";
     instance_region := lit "us-east-1";
     instance_availability_zone := lit "us-east-1a";
     instance_name := None |}.

Definition describe_instances (region : str) (filters : list Filter)
    (next_token : option str) (w : World)
    : result DescribeInstances.Response * World :=
  (Ok {| DescribeInstances.Reservations := reservations;
         DescribeInstances.NextToken := None |}, w).

End Sample.

(** *** Notions on the listings *)

Module ListingFacts.

Import Listing.

(** An entry as the listings build it: the default region of the
    account, a zone, and a name only when it is not empty. *)
Definition entry_ok (self : AwsAccount) (info : dict str) : Prop :=
  dict_get info (lit "region") = Some (default_region self) /\
  (exists zone, dict_get info (lit "zone") = Some zone) /\
  (forall n, dict_get info (lit "name") = Some n -> n <> []).

Definition listing_ok (self : AwsAccount) (listing : dict (dict str)) : Prop :=
  dict_wf listing /\
  forall id info, dict_get listing id = Some info -> entry_ok self info.

(** The pages that [describe_volumes] serves from the token [token] and
    the state [w] on: every page but the last one names the token of
    the next page. *)
Inductive volume_pages {World : Type}
    (describe_volumes :
       str -> list Filter -> option str -> World ->
       result DescribeVolumes.Response * World)
    (region : str) (filters : list Filter)
    : option str -> World -> list DescribeVolumes.Response -> World -> Prop :=
| last_page token w response w1 :
    describe_volumes region filters token w = (Ok response, w1) ->
    (DescribeVolumes.NextToken response = None \/
     DescribeVolumes.NextToken response = Some []) ->
    volume_pages describe_volumes region filters token w [response] w1
| next_page token w response w1 c t pages w' :
    describe_volumes region filters token w = (Ok response, w1) ->
    DescribeVolumes.NextToken response = Some (c :: t) ->
    volume_pages describe_volumes region filters (Some (c :: t)) w1 pages w' ->
    volume_pages describe_volumes region filters token w
      (response :: pages) w'.

(** The volumes of all the pages, in their order. *)
Definition all_volumes (pages : list DescribeVolumes.Response)
    : list DescribeVolumes.Volume :=
  flat_map DescribeVolumes.Volumes pages.

(** The instances of all the reservations, in their order. *)
Definition all_instances (reservations : list DescribeInstances.Reservation)
    : list DescribeInstances.Instance :=
  flat_map DescribeInstances.Instances reservations.

(** One turn of the inner loop of [ListInstances]. *)
Definition add_instance (self : AwsAccount) (instances : dict InstanceInfo)
    (instance : DescribeInstances.Instance) : dict InstanceInfo :=
  if negb (str_eqb (DescribeInstances.State_Name instance) (lit "terminated"))
  then dict_set instances (DescribeInstances.InstanceId instance)
         (instance_info self instance)
  else instances.

End ListingFacts.

(** *** Notions on the keyword map *)

(** The kind that a kind is not. *)
Definition other_kind (kind : str) : str :=
  if str_eqb kind (lit "field_selector") then lit "label_selector"
  else lit "field_selector".

Definition equals_sign : char := 61.

(** ** Facts about the Python primitives *)

(** The primitives on known values. *)

Example crc32_check_value : crc32 (lit "123456789") = 0xCBF43926.
Proof. vm_compute. reflexivity. Qed.

Example crc32_empty : crc32 [] = 0.
Proof. vm_compute. reflexivity. Qed.

Example encode_non_ascii :
  encode [0xE9; 0x20AC; 0x1F600]
  = Some [195; 169; 226; 130; 172; 240; 159; 152; 128].
Proof. vm_compute. reflexivity. Qed.

Example encode_surrogate : encode [0xD800] = None.
Proof. vm_compute. reflexivity. Qed.

Example format_08x_small : format_08x 0x1a2b = lit "00001a2b".
Proof. vm_compute. reflexivity. Qed.

Example format_08x_wide : format_08x 0x123456789 = lit "123456789".
Proof. vm_compute. reflexivity. Qed.

Example slice_to_negative : slice_to (lit "us-east-1a") (-1) = lit "us-east-1".
Proof. vm_compute. reflexivity. Qed.

Example regex_examples :
  REGEX_TAG_VALUE_match [] = false /\
  REGEX_TAG_VALUE_match (lit "a") = true /\
  REGEX_TAG_VALUE_match (lit "a" ++ [newline]) = true /\
  REGEX_TAG_VALUE_match Demo.two_lines = false /\
  REGEX_TAG_VALUE_match [newline] = false /\
  REGEX_TAG_VALUE_match (repeat 97 255) = true /\
  REGEX_TAG_VALUE_match (repeat 97 256) = false /\
  REGEX_TAG_VALUE_match (repeat 97 255 ++ [newline]) = true.
Proof. vm_compute. repeat split; reflexivity. Qed.

(** The names of the volume [fake-volume-id] copied by [fake-user-id]. *)
Example GenerateVolumeName_examples :
  let snapshot :=
    {| snapshot_id := lit "fake-snapshot-id";
       volume := {| volume_id := lit "fake-volume-id";
                    volume_account := Demo.account;
                    volume_region := lit "fake-zone-2";
                    volume_availability_zone := lit "fake-zone-2b";
                    volume_name := None |};
       name := Some (lit "fake-snapshot") |} in
  let identity := [(lit "UserId", lit "fake-user-id")] in
  _GenerateVolumeName identity snapshot None
    = Ok (lit "fake-snapshot-d69d57c3-copy") /\
  _GenerateVolumeName identity snapshot (Some (lit "prefix"))
    = Ok (lit "prefix-fake-snapshot-d69d57c3-copy").
Proof. vm_compute. split; reflexivity. Qed.

(** A display name and a prefix of 300 characters each. *)
Example GenerateVolumeName_long_inputs :
  match _GenerateVolumeName Demo.identity (Demo.snapshot (repeat 98 300))
          (Some (repeat 97 300)) with
  | Ok s => s = repeat 97 241 ++ lit "-3174b803-copy" /\ len s = 255
  | Raise _ => False
  end.
Proof. vm_compute. split; reflexivity. Qed.

Example ToKeywords_examples :
  ToKeywords {| selectors := [] |} = [] /\
  ToKeywords {| selectors := [Name (lit "foo")] |}
    = [(lit "field_selector", lit "metadata.name=foo")] /\
  ToKeywords {| selectors := [Name (lit "foo"); Running;
                              Label (lit "app") (lit "web")] |}
    = [(lit "field_selector",
        lit "metadata.name=foo,status.phase!=Failed,status.phase!=Succeeded");
       (lit "label_selector", lit "app=web")] /\
  ToKeywords {| selectors := [Label (lit "app") (lit "web"); Running] |}
    = [(lit "label_selector", lit "app=web");
       (lit "field_selector",
        lit "status.phase!=Failed,status.phase!=Succeeded")].
Proof. vm_compute. repeat split; reflexivity. Qed.

(** Cutting at every comma alone takes the fragment of [Running] apart. *)
Example split_Running :
  split comma (ToString Running)
  = [lit "status.phase!=Failed"; lit "status.phase!=Succeeded"].
Proof. vm_compute. reflexivity. Qed.

Lemma str_eqb_eq (a b : str) : str_eqb a b = true <-> a = b.
Proof.
  revert b; induction a as [|x a IH]; intros [|y b]; simpl;
    try (split; [discriminate | discriminate]); try tauto.
  unfold char_eqb. rewrite andb_true_iff, Z.eqb_eq, IH.
  split; [intros [-> ->]; reflexivity | intros H; inversion H; auto].
Qed.

Lemma str_eqb_refl (a : str) : str_eqb a a = true.
Proof. apply str_eqb_eq; reflexivity. Qed.

Lemma str_eqb_neq (a b : str) : str_eqb a b = false <-> a <> b.
Proof.
  rewrite <- str_eqb_eq. destruct (str_eqb a b); split; congruence.
Qed.

Lemma len_app {A} (a b : list A) : len (a ++ b) = len a + len b.
Proof. unfold len. rewrite length_app. lia. Qed.

Lemma slice_to_nonneg {A} (s : list A) (n : Z) :
  0 <= n -> slice_to s n = firstn (Z.to_nat n) s.
Proof.
  intros H. unfold slice_to. destruct (0 <=? n) eqn:E; [reflexivity|].
  apply Z.leb_gt in E. lia.
Qed.

(** *** The hexadecimal rendering *)

Lemma hex_digit_lower (d : Z) : 0 <= d < 16 -> is_lower_hex (hex_digit d).
Proof.
  intros H. unfold hex_digit.
  assert (Hn : (Z.to_nat d < 16)%nat) by lia.
  revert Hn. generalize (Z.to_nat d) as k. intros k Hk.
  do 16 (destruct k as [|k]; [unfold is_lower_hex; simpl; lia|]).
  lia.
Qed.

Lemma hex_digits_lower (fuel : nat) : forall n acc,
  0 <= n -> Forall is_lower_hex acc ->
  Forall is_lower_hex (hex_digits fuel n acc).
Proof.
  induction fuel as [|fuel IH]; intros n acc Hn Hacc; simpl; [assumption|].
  assert (Hd : is_lower_hex (hex_digit (n mod 16))).
  { apply hex_digit_lower. apply Z.mod_pos_bound. lia. }
  destruct (n / 16 =? 0).
  - constructor; assumption.
  - apply IH; [apply Z.div_pos; lia | constructor; assumption].
Qed.

Lemma hex_digits_length (fuel : nat) : forall (k : nat) n acc,
  (1 <= k)%nat -> 0 <= n < 16 ^ Z.of_nat k ->
  (length (hex_digits fuel n acc) <= k + length acc)%nat.
Proof.
  induction fuel as [|fuel IH]; intros k n acc Hk Hn; simpl; [lia|].
  destruct (n / 16 =? 0) eqn:E; simpl; [lia|].
  apply Z.eqb_neq in E.
  destruct k as [|[|k]]; [lia| |].
  - exfalso. apply E. apply Z.div_small. simpl in Hn. lia.
  - specialize (IH (S k) (n / 16) (hex_digit (n mod 16) :: acc)).
    simpl length in IH.
    assert (0 <= n / 16 < 16 ^ Z.of_nat (S k)).
    { split; [apply Z.div_pos; lia|].
      apply Z.div_lt_upper_bound; [lia|].
      replace (Z.of_nat (S (S k))) with (Z.succ (Z.of_nat (S k))) in Hn by lia.
      rewrite Z.pow_succ_r in Hn by lia. lia. }
    assert (1 <= S k)%nat by lia.
    specialize (IH ltac:(assumption) ltac:(assumption)). lia.
Qed.

Lemma format_08x_length (n : Z) :
  0 <= n < 2 ^ 32 -> length (format_08x n) = 8%nat.
Proof.
  intros Hn. unfold format_08x, format_x.
  pose proof (hex_digits_length (S (Z.to_nat (Z.log2 n))) 8 n []) as H.
  assert (H8 : 16 ^ Z.of_nat 8 = 2 ^ 32) by reflexivity.
  rewrite H8 in H. specialize (H ltac:(lia) Hn).
  remember (hex_digits (S (Z.to_nat (Z.log2 n))) n []) as ds eqn:Eds.
  clear Eds. change (length (@nil Z)) with 0%nat in H.
  rewrite length_app, repeat_length.
  clear H8 Hn. lia.
Qed.

Lemma format_08x_lower (n : Z) :
  0 <= n -> Forall is_lower_hex (format_08x n).
Proof.
  intros Hn. unfold format_08x. apply Forall_app. split.
  - apply Forall_forall. intros c Hc. apply repeat_spec in Hc. subst c.
    unfold is_lower_hex. lia.
  - apply hex_digits_lower; [assumption | constructor].
Qed.

Lemma mask32_range (x : Z) : 0 <= Z.land x 0xffffffff < 2 ^ 32.
Proof.
  change 0xffffffff with (Z.ones 32). rewrite Z.land_ones by lia.
  apply Z.mod_pos_bound. lia.
Qed.

Lemma checksum_of_length (data : bytes) : length (checksum_of data) = 8%nat.
Proof. apply format_08x_length, mask32_range. Qed.

Lemma checksum_of_lower (data : bytes) : Forall is_lower_hex (checksum_of data).
Proof. apply format_08x_lower, mask32_range. Qed.

(** ** The generated volume name *)

Lemma firstn_241_length {A} (s : list A) :
  (length (firstn 241 s) <= 241)%nat.
Proof. rewrite length_firstn. lia. Qed.

Lemma prefix_segment_length (prefix : option str) :
  (length (prefix_segment prefix) <= 241)%nat.
Proof.
  destruct prefix as [[|c p]|]; cbn [prefix_segment];
    [cbn; lia | apply firstn_241_length | cbn; lia].
Qed.

(** The name that [_GenerateVolumeName] returns for a snapshot with a
    name, with the budget arithmetic carried out. *)
Lemma GenerateVolumeName_eq identity sid vol nm prefix :
  _GenerateVolumeName identity
    {| snapshot_id := sid; volume := vol; name := Some nm |} prefix =
  match encode (dict_get_default identity (lit "UserId") [] ++ volume_id vol)
  with
  | None => Raise UnicodeEncodeError
  | Some data =>
      Ok (prefix_segment prefix
            ++ firstn (241 - length (prefix_segment prefix)) nm
            ++ lit "-" ++ checksum_of data ++ lit "-copy")
  end.
Proof.
  unfold _GenerateVolumeName. cbn [name volume].
  destruct (encode _) as [data|]; [|reflexivity].
  fold (checksum_of data).
  assert (Hb : 255 - len (checksum_of data) - len (lit "-copy") - 1 = 241).
  { unfold len. rewrite checksum_of_length. reflexivity. }
  rewrite Hb. clear Hb.
  destruct prefix as [[|c p]|].
  - rewrite slice_to_nonneg by lia. reflexivity.
  - cbn [prefix_segment]. set (q := (c :: p) ++ lit "-").
    destruct (len q >? 241) eqn:E.
    + apply Z.gtb_lt in E. unfold len in E.
      rewrite (slice_to_nonneg q) by lia.
      change (Z.to_nat 241) with 241%nat.
      assert (Hl : length (firstn 241 q) = 241%nat)
        by (rewrite length_firstn; lia).
      unfold len at 1. rewrite Hl.
      rewrite slice_to_nonneg by lia. reflexivity.
    + assert (Hle : len q <= 241).
      { destruct (Z.gtb_spec (len q) 241); [discriminate | assumption]. }
      unfold len in Hle.
      rewrite (firstn_all2 q) by lia.
      rewrite slice_to_nonneg by (unfold len; lia).
      unfold len. replace (Z.to_nat (241 - Z.of_nat (length q)))
        with (241 - length q)%nat by lia.
      reflexivity.
  - rewrite slice_to_nonneg by lia. reflexivity.
Qed.

Lemma generated_length (seg base crc : str) :
  (length seg <= 241)%nat -> length crc = 8%nat ->
  (length base <= 241 - length seg)%nat ->
  (14 <= length (seg ++ base ++ lit "-" ++ crc ++ lit "-copy") <= 255)%nat.
Proof.
  intros Hs Hc Hb. rewrite !length_app, Hc.
  change (length (lit "-")) with 1%nat.
  change (length (lit "-copy")) with 5%nat. lia.
Qed.

Lemma last_In (seg : str) : seg <> [] -> In (last seg 0) seg.
Proof.
  induction seg as [|a [|b seg] IH]; intros H; [congruence | left; reflexivity |].
  right. apply IH. discriminate.
Qed.

(** C1, as worded, fails for a prefix of 241 characters: the separator
    after the prefix is cut off, so no segment of the name that comes
    before the display name ends in ['-']. *)
Lemma GenerateVolumeName_long_prefix_counterexample :
  exists data s,
    encode (dict_get_default Demo.identity (lit "UserId") []
              ++ volume_id Demo.source_volume) = Some data /\
    _GenerateVolumeName Demo.identity (Demo.snapshot (lit "disk"))
      (Some Demo.long_prefix) = Ok s /\
    ~ spec_copy_name_shape (Some Demo.long_prefix) (lit "disk")
        (checksum_of data) s.
Proof.
  exists Demo.identity_bytes. eexists. split; [reflexivity|]. split.
  - unfold Demo.snapshot. rewrite GenerateVolumeName_eq.
    change (encode _) with (Some Demo.identity_bytes). reflexivity.
  - change (prefix_segment (Some Demo.long_prefix)) with Demo.long_prefix.
    change (firstn (241 - length Demo.long_prefix) (lit "disk"))
      with (@nil Z).
    intros (seg & k & Hne & Hlast & Heq).
    cbn [app] in Heq.
    change (lit "-" ++ checksum_of Demo.identity_bytes ++ lit "-copy")
      with ([] ++ lit "-" ++ checksum_of Demo.identity_bytes ++ lit "-copy")
      in Heq at 1.
    rewrite (app_assoc seg) in Heq. rewrite (app_assoc Demo.long_prefix) in Heq.
    apply app_inv_tail in Heq. rewrite app_nil_r in Heq.
    pose proof (last_In seg Hne) as Hin. rewrite Hlast in Hin.
    assert (Hin' : In 45 Demo.long_prefix).
    { rewrite Heq. apply in_or_app. left. exact Hin. }
    apply repeat_spec in Hin'. discriminate.
Qed.

(** C1 (amended): the generated name is [seg + base + '-' + checksum +
    '-copy'], where [seg] is empty without a prefix (or with the empty
    one) and otherwise the 241 left-most characters of [prefix + '-'],
    which is [prefix + '-'] itself for a prefix of at most 240 characters;
    [base] is the display name cut to its [241 - len(seg)] left-most
    characters; and the checksum is the CRC-32, masked to 32 bits, of the
    UTF-8 bytes of the account identity followed by the unique id,
    written as exactly 8 lowercase hexadecimal digits. Without such bytes
    no name is returned. *)
Theorem GenerateVolumeName_shape :
  forall identity sid vol nm prefix,
    let user_id := dict_get_default identity (lit "UserId") [] in
    let snapshot := {| snapshot_id := sid; volume := vol; name := Some nm |} in
    let seg := prefix_segment prefix in
    match encode (user_id ++ volume_id vol) with
    | Some data =>
        let crc := format_08x (Z.land (crc32 data) 0xffffffff) in
        _GenerateVolumeName identity snapshot prefix =
          Ok (seg ++ firstn (241 - length seg) nm
                ++ lit "-" ++ crc ++ lit "-copy") /\
        length crc = 8%nat /\ Forall is_lower_hex crc /\
        match prefix with
        | Some (c :: p) =>
            seg = firstn 241 ((c :: p) ++ lit "-") /\
            ((length (c :: p) <= 240)%nat -> seg = (c :: p) ++ lit "-")
        | _ => seg = []
        end
    | None =>
        _GenerateVolumeName identity snapshot prefix = Raise UnicodeEncodeError
    end.
Proof.
  intros identity sid vol nm prefix user_id snapshot seg.
  pose proof (GenerateVolumeName_eq identity sid vol nm prefix) as H.
  fold user_id snapshot seg in H.
  destruct (encode (user_id ++ volume_id vol)) as [data|]; [|exact H].
  cbv zeta. fold (checksum_of data).
  split; [exact H|]. split; [apply checksum_of_length|].
  split; [apply checksum_of_lower|].
  destruct prefix as [[|c p]|]; try reflexivity.
  split; [reflexivity|]. intros Hlen. subst seg. cbn [prefix_segment].
  apply firstn_all2. rewrite length_app. change (length (lit "-")) with 1%nat.
  lia.
Qed.

(** C2: whatever the display name, the unique id, the account identity
    and the prefix, a returned name has between 1 and 255 characters; and
    a name is returned unless the identity cannot be encoded. *)
Theorem GenerateVolumeName_length :
  forall identity sid vol nm prefix,
    match _GenerateVolumeName identity
            {| snapshot_id := sid; volume := vol; name := Some nm |} prefix
    with
    | Ok s => 0 < len s <= 255
    | Raise e =>
        e = UnicodeEncodeError /\
        encode (dict_get_default identity (lit "UserId") [] ++ volume_id vol)
          = None
    end.
Proof.
  intros identity sid vol nm prefix. rewrite GenerateVolumeName_eq.
  destruct (encode _) as [data|]; [|split; reflexivity].
  pose proof (generated_length (prefix_segment prefix)
    (firstn (241 - length (prefix_segment prefix)) nm) (checksum_of data)
    (prefix_segment_length prefix) (checksum_of_length data)) as H.
  rewrite length_firstn in H. specialize (H ltac:(lia)).
  unfold len. lia.
Qed.

(** C4: with a non-empty prefix the name starts with the 241 left-most
    characters of [prefix + '-'], a non-empty segment, so a prefix that
    is too long is cut and never dropped; the 8 digits of the checksum
    follow in full; the display name is cut to what the segment leaves
    of the 241 characters, which is nothing once the prefix has 241
    characters or more; and the name has between 1 and 255 characters. *)
Theorem GenerateVolumeName_prefix_truncated :
  forall identity sid vol nm c p data,
    encode (dict_get_default identity (lit "UserId") [] ++ volume_id vol)
      = Some data ->
    let seg := firstn 241 ((c :: p) ++ lit "-") in
    let base := firstn (241 - length seg) nm in
    let crc := checksum_of data in
    _GenerateVolumeName identity
      {| snapshot_id := sid; volume := vol; name := Some nm |}
      (Some (c :: p))
      = Ok (seg ++ base ++ lit "-" ++ crc ++ lit "-copy") /\
    seg <> [] /\ (exists rest, (c :: p) ++ lit "-" = seg ++ rest) /\
    length crc = 8%nat /\
    0 < len (seg ++ base ++ lit "-" ++ crc ++ lit "-copy") <= 255 /\
    ((241 <= length (c :: p))%nat ->
       seg = firstn 241 (c :: p) /\ base = [] /\
       len (seg ++ base ++ lit "-" ++ crc ++ lit "-copy") = 255).
Proof.
  intros identity sid vol nm c p data Henc seg base crc.
  pose proof (GenerateVolumeName_eq identity sid vol nm (Some (c :: p))) as H.
  rewrite Henc in H. cbn [prefix_segment] in H. fold seg base crc in H.
  assert (Hseg : (length seg <= 241)%nat) by apply firstn_241_length.
  assert (Hcrc : length crc = 8%nat) by apply checksum_of_length.
  assert (Hbase : (length base <= 241 - length seg)%nat).
  { subst base. rewrite length_firstn. lia. }
  split; [exact H|]. split; [subst seg; discriminate|].
  split; [exists (skipn 241 ((c :: p) ++ lit "-"));
          symmetry; apply firstn_skipn|].
  split; [exact Hcrc|]. split.
  - pose proof (generated_length seg base crc Hseg Hcrc Hbase).
    unfold len. lia.
  - intros Hlong.
    assert (Es : seg = firstn 241 (c :: p)).
    { subst seg. rewrite firstn_app.
      replace (241 - length (c :: p))%nat with 0%nat by lia.
      cbn [firstn]. apply app_nil_r. }
    assert (El : length seg = 241%nat).
    { rewrite Es, length_firstn. lia. }
    assert (Eb : base = []).
    { subst base. rewrite El. reflexivity. }
    split; [exact Es|]. split; [exact Eb|].
    unfold len. rewrite Eb, !length_app, El, Hcrc. reflexivity.
Qed.

Lemma GenerateVolumeName_prefix_truncated_witness :
  exists s,
    _GenerateVolumeName Demo.identity (Demo.snapshot (lit "disk"))
      (Some Demo.long_prefix) = Ok s /\ len s = 255.
Proof.
  destruct (GenerateVolumeName_prefix_truncated Demo.identity
              (lit "snap-0456") Demo.source_volume (lit "disk")
              97 (repeat 97 240) Demo.identity_bytes eq_refl)
    as (Hname & _ & _ & _ & _ & Hlong).
  eexists. split; [exact Hname|].
  apply Hlong. cbn [length]. rewrite repeat_length. lia.
Defined.

(** C10: the empty prefix gives the same name as no prefix, the name
    without a prefix segment and its separator; and the default prefix
    [''] of [CreateVolumeFromSnapshot] behaves as no prefix at all. *)
Theorem GenerateVolumeName_empty_prefix :
  forall identity snapshot,
    _GenerateVolumeName identity snapshot (Some [])
      = _GenerateVolumeName identity snapshot None /\
    (forall nm data,
       name snapshot = Some nm ->
       encode (dict_get_default identity (lit "UserId") []
                 ++ volume_id (volume snapshot)) = Some data ->
       _GenerateVolumeName identity snapshot (Some [])
         = Ok (firstn 241 nm ++ lit "-" ++ checksum_of data ++ lit "-copy")) /\
    (forall World get_caller_identity create_volume wait_volume_available
            self (w : World),
       CreateVolumeFromSnapshot_default World get_caller_identity
         create_volume wait_volume_available self snapshot w
       = CreateVolumeFromSnapshot World get_caller_identity
           create_volume wait_volume_available self snapshot None None w).
Proof.
  intros identity snapshot. split; [reflexivity|]. split; [|reflexivity].
  intros nm data Hnm Henc. destruct snapshot as [sid vol nm0].
  cbn [name volume] in Hnm, Henc. subst nm0.
  rewrite GenerateVolumeName_eq, Henc. reflexivity.
Qed.

Lemma GenerateVolumeName_empty_prefix_witness :
  _GenerateVolumeName Demo.identity (Demo.snapshot (lit "disk")) (Some [])
  = Ok (lit "disk-" ++ checksum_of Demo.identity_bytes ++ lit "-copy").
Proof.
  destruct (GenerateVolumeName_empty_prefix Demo.identity
              (Demo.snapshot (lit "disk"))) as (_ & Hform & _).
  exact (Hform (lit "disk") Demo.identity_bytes eq_refl eq_refl).
Defined.

(** ** The tag check *)

Lemma dollar_matches_spec (tail : str) :
  dollar_matches tail = true <-> tail = [] \/ tail = [newline].
Proof.
  destruct tail as [|c [|d tail]]; simpl.
  - split; auto.
  - rewrite Z.eqb_eq. split.
    + intros ->. right. reflexivity.
    + intros [H|H]; [discriminate | inversion H; reflexivity].
  - split; [discriminate | intros [H|H]; discriminate].
Qed.

Lemma forallb_dot_matches (body : str) :
  forallb dot_matches body = true <-> ~ In newline body.
Proof.
  induction body as [|c body IH]; simpl.
  - split; [intros _ [] | reflexivity].
  - rewrite andb_true_iff, IH. unfold dot_matches.
    rewrite negb_true_iff, Z.eqb_neq. split.
    + intros [Hc Hb] [E|E]; [exact (Hc E) | exact (Hb E)].
    + intros H. split; [intros E | intros E]; apply H; [left | right]; auto.
Qed.

Lemma dot_repeat_then_dollar_spec (hi : nat) : forall lo s,
  dot_repeat_then_dollar lo hi s = true <->
  exists body tail,
    s = body ++ tail /\ dollar_matches tail = true /\
    forallb dot_matches body = true /\ (lo <= length body <= hi)%nat.
Proof.
  assert (Hstop : forall lo hi' s,
    Nat.eqb lo 0 && dollar_matches s = true ->
    exists body tail,
      s = body ++ tail /\ dollar_matches tail = true /\
      forallb dot_matches body = true /\ (lo <= length body <= hi')%nat).
  { intros lo hi' s H. apply andb_true_iff in H. destruct H as [Hlo Hd].
    apply Nat.eqb_eq in Hlo. exists [], s. simpl. repeat split; auto; lia. }
  induction hi as [|hi IH]; intros lo s.
  - cbn [dot_repeat_then_dollar]. split; [apply Hstop|].
    intros (body & tail & -> & Hd & _ & Hlen).
    destruct body; [|simpl in Hlen; lia]. simpl in *.
    rewrite Hd. replace lo with 0%nat by lia. reflexivity.
  - destruct s as [|c s'].
    + cbn [dot_repeat_then_dollar]. split; [apply Hstop|].
      intros (body & tail & Heq & Hd & _ & Hlen).
      destruct body; [|discriminate]. simpl in *. subst tail.
      replace lo with 0%nat by lia. reflexivity.
    + cbn [dot_repeat_then_dollar]. rewrite orb_true_iff, andb_true_iff, IH.
      split.
      * intros [[Hc (body & tail & -> & Hd & Hb & Hlen)] | H];
          [|apply Hstop; exact H].
        exists (c :: body), tail. simpl. rewrite Hc, Hb.
        repeat split; auto; lia.
      * intros (body & tail & Heq & Hd & Hb & Hlen).
        destruct body as [|c' body].
        -- right. cbn [app length] in Heq, Hlen. subst tail. rewrite Hd.
           replace lo with 0%nat by lia. reflexivity.
        -- left. simpl in Heq, Hb, Hlen. inversion Heq; subst c' s'.
           apply andb_true_iff in Hb. destruct Hb as [Hc Hb].
           split; [exact Hc|]. exists body, tail.
           repeat split; auto; lia.
Qed.

(** [REGEX_TAG_VALUE.match] accepts exactly the names of [tag_value_ok]. *)
Lemma REGEX_TAG_VALUE_match_spec (s : str) :
  REGEX_TAG_VALUE_match s = true <-> tag_value_ok s.
Proof.
  unfold REGEX_TAG_VALUE_match, tag_value_ok.
  rewrite dot_repeat_then_dollar_spec. split.
  - intros (body & tail & Heq & Hd & Hb & Hlen). exists body, tail.
    rewrite <- dollar_matches_spec, <- forallb_dot_matches. auto.
  - intros (body & tail & Heq & Hd & Hb & Hlen). exists body, tail.
    rewrite dollar_matches_spec, forallb_dot_matches. auto.
Qed.

Lemma tag_value_ok_dec (s : str) : tag_value_ok s \/ ~ tag_value_ok s.
Proof.
  rewrite <- REGEX_TAG_VALUE_match_spec.
  destruct (REGEX_TAG_VALUE_match s); [left; reflexivity | right; discriminate].
Qed.

(** A name without a newline passes the check exactly when it has
    between 1 and 255 characters. *)
Lemma tag_value_ok_no_newline (s : str) :
  ~ In newline s -> (tag_value_ok s <-> 0 < len s <= 255).
Proof.
  intros Hn. unfold len. split.
  - intros (body & tail & -> & [->| ->] & _ & Hlen).
    + rewrite app_nil_r. lia.
    + exfalso. apply Hn. apply in_or_app. right. left. reflexivity.
  - intros H. exists s, []. rewrite app_nil_r. repeat split; auto; lia.
Qed.

(** ** The name check of [CreateVolumeFromSnapshot] *)

(** C3, as worded, fails for a display name of two lines: the composed
    name is neither empty nor longer than 255 characters, and the check
    raises [ValueError] all the same. *)
Lemma CreateVolumeFromSnapshot_newline_counterexample :
  exists composed,
    composed_name (Demo.get_caller_identity [])
      (Demo.snapshot Demo.two_lines) None (Some []) = Ok composed /\
    ~ ((exists msg,
          CreateVolumeFromSnapshot Demo.World Demo.get_caller_identity
            Demo.create_volume Demo.wait_volume_available Demo.account
            (Demo.snapshot Demo.two_lines) None (Some []) []
          = (Raise (ValueError msg), []))
       <-> spec_invalid_name composed).
Proof.
  eexists. split; [vm_compute; reflexivity|].
  intros [Hraise _].
  destruct Hraise as [E|E].
  - eexists. vm_compute. reflexivity.
  - discriminate E.
  - vm_compute in E. discriminate E.
Qed.

(** C3 (amended): once a name is composed, [CreateVolumeFromSnapshot]
    raises the [ValueError] of its check exactly when the name does not
    match [REGEX_TAG_VALUE], that is, unless the name is 1 to 255
    characters other than the newline, possibly followed by one newline;
    the account is then as it was before the call. A name that matches
    raises nothing at the check: the method goes on to create the
    volume. When no name can be composed, the exception of the generator
    is raised, and the account is unchanged as well. *)
Theorem CreateVolumeFromSnapshot_name_check :
  forall World get_caller_identity create_volume wait_volume_available
         self snapshot volume_name volume_name_prefix (w : World),
    match composed_name (get_caller_identity w) snapshot volume_name
            volume_name_prefix with
    | Ok composed =>
        (tag_value_ok composed ->
           CreateVolumeFromSnapshot World get_caller_identity create_volume
             wait_volume_available self snapshot volume_name
             volume_name_prefix w
           = create_tagged_volume World create_volume wait_volume_available
               self snapshot composed w) /\
        (~ tag_value_ok composed ->
           CreateVolumeFromSnapshot World get_caller_identity create_volume
             wait_volume_available self snapshot volume_name
             volume_name_prefix w
           = (Raise (ValueError (name_error_message composed)), w)) /\
        (tag_value_ok composed \/ ~ tag_value_ok composed)
    | Raise e =>
        CreateVolumeFromSnapshot World get_caller_identity create_volume
          wait_volume_available self snapshot volume_name
          volume_name_prefix w
        = (Raise e, w)
    end.
Proof.
  intros World gci cv wva self snapshot volume_name prefix w.
  unfold CreateVolumeFromSnapshot.
  change (match volume_name with
          | Some (c :: n) => Ok (c :: n)
          | _ => _GenerateVolumeName (gci w) snapshot prefix
          end)
    with (composed_name (gci w) snapshot volume_name prefix).
  destruct (composed_name (gci w) snapshot volume_name prefix)
    as [composed|e]; [|reflexivity].
  split; [|split; [|apply tag_value_ok_dec]].
  - intros Hok. apply REGEX_TAG_VALUE_match_spec in Hok. rewrite Hok.
    reflexivity.
  - intros Hbad.
    destruct (REGEX_TAG_VALUE_match composed) eqn:E; [|reflexivity].
    exfalso. apply Hbad. apply REGEX_TAG_VALUE_match_spec. exact E.
Qed.

Lemma CreateVolumeFromSnapshot_name_check_witness :
  (exists composed,
     CreateVolumeFromSnapshot Demo.World Demo.get_caller_identity
       Demo.create_volume Demo.wait_volume_available Demo.account
       (Demo.snapshot Demo.two_lines) None (Some []) []
     = (Raise (ValueError (name_error_message composed)), [])) /\
  (exists v w',
     CreateVolumeFromSnapshot Demo.World Demo.get_caller_identity
       Demo.create_volume Demo.wait_volume_available Demo.account
       (Demo.snapshot (lit "disk")) None (Some []) []
     = (Ok v, w') /\ length w' = 1%nat).
Proof.
  split.
  - pose proof (CreateVolumeFromSnapshot_name_check Demo.World
      Demo.get_caller_identity Demo.create_volume Demo.wait_volume_available
      Demo.account (Demo.snapshot Demo.two_lines) None (Some []) []) as H.
    remember (composed_name _ _ _ _) as r eqn:E in H.
    vm_compute in E. subst r. destruct H as (_ & Hbad & _).
    eexists. apply Hbad. rewrite <- REGEX_TAG_VALUE_match_spec.
    vm_compute. discriminate.
  - pose proof (CreateVolumeFromSnapshot_name_check Demo.World
      Demo.get_caller_identity Demo.create_volume Demo.wait_volume_available
      Demo.account (Demo.snapshot (lit "disk")) None (Some []) []) as H.
    remember (composed_name _ _ _ _) as r eqn:E in H.
    vm_compute in E. subst r. destruct H as (Hok & _ & _).
    do 2 eexists. split.
    + rewrite Hok; [reflexivity|].
      rewrite <- REGEX_TAG_VALUE_match_spec. vm_compute. reflexivity.
    + reflexivity.
Defined.

(** ** [GetVolume] *)

(** C9, as worded, fails for an error that is not a [RuntimeError]:
    with a listing that answers the lookup by id of ["vol-9999"] (the
    volume is not found, a [RuntimeError]) and fails under the lookup by
    name with the [ClientError] of the SDK, [GetVolume] raises that
    [ClientError] itself, not a [RuntimeError] built from it. *)
Lemma GetVolume_ClientError_counterexample :
  fst (__GetVolumeById Sample.World Sample.ListVolumes_once Sample.account
         (lit "vol-9999") None [])
  = Raise (volume_not_found (lit "vol-9999")) /\
  fst (__GetVolumeByName Sample.World Sample.ListVolumes_once Sample.account
         (lit "vol-9999") None [lit "describe_volumes"])
  = Raise (Py.ClientError (lit "RequestLimitExceeded")) /\
  GetVolume Sample.World Sample.ListVolumes_once Sample.account
    (lit "vol-9999") None []
  = (Raise (Py.ClientError (lit "RequestLimitExceeded")),
     [lit "describe_volumes"]) /\
  ~ spec_both_lookups_fail Sample.World Sample.ListVolumes_once
      Sample.account (lit "vol-9999") None [].
Proof.
  split; [vm_compute; reflexivity|].
  split; [vm_compute; reflexivity|].
  split; [vm_compute; reflexivity|].
  intros H.
  specialize (H (volume_not_found (lit "vol-9999"))
                (Py.ClientError (lit "RequestLimitExceeded"))).
  assert (E : fst (GetVolume Sample.World Sample.ListVolumes_once
                     Sample.account (lit "vol-9999") None [])
              = Raise (Py.ClientError (lit "RequestLimitExceeded")))
    by (vm_compute; reflexivity).
  rewrite E in H.
  assert (C : Raise (A := AwsVolume)
                (Py.ClientError (lit "RequestLimitExceeded"))
              = Raise (RuntimeError (Exc
                  (Py.ClientError (lit "RequestLimitExceeded")))))
    by (apply H; vm_compute; reflexivity).
  discriminate C.
Qed.

(** C9 (amended): only a [RuntimeError] of a lookup is caught. When the
    lookup by id raises a [RuntimeError] and the lookup by name raises
    one as well, [GetVolume] raises a [RuntimeError] whose argument is
    the second exception, whatever the first one was; when the lookup by
    id returns a volume, or raises a [RuntimeError] and the lookup by
    name returns one, that volume is returned. An exception of the
    lookup by id that is not a [RuntimeError] leaves [GetVolume] as it
    is, before the lookup by name is run; one of the lookup by name does
    so after a [RuntimeError] of the lookup by id. *)
Theorem GetVolume_fallback :
  forall World ListVolumes self volume_name_or_id region (w : World),
    let by_id :=
      __GetVolumeById World ListVolumes self volume_name_or_id region w in
    let by_name :=
      __GetVolumeByName World ListVolumes self volume_name_or_id region
        (snd by_id) in
    (forall v,
       fst by_id = Ok v ->
       GetVolume World ListVolumes self volume_name_or_id region w
       = (Ok v, snd by_id)) /\
    (forall a1 v,
       fst by_id = Raise (RuntimeError a1) -> fst by_name = Ok v ->
       GetVolume World ListVolumes self volume_name_or_id region w
       = (Ok v, snd by_name)) /\
    (forall a1 a2,
       fst by_id = Raise (RuntimeError a1) ->
       fst by_name = Raise (RuntimeError a2) ->
       GetVolume World ListVolumes self volume_name_or_id region w
       = (Raise (RuntimeError (Exc (RuntimeError a2))), snd by_name)) /\
    (forall e,
       fst by_id = Raise e -> (forall a, e <> RuntimeError a) ->
       GetVolume World ListVolumes self volume_name_or_id region w
       = (Raise e, snd by_id)) /\
    (forall a1 e,
       fst by_id = Raise (RuntimeError a1) ->
       fst by_name = Raise e -> (forall a, e <> RuntimeError a) ->
       GetVolume World ListVolumes self volume_name_or_id region w
       = (Raise e, snd by_name)).
Proof.
  intros World ListVolumes self id region w by_id by_name.
  unfold GetVolume. fold by_id.
  destruct by_id as [r1 w1] eqn:E1. cbn [fst snd] in *.
  repeat split.
  - intros v ->. reflexivity.
  - intros a1 v -> H2. cbn [try_except_RuntimeError].
    fold by_name. destruct by_name as [r2 w2]. cbn [fst snd] in *.
    subst r2. reflexivity.
  - intros a1 a2 -> H2. cbn [try_except_RuntimeError].
    fold by_name. destruct by_name as [r2 w2]. cbn [fst snd] in *.
    subst r2. reflexivity.
  - intros e -> Hother.
    destruct e as [| | |k|m|m|arg]; try reflexivity.
    exfalso. exact (Hother arg eq_refl).
  - intros a1 e -> H2 Hother. cbn [try_except_RuntimeError].
    fold by_name. destruct by_name as [r2 w2]. cbn [fst snd] in *.
    subst r2.
    destruct e as [| | |k|m|m|arg]; try reflexivity.
    exfalso. exact (Hother arg eq_refl).
Qed.

Lemma GetVolume_fallback_witness :
  GetVolume Demo.World Demo.ListVolumes Demo.account (lit "vol-9999") None []
  = (Raise (RuntimeError (Exc (RuntimeError (Msg
       (lit "Volume vol-9999 was not found in AWS account"))))), []) /\
  (exists v,
     GetVolume Demo.World Demo.ListVolumes Demo.account (lit "vol-0124")
       None [] = (Ok v, []) /\ volume_name v = None) /\
  (exists v,
     GetVolume Demo.World Demo.ListVolumes Demo.account (lit "data")
       None [] = (Ok v, []) /\ volume_id v = lit "vol-0123") /\
  GetVolume Sample.World Sample.ListVolumes_once Sample.account
    (lit "data") None [lit "describe_volumes"]
  = (Raise (Py.ClientError (lit "RequestLimitExceeded")),
     [lit "describe_volumes"]) /\
  GetVolume Sample.World Sample.ListVolumes_once Sample.account
    (lit "vol-9999") None []
  = (Raise (Py.ClientError (lit "RequestLimitExceeded")),
     [lit "describe_volumes"]).
Proof.
  split; [|split; [|split; [|split]]].
  - destruct (GetVolume_fallback Demo.World Demo.ListVolumes Demo.account
                (lit "vol-9999") None []) as (_ & _ & Hboth & _).
    exact (Hboth (Msg (lit "Volume vol-9999 was not found in AWS account"))
             (Msg (lit "Volume vol-9999 was not found in AWS account"))
             eq_refl eq_refl).
  - destruct (GetVolume_fallback Demo.World Demo.ListVolumes Demo.account
                (lit "vol-0124") None []) as (Hid & _).
    eexists. split; [apply Hid; reflexivity | reflexivity].
  - destruct (GetVolume_fallback Demo.World Demo.ListVolumes Demo.account
                (lit "data") None []) as (_ & Hname & _).
    eexists. split; [eapply Hname; reflexivity | reflexivity].
  - destruct (GetVolume_fallback Sample.World Sample.ListVolumes_once
                Sample.account (lit "data") None [lit "describe_volumes"])
      as (_ & _ & _ & Hid & _).
    apply (Hid (Py.ClientError (lit "RequestLimitExceeded")) eq_refl).
    intros a E. discriminate E.
  - destruct (GetVolume_fallback Sample.World Sample.ListVolumes_once
                Sample.account (lit "vol-9999") None [])
      as (_ & _ & _ & _ & Hname).
    apply (Hname (Msg (lit "Volume vol-9999 was not found in AWS account"))
             (Py.ClientError (lit "RequestLimitExceeded")) eq_refl eq_refl).
    intros a E. discriminate E.
Defined.

(** ** Dictionaries *)

Lemma dict_get_In {V} (d : dict V) (k : str) (v : V) :
  dict_get d k = Some v -> In k (dict_keys d).
Proof.
  induction d as [|[k0 v0] d IH]; simpl; [discriminate|].
  destruct (str_eqb k0 k) eqn:E.
  - intros _. left. apply str_eqb_eq. exact E.
  - intros H. right. apply IH. exact H.
Qed.

Lemma dict_get_None {V} (d : dict V) (k : str) :
  dict_get d k = None <-> ~ In k (dict_keys d).
Proof.
  induction d as [|[k0 v0] d IH]; simpl; [tauto|].
  destruct (str_eqb k0 k) eqn:E.
  - apply str_eqb_eq in E. split; [discriminate | intros H; exfalso; auto].
  - apply str_eqb_neq in E. rewrite IH. tauto.
Qed.

Lemma dict_get_NoDup {V} (d : dict V) (k : str) (v : V) :
  NoDup (dict_keys d) -> In (k, v) d -> dict_get d k = Some v.
Proof.
  induction d as [|[k0 v0] d IH]; simpl; intros Hnd Hin; [contradiction|].
  inversion Hnd as [|? ? Hnotin Hnd']; subst.
  destruct Hin as [E|Hin].
  - inversion E; subst. rewrite str_eqb_refl. reflexivity.
  - destruct (str_eqb k0 k) eqn:E; [|apply IH; assumption].
    apply str_eqb_eq in E. subst k0. exfalso. apply Hnotin.
    change k with (fst (k, v)). apply in_map. exact Hin.
Qed.

Lemma dict_get_map {V W} (f : V -> W) (d : dict V) (k : str) :
  dict_get (map (fun kv => (fst kv, f (snd kv))) d) k
  = option_map f (dict_get d k).
Proof.
  induction d as [|[k0 v0] d IH]; simpl; [reflexivity|].
  destruct (str_eqb k0 k); [reflexivity | exact IH].
Qed.

Lemma dict_keys_map {V W} (f : V -> W) (d : dict V) :
  dict_keys (map (fun kv => (fst kv, f (snd kv))) d) = dict_keys d.
Proof.
  unfold dict_keys. rewrite map_map. reflexivity.
Qed.

(** ** Collecting the fragments *)

Lemma dict_get_defaultdict_append (d : dict (list str)) (k v k' : str) :
  dict_get (defaultdict_append d k v) k' =
  if str_eqb k k'
  then Some (match dict_get d k with
             | Some vs => vs ++ [v]
             | None => [v]
             end)
  else dict_get d k'.
Proof.
  induction d as [|[k0 vs] d IH]; simpl; [reflexivity|].
  destruct (str_eqb k0 k) eqn:E0; simpl.
  - apply str_eqb_eq in E0. subst k0.
    destruct (str_eqb k k'); reflexivity.
  - rewrite IH. destruct (str_eqb k k') eqn:E; [|reflexivity].
    apply str_eqb_eq in E. subst k'. rewrite E0. reflexivity.
Qed.

Lemma dict_keys_defaultdict_append (d : dict (list str)) (k v : str) :
  (In k (dict_keys d) -> dict_keys (defaultdict_append d k v) = dict_keys d) /\
  (~ In k (dict_keys d) ->
   dict_keys (defaultdict_append d k v) = dict_keys d ++ [k]).
Proof.
  induction d as [|[k0 vs] d [IH1 IH2]]; simpl.
  - split; [contradiction | reflexivity].
  - destruct (str_eqb k0 k) eqn:E0; simpl.
    + apply str_eqb_eq in E0. split; [reflexivity | intros H; exfalso; auto].
    + apply str_eqb_neq in E0. split.
      * intros [H|H]; [contradiction | rewrite IH1 by exact H; reflexivity].
      * intros H. rewrite IH2 by tauto. reflexivity.
Qed.

Lemma NoDup_defaultdict_append (d : dict (list str)) (k v : str) :
  NoDup (dict_keys d) -> NoDup (dict_keys (defaultdict_append d k v)).
Proof.
  intros Hnd. destruct (dict_keys_defaultdict_append d k v) as [H1 H2].
  destruct (in_dec (list_eq_dec Z.eq_dec) k (dict_keys d)) as [Hin|Hin].
  - rewrite H1 by exact Hin. exact Hnd.
  - rewrite H2 by exact Hin. apply NoDup_app; repeat split.
    + exact Hnd.
    + constructor; [intros [] | constructor].
    + intros a Ha [E|[]]. subst a. exact (Hin Ha).
Qed.

Lemma NoDup_collect (sels : list Component) : forall d,
  NoDup (dict_keys d) -> NoDup (dict_keys (collect sels d)).
Proof.
  induction sels as [|c sels IH]; intros d Hnd; [exact Hnd|].
  apply IH. apply NoDup_defaultdict_append. exact Hnd.
Qed.

Lemma fragments_of_kind_cons (kind : str) (c : Component) sels :
  fragments_of_kind kind (c :: sels) =
  if str_eqb (Keyword c) kind
  then ToString c :: fragments_of_kind kind sels
  else fragments_of_kind kind sels.
Proof.
  unfold fragments_of_kind. simpl.
  destruct (str_eqb (Keyword c) kind); reflexivity.
Qed.

Lemma dict_get_collect (sels : list Component) : forall d kind,
  dict_get (collect sels d) kind =
  match dict_get d kind, fragments_of_kind kind sels with
  | None, [] => None
  | None, f :: fs => Some (f :: fs)
  | Some vs, fs => Some (vs ++ fs)
  end.
Proof.
  induction sels as [|c sels IH]; intros d kind.
  - cbn [collect fold_left]. unfold fragments_of_kind. simpl.
    destruct (dict_get d kind); [rewrite app_nil_r|]; reflexivity.
  - change (collect (c :: sels) d)
      with (collect sels (defaultdict_append d (Keyword c) (ToString c))).
    rewrite IH, dict_get_defaultdict_append, fragments_of_kind_cons.
    destruct (str_eqb (Keyword c) kind) eqn:E.
    + apply str_eqb_eq in E. subst kind.
      destruct (dict_get d (Keyword c)); [rewrite <- app_assoc|]; reflexivity.
    + reflexivity.
Qed.

Lemma Keyword_cases (c : Component) :
  Keyword c = lit "field_selector" \/ Keyword c = lit "label_selector".
Proof. destruct c; simpl; auto. Qed.

Lemma fragments_of_other_kind (kind : str) (sels : list Component) :
  kind <> lit "field_selector" -> kind <> lit "label_selector" ->
  fragments_of_kind kind sels = [].
Proof.
  intros Hf Hl. induction sels as [|c sels IH]; [reflexivity|].
  rewrite fragments_of_kind_cons.
  destruct (str_eqb (Keyword c) kind) eqn:E; [|exact IH].
  apply str_eqb_eq in E. destruct (Keyword_cases c); congruence.
Qed.

(** The entry of a kind in the keyword map. *)
Lemma dict_get_ToKeywords (sels : list Component) (kind : str) :
  dict_get (ToKeywords {| selectors := sels |}) kind =
  match fragments_of_kind kind sels with
  | [] => None
  | f :: fs => Some (join (lit ",") (f :: fs))
  end.
Proof.
  unfold ToKeywords. cbn [selectors]. rewrite dict_get_map, dict_get_collect.
  cbn [dict_get]. destruct (fragments_of_kind kind sels); reflexivity.
Qed.

(** ** The keyword map *)

(** C5: for each kind the keyword map holds the fragments of the
    components of that kind, in their order, joined with [','], when
    there is such a component, and no entry otherwise; no key occurs
    twice and the keys are among the two kinds; the map of the empty
    selector is empty. *)
Theorem ToKeywords_groups :
  forall sels,
    let keywords := ToKeywords {| selectors := sels |} in
    (forall kind,
       dict_get keywords kind =
       match fragments_of_kind kind sels with
       | [] => None
       | f :: fs => Some (join (lit ",") (f :: fs))
       end) /\
    NoDup (dict_keys keywords) /\
    (forall kind,
       In kind (dict_keys keywords) <-> fragments_of_kind kind sels <> []) /\
    (forall kind,
       In kind (dict_keys keywords) ->
       kind = lit "field_selector" \/ kind = lit "label_selector") /\
    ToKeywords {| selectors := [] |} = [].
Proof.
  intros sels keywords.
  assert (Hget : forall kind,
            dict_get keywords kind =
            match fragments_of_kind kind sels with
            | [] => None
            | f :: fs => Some (join (lit ",") (f :: fs))
            end) by (intros kind; apply dict_get_ToKeywords).
  assert (Hin : forall kind,
            In kind (dict_keys keywords) <-> fragments_of_kind kind sels <> []).
  { intros kind. specialize (Hget kind). split.
    - intros Hk E. rewrite E in Hget. apply dict_get_None in Hget. auto.
    - intros Hne. destruct (fragments_of_kind kind sels) as [|f fs];
        [congruence|]. apply dict_get_In in Hget. exact Hget. }
  split; [exact Hget|]. split; [|split; [exact Hin|split; [|reflexivity]]].
  - subst keywords. unfold ToKeywords. rewrite dict_keys_map.
    apply NoDup_collect. constructor.
  - intros kind Hk. apply Hin in Hk.
    destruct (list_eq_dec Z.eq_dec kind (lit "field_selector")) as [E|Ef];
      [left; exact E|].
    destruct (list_eq_dec Z.eq_dec kind (lit "label_selector")) as [E|El];
      [right; exact E|].
    exfalso. apply Hk. apply fragments_of_other_kind; assumption.
Qed.

(** C6: the fragment and the kind of each of the four components. The
    fragment of [Running] holds one comma, and stays one fragment of
    the keyword map. *)
Theorem component_rendering :
  forall n m k v,
    ToString (Name n) = lit "metadata.name=" ++ n /\
    ToString (Node m) = lit "spec.nodeName=" ++ m /\
    ToString Running = lit "status.phase!=Failed,status.phase!=Succeeded" /\
    ToString (Label k v) = k ++ lit "=" ++ v /\
    Keyword (Name n) = lit "field_selector" /\
    Keyword (Node m) = lit "field_selector" /\
    Keyword Running = lit "field_selector" /\
    Keyword (Label k v) = lit "label_selector" /\
    count_occ Z.eq_dec (ToString Running) comma = 1%nat /\
    fragments_of_kind (lit "field_selector") [Name n; Running; Node m]
    = [lit "metadata.name=" ++ n;
       lit "status.phase!=Failed,status.phase!=Succeeded";
       lit "spec.nodeName=" ++ m] /\
    ToKeywords {| selectors := [Name n; Running; Label k v] |}
    = [(lit "field_selector",
        lit "metadata.name=" ++ n ++ lit ","
          ++ lit "status.phase!=Failed,status.phase!=Succeeded");
       (lit "label_selector", k ++ lit "=" ++ v)].
Proof.
  intros n m k v. repeat split; reflexivity.
Qed.

(** ** Reading the keyword map back *)

Lemma split_nonempty (sep : char) (s : str) : split sep s <> [].
Proof.
  destruct s as [|c s]; simpl; [discriminate|].
  destruct (char_eqb c sep); [discriminate|].
  destruct (split sep s); discriminate.
Qed.

Lemma split_app (sep : char) (a b : str) :
  split sep (a ++ sep :: b) = split sep a ++ split sep b.
Proof.
  induction a as [|c a IH]; simpl.
  - unfold char_eqb. rewrite Z.eqb_refl. reflexivity.
  - destruct (char_eqb c sep); [rewrite IH; reflexivity|].
    rewrite IH. pose proof (split_nonempty sep a) as Hne.
    destruct (split sep a) as [|p ps]; [congruence | reflexivity].
Qed.

Lemma split_without_sep (sep : char) (s : str) :
  ~ In sep s -> split sep s = [s].
Proof.
  induction s as [|c s IH]; simpl; intros H; [reflexivity|].
  unfold char_eqb. destruct (c =? sep) eqn:E.
  - apply Z.eqb_eq in E. exfalso. apply H. left. exact E.
  - rewrite IH by tauto. reflexivity.
Qed.

Lemma split_join (sep : char) (fs : list str) :
  fs <> [] -> split sep (join [sep] fs) = flat_map (split sep) fs.
Proof.
  induction fs as [|f fs IH]; intros Hne; [congruence|].
  destruct fs as [|g fs].
  - simpl. rewrite app_nil_r. reflexivity.
  - change (join [sep] (f :: g :: fs)) with (f ++ sep :: join [sep] (g :: fs)).
    rewrite split_app, IH by discriminate. reflexivity.
Qed.

Lemma regroup_running_other (a : str) (rest : list str) :
  str_eqb a running_failed = false ->
  regroup_running (a :: rest) = a :: regroup_running rest.
Proof.
  intros H. destruct rest as [|b rest]; cbn [regroup_running]; [reflexivity|].
  rewrite H. reflexivity.
Qed.

Lemma regroup_running_pair (rest : list str) :
  regroup_running (running_failed :: running_succeeded :: rest)
  = ToString Running :: regroup_running rest.
Proof. reflexivity. Qed.

(** The pieces of the fragments of field components of which only
    [Running] holds a comma go back to the fragments. *)
Lemma regroup_field_fragments (cs : list Component) :
  (forall c, In c cs ->
     Keyword c = lit "field_selector" /\
     (c = Running \/ ~ In comma (ToString c))) ->
  regroup_running (flat_map (split comma) (map ToString cs))
  = map ToString cs.
Proof.
  induction cs as [|c cs IH]; intros H; [reflexivity|].
  assert (IH' : regroup_running (flat_map (split comma) (map ToString cs))
                = map ToString cs).
  { apply IH. intros c' Hc'. apply H. right. exact Hc'. }
  destruct (H c (or_introl eq_refl)) as [Hk [Hr|Hfree]].
  - subst c. cbn [map flat_map].
    change (split comma (ToString Running))
      with [running_failed; running_succeeded].
    cbn [app]. rewrite regroup_running_pair, IH'. reflexivity.
  - cbn [map flat_map]. rewrite (split_without_sep comma _ Hfree).
    cbn [app]. rewrite regroup_running_other, IH'; [reflexivity|].
    destruct c; try reflexivity; discriminate Hk.
Qed.

Lemma split_label_fragments (cs : list Component) :
  (forall c, In c cs ->
     Keyword c = lit "label_selector" /\
     (c = Running \/ ~ In comma (ToString c))) ->
  flat_map (split comma) (map ToString cs) = map ToString cs.
Proof.
  induction cs as [|c cs IH]; intros H; [reflexivity|].
  cbn [map flat_map]. rewrite IH by (intros c' Hc'; apply H; right; exact Hc').
  destruct (H c (or_introl eq_refl)) as [Hk [Hr|Hfree]].
  - subst c. discriminate Hk.
  - rewrite (split_without_sep comma _ Hfree). reflexivity.
Qed.

(** C7: when no fragment but that of [Running] holds a comma, reading
    back the string of a kind in the keyword map gives the fragments of
    the components of that kind, in their order. *)
Theorem ToKeywords_resplit :
  forall sels,
    (forall c, In c sels -> c = Running \/ ~ In comma (ToString c)) ->
    forall kind s,
      dict_get (ToKeywords {| selectors := sels |}) kind = Some s ->
      resplit kind s = fragments_of_kind kind sels.
Proof.
  intros sels Hfree kind s Hget.
  rewrite dict_get_ToKeywords in Hget.
  assert (Hsel : forall c,
            In c (filter (fun c => str_eqb (Keyword c) kind) sels) ->
            Keyword c = kind /\ (c = Running \/ ~ In comma (ToString c))).
  { intros c Hc. apply filter_In in Hc. destruct Hc as [Hc Hk].
    apply str_eqb_eq in Hk. split; [exact Hk | apply Hfree; exact Hc]. }
  destruct (fragments_of_kind kind sels) as [|f fs] eqn:Efs; [discriminate|].
  assert (Hs : s = join [comma] (f :: fs))
    by (change [comma] with (lit ","); congruence).
  subst s. clear Hget. rewrite <- Efs.
  unfold resplit. rewrite split_join by (rewrite Efs; discriminate).
  unfold fragments_of_kind in *.
  destruct (str_eqb kind (lit "field_selector")) eqn:Ef.
  - apply str_eqb_eq in Ef. subst kind. apply regroup_field_fragments.
    exact Hsel.
  - apply str_eqb_neq in Ef.
    destruct (list_eq_dec Z.eq_dec kind (lit "label_selector")) as [El|El].
    + subst kind. apply split_label_fragments. exact Hsel.
    + pose proof (fragments_of_other_kind kind sels Ef El) as Hnil.
      unfold fragments_of_kind in Hnil. rewrite Hnil in Efs. discriminate.
Qed.

Lemma ToKeywords_resplit_witness :
  resplit (lit "field_selector")
    (lit "metadata.name=foo,status.phase!=Failed,status.phase!=Succeeded,spec.nodeName=node-1")
  = [lit "metadata.name=foo";
     lit "status.phase!=Failed,status.phase!=Succeeded";
     lit "spec.nodeName=node-1"] /\
  resplit (lit "label_selector") (lit "app=web,tier=frontend")
  = [lit "app=web"; lit "tier=frontend"].
Proof.
  assert (Hfree : forall c, In c Demo.components ->
            c = Running \/ ~ In comma (ToString c)).
  { intros c Hc. unfold Demo.components in Hc. cbn [In] in Hc.
    destruct Hc as [<-|[<-|[<-|[<-|[<-|[]]]]]];
      [right | left; reflexivity | right | right | right];
      intros Hin; cbn in Hin;
      repeat (destruct Hin as [Hin|Hin]; [discriminate Hin|]); exact Hin. }
  split.
  - exact (ToKeywords_resplit Demo.components Hfree (lit "field_selector")
             _ eq_refl).
  - exact (ToKeywords_resplit Demo.components Hfree (lit "label_selector")
             _ eq_refl).
Defined.

(** ** [FromDict] *)

Lemma map_result_labels (d l : dict str) :
  (forall k v, In (k, v) l -> dict_get d k = Some v) ->
  map_result
    (fun k =>
       match dict_get d k with
       | Some v => Ok (Label k v)
       | None => Raise (KeyError k)
       end)
    (dict_keys l)
  = Ok (map (fun kv => Label (fst kv) (snd kv)) l).
Proof.
  induction l as [|[k v] l IH]; intros H; [reflexivity|].
  cbn [dict_keys map map_result fst snd].
  rewrite (H k v (or_introl eq_refl)). cbn [bind].
  change (map fst l) with (dict_keys l).
  rewrite IH by (intros k' v' Hin; apply H; right; exact Hin).
  reflexivity.
Qed.

Lemma FromDict_selectors (labels : dict str) :
  dict_wf labels ->
  FromDict labels
  = Ok {| selectors := map (fun kv => Label (fst kv) (snd kv)) labels |}.
Proof.
  intros Hwf. unfold FromDict. rewrite map_result_labels; [reflexivity|].
  intros k v Hin. apply dict_get_NoDup; assumption.
Qed.

Lemma collect_labels (l : dict str) : forall vs,
  collect (map (fun kv => Label (fst kv) (snd kv)) l)
    [(lit "label_selector", vs)]
  = [(lit "label_selector", vs ++ map label_fragment l)].
Proof.
  induction l as [|[k v] l IH]; intros vs.
  - cbn [map collect fold_left]. rewrite app_nil_r. reflexivity.
  - cbn [map]. unfold collect. cbn [fold_left]. fold (collect
      (map (fun kv => Label (fst kv) (snd kv)) l)).
    cbn [Keyword ToString defaultdict_append fst snd].
    rewrite str_eqb_refl. unfold collect in IH. rewrite IH, <- app_assoc.
    reflexivity.
Qed.

Lemma ToKeywords_labels (l : dict str) :
  ToKeywords {| selectors := map (fun kv => Label (fst kv) (snd kv)) l |} =
  match l with
  | [] => []
  | _ :: _ => [(lit "label_selector", join (lit ",") (map label_fragment l))]
  end.
Proof.
  destruct l as [|[k v] l]; [reflexivity|].
  unfold ToKeywords. cbn [selectors map]. unfold collect. cbn [fold_left].
  cbn [Keyword ToString defaultdict_append fst snd].
  pose proof (collect_labels l [k ++ lit "=" ++ v]) as H.
  unfold collect in H. rewrite H. reflexivity.
Qed.

(** C8, as worded, fails for the empty mapping: the keyword map of its
    selector has no [label_selector] entry at all. *)
Lemma FromDict_empty_counterexample :
  ~ (exists sel,
       FromDict [] = Ok sel /\
       dict_get (ToKeywords sel) (lit "label_selector")
       = Some (join (lit ",") (map label_fragment []))).
Proof.
  intros (sel & Hsel & Hget). cbn in Hsel. inversion Hsel; subst sel.
  discriminate Hget.
Qed.

(** C8 (amended): for a mapping, [FromDict] builds the selector of one
    [Label(k, mapping[k])] per entry, in the order of the mapping. The
    keyword map of that selector has no [field_selector] entry; for a
    mapping that is not empty its only entry is [label_selector], with
    the fragments [k=v] joined by [','] in that order, and for the empty
    mapping it is empty. *)
Theorem FromDict_labels :
  forall labels,
    dict_wf labels ->
    exists sel,
      FromDict labels = Ok sel /\
      selectors sel = map (fun kv => Label (fst kv) (snd kv)) labels /\
      dict_get (ToKeywords sel) (lit "field_selector") = None /\
      ToKeywords sel =
      match labels with
      | [] => []
      | _ :: _ =>
          [(lit "label_selector",
            join (lit ",") (map label_fragment labels))]
      end.
Proof.
  intros labels Hwf. eexists. split; [apply FromDict_selectors; exact Hwf|].
  split; [reflexivity|]. rewrite ToKeywords_labels.
  destruct labels; split; reflexivity.
Qed.

Lemma FromDict_labels_witness :
  exists sel,
    FromDict Demo.labels = Ok sel /\
    ToKeywords sel = [(lit "label_selector", lit "app=web,tier=frontend")].
Proof.
  assert (Hwf : dict_wf Demo.labels).
  { unfold dict_wf, Demo.labels. cbn [dict_keys map fst].
    constructor.
    - intros [E|[]]. discriminate E.
    - constructor; [intros [] | constructor]. }
  destruct (FromDict_labels Demo.labels Hwf) as (sel & Hsel & _ & _ & Hkw).
  exists sel. split; [exact Hsel | exact Hkw].
Defined.

(** ** More on the tag check and the generated names *)

(** X1: [REGEX_TAG_VALUE] accepts a name exactly when it is 1 to 255
    characters other than the newline, possibly followed by one newline;
    so an accepted name has at most 256 characters, and a name without
    a newline is accepted exactly when it has 1 to 255 characters. *)
Theorem REGEX_TAG_VALUE_accepts :
  forall s,
    (REGEX_TAG_VALUE_match s = true <-> tag_value_ok s) /\
    (REGEX_TAG_VALUE_match s = true -> 1 <= len s <= 256) /\
    (~ In newline s ->
       (REGEX_TAG_VALUE_match s = true <-> 1 <= len s <= 255)).
Proof.
  intros s. split; [apply REGEX_TAG_VALUE_match_spec|]. split.
  - intros H. apply REGEX_TAG_VALUE_match_spec in H.
    destruct H as (body & tail & -> & [->| ->] & _ & Hlen);
      unfold len; rewrite length_app; simpl length; lia.
  - intros Hn. rewrite REGEX_TAG_VALUE_match_spec.
    rewrite (tag_value_ok_no_newline s Hn). lia.
Qed.

Lemma REGEX_TAG_VALUE_accepts_witness :
  REGEX_TAG_VALUE_match (lit "evidence-disk") = true.
Proof.
  destruct (REGEX_TAG_VALUE_accepts (lit "evidence-disk")) as (_ & _ & H).
  apply H.
  - intros Hin. cbn in Hin.
    repeat (destruct Hin as [Hin|Hin]; [discriminate Hin|]). exact Hin.
  - vm_compute. split; discriminate.
Defined.

Lemma In_firstn_In {A} (x : A) (n : nat) (l : list A) :
  In x (firstn n l) -> In x l.
Proof.
  intros H. rewrite <- (firstn_skipn n l). apply in_or_app. left. exact H.
Qed.

Lemma lower_hex_no_newline (crc : str) :
  Forall is_lower_hex crc -> ~ In newline crc.
Proof.
  intros H Hin. rewrite Forall_forall in H. specialize (H _ Hin).
  unfold is_lower_hex, newline in H. lia.
Qed.

Lemma suffix_no_newline (crc : str) :
  Forall is_lower_hex crc -> ~ In newline (lit "-" ++ crc ++ lit "-copy").
Proof.
  intros H Hin. apply in_app_or in Hin. destruct Hin as [Hin|Hin].
  - cbn in Hin. destruct Hin as [E|[]]. discriminate E.
  - apply in_app_or in Hin. destruct Hin as [Hin|Hin].
    + exact (lower_hex_no_newline crc H Hin).
    + cbn in Hin.
      repeat (destruct Hin as [Hin|Hin]; [discriminate Hin|]). exact Hin.
Qed.

(** A generated name passes the tag check exactly when the part that
    comes from the prefix and the display name holds no newline. *)
Lemma generated_name_check (seg base crc : str) :
  (length seg <= 241)%nat -> length crc = 8%nat ->
  (length base <= 241 - length seg)%nat -> Forall is_lower_hex crc ->
  (REGEX_TAG_VALUE_match (seg ++ base ++ lit "-" ++ crc ++ lit "-copy") = true
   <-> ~ In newline (seg ++ base)).
Proof.
  intros Hseg Hcrc Hbase Hhex.
  pose proof (generated_length seg base crc Hseg Hcrc Hbase) as Hlen.
  rewrite REGEX_TAG_VALUE_match_spec. split.
  - intros (body & tail & Heq & [->| ->] & Hb & _) Hin.
    + rewrite app_nil_r in Heq. subst body. apply Hb.
      rewrite app_assoc. apply in_or_app. left. exact Hin.
    + change (lit "-copy") with (lit "-cop" ++ [121]) in Heq.
      rewrite !app_assoc in Heq. apply app_inj_tail in Heq.
      destruct Heq as [_ E]. discriminate E.
  - intros Hfree. apply tag_value_ok_no_newline.
    + rewrite app_assoc. intros Hin. apply in_app_or in Hin.
      destruct Hin as [Hin|Hin]; [exact (Hfree Hin)|].
      exact (suffix_no_newline crc Hhex Hin).
    + unfold len. lia.
Qed.

Lemma GenerateVolumeName_check_aux :
  forall identity sid vol nm prefix s,
    _GenerateVolumeName identity
      {| snapshot_id := sid; volume := vol; name := Some nm |} prefix = Ok s ->
    (REGEX_TAG_VALUE_match s = true <->
     ~ In newline
         (prefix_segment prefix
            ++ firstn (241 - length (prefix_segment prefix)) nm)).
Proof.
  intros identity sid vol nm prefix s H.
  rewrite GenerateVolumeName_eq in H.
  destruct (encode _) as [data|]; [|discriminate H].
  injection H as <-.
  apply generated_name_check.
  - apply prefix_segment_length.
  - apply checksum_of_length.
  - rewrite length_firstn. lia.
  - apply checksum_of_lower.
Qed.

(** X2: a name that [_GenerateVolumeName] returns matches
    [REGEX_TAG_VALUE] exactly when the characters it keeps of the prefix
    and of the display name hold no newline. *)
Theorem GenerateVolumeName_passes_check :
  forall identity sid vol nm prefix s,
    _GenerateVolumeName identity
      {| snapshot_id := sid; volume := vol; name := Some nm |} prefix = Ok s ->
    (REGEX_TAG_VALUE_match s = true <->
     ~ In newline
         (prefix_segment prefix
            ++ firstn (241 - length (prefix_segment prefix)) nm)).
Proof.
  intros identity sid vol nm prefix s H.
  exact (GenerateVolumeName_check_aux identity sid vol nm prefix s H).
Qed.

Lemma GenerateVolumeName_passes_check_witness :
  exists s,
    _GenerateVolumeName Demo.identity (Demo.snapshot Demo.two_lines)
      (Some (lit "evidence")) = Ok s /\
    REGEX_TAG_VALUE_match s = false.
Proof.
  eexists. split; [vm_compute; reflexivity|].
  pose proof (GenerateVolumeName_passes_check Demo.identity
    (lit "snap-0456") Demo.source_volume Demo.two_lines
    (Some (lit "evidence")) _ eq_refl) as [Hfwd _].
  destruct (REGEX_TAG_VALUE_match _) eqn:E; [|reflexivity].
  exfalso. apply (Hfwd eq_refl). vm_compute. tauto.
Defined.

Lemma Ok_inj {A} (a b : A) : Ok a = Ok b -> a = b.
Proof. intros H. injection H as H. exact H. Qed.

Lemma skipn_app_exact {A} (a b : list A) (n : nat) :
  n = length a -> skipn n (a ++ b) = b.
Proof.
  intros ->. rewrite skipn_app, skipn_all, Nat.sub_diag. reflexivity.
Qed.

(** X3: the checksum can be read off a generated name: it is the 8
    characters that end 5 characters before the end of the name. Two
    names with different checksums are therefore different, whatever
    the display names and the prefixes. *)
Theorem GenerateVolumeName_checksum_position :
  forall identity sid vol nm prefix data s,
    encode (dict_get_default identity (lit "UserId") [] ++ volume_id vol)
      = Some data ->
    _GenerateVolumeName identity
      {| snapshot_id := sid; volume := vol; name := Some nm |} prefix = Ok s ->
    firstn 8 (skipn (length s - 13) s) = checksum_of data /\
    skipn (length s - 5) s = lit "-copy" /\
    nth (length s - 14) s 0 = 45.
Proof.
  intros identity sid vol nm prefix data s Henc H.
  rewrite GenerateVolumeName_eq, Henc in H. apply Ok_inj in H. subst s.
  set (seg := prefix_segment prefix).
  set (base := firstn (241 - length seg) nm).
  set (crc := checksum_of data).
  assert (Hcrc : length crc = 8%nat) by apply checksum_of_length.
  assert (Hlen : length (seg ++ base ++ lit "-" ++ crc ++ lit "-copy")
                 = (length seg + length base + 14)%nat).
  { rewrite !length_app, Hcrc. simpl length. lia. }
  rewrite Hlen. split; [|split].
  - replace (seg ++ base ++ lit "-" ++ crc ++ lit "-copy")
      with ((seg ++ base ++ lit "-") ++ crc ++ lit "-copy")
      by (rewrite <- !app_assoc; reflexivity).
    rewrite skipn_app_exact
      by (rewrite !length_app; simpl length; lia).
    rewrite firstn_app, Hcrc, Nat.sub_diag, firstn_O, app_nil_r.
    apply firstn_all2. lia.
  - replace (seg ++ base ++ lit "-" ++ crc ++ lit "-copy")
      with ((seg ++ base ++ lit "-" ++ crc) ++ lit "-copy")
      by (rewrite <- !app_assoc; reflexivity).
    apply skipn_app_exact. rewrite !length_app, Hcrc. simpl length. lia.
  - replace (seg ++ base ++ lit "-" ++ crc ++ lit "-copy")
      with ((seg ++ base) ++ lit "-" ++ crc ++ lit "-copy")
      by (rewrite <- !app_assoc; reflexivity).
    rewrite app_nth2 by (rewrite length_app; lia).
    rewrite length_app.
    replace (length seg + length base + 14 - 14 - (length seg + length base))%nat
      with 0%nat by lia.
    reflexivity.
Qed.

Lemma GenerateVolumeName_checksum_position_witness :
  exists s,
    _GenerateVolumeName Demo.identity (Demo.snapshot (lit "disk"))
      (Some (lit "evidence")) = Ok s /\
    firstn 8 (skipn (length s - 13) s) = lit "3174b803".
Proof.
  eexists. split; [vm_compute; reflexivity|].
  exact (proj1 (GenerateVolumeName_checksum_position Demo.identity
                  (lit "snap-0456") Demo.source_volume (lit "disk")
                  (Some (lit "evidence")) Demo.identity_bytes _
                  eq_refl eq_refl)).
Defined.

(** X4: nothing is cut when the prefix, its separator and the display
    name take at most 241 characters together: the name is then
    [prefix-name-checksum-copy], or [name-checksum-copy] without a
    prefix. *)
Theorem GenerateVolumeName_untruncated :
  forall identity sid vol nm prefix data,
    encode (dict_get_default identity (lit "UserId") [] ++ volume_id vol)
      = Some data ->
    (match prefix with
     | Some (c :: p) => length (c :: p) + 1 + length nm
     | _ => length nm
     end <= 241)%nat ->
    _GenerateVolumeName identity
      {| snapshot_id := sid; volume := vol; name := Some nm |} prefix =
    Ok (match prefix with
        | Some (c :: p) => (c :: p) ++ lit "-"
        | _ => []
        end ++ nm ++ lit "-" ++ checksum_of data ++ lit "-copy").
Proof.
  intros identity sid vol nm prefix data Henc Hlen.
  rewrite GenerateVolumeName_eq, Henc.
  destruct prefix as [[|c p]|]; cbn [prefix_segment].
  - cbn [length app]. rewrite firstn_all2 by lia. reflexivity.
  - assert (Hq : length ((c :: p) ++ lit "-") = (length (c :: p) + 1)%nat)
      by (rewrite length_app; reflexivity).
    rewrite (firstn_all2 (n := 241) ((c :: p) ++ lit "-")) by lia.
    rewrite (firstn_all2 nm) by lia. reflexivity.
  - cbn [length app]. rewrite firstn_all2 by lia. reflexivity.
Qed.

Lemma GenerateVolumeName_untruncated_witness :
  _GenerateVolumeName Demo.identity (Demo.snapshot (lit "disk"))
    (Some (lit "evidence"))
  = Ok (lit "evidence-disk-" ++ checksum_of Demo.identity_bytes
          ++ lit "-copy").
Proof.
  apply (GenerateVolumeName_untruncated Demo.identity (lit "snap-0456")
           Demo.source_volume (lit "disk") (Some (lit "evidence"))
           Demo.identity_bytes eq_refl).
  cbn. lia.
Defined.

(** ** More on [CreateVolumeFromSnapshot] *)

(** X5: when neither the display name of the snapshot nor the prefix
    holds a newline, a generated name always passes the tag check:
    [CreateVolumeFromSnapshot], called without a volume name, goes on to
    create the volume under the generated name. *)
Theorem CreateVolumeFromSnapshot_generated_accepted :
  forall World get_caller_identity create_volume wait_volume_available
         self sid vol nm prefix (w : World) s,
    let snapshot := {| snapshot_id := sid; volume := vol; name := Some nm |} in
    _GenerateVolumeName (get_caller_identity w) snapshot prefix = Ok s ->
    ~ In newline nm ->
    (forall p, prefix = Some p -> ~ In newline p) ->
    CreateVolumeFromSnapshot World get_caller_identity create_volume
      wait_volume_available self snapshot None prefix w
    = create_tagged_volume World create_volume wait_volume_available
        self snapshot s w.
Proof.
  intros World gci cv wva self sid vol nm prefix w s snapshot Hgen Hnm Hp.
  pose proof (GenerateVolumeName_check_aux (gci w) sid vol nm prefix s Hgen)
    as Hcheck.
  unfold CreateVolumeFromSnapshot. fold snapshot. rewrite Hgen.
  assert (Hok : REGEX_TAG_VALUE_match s = true).
  { apply Hcheck. intros Hin. apply in_app_or in Hin.
    destruct Hin as [Hin|Hin].
    - destruct prefix as [[|c p]|]; cbn [prefix_segment] in Hin;
        try contradiction.
      apply In_firstn_In in Hin. apply in_app_or in Hin.
      destruct Hin as [Hin|Hin]; [exact (Hp (c :: p) eq_refl Hin)|].
      cbn in Hin. destruct Hin as [E|[]]. discriminate E.
    - apply In_firstn_In in Hin. exact (Hnm Hin). }
  rewrite Hok. reflexivity.
Qed.

Lemma no_newline_evidence : ~ In newline (lit "evidence").
Proof.
  intros Hin. cbn in Hin.
  repeat (destruct Hin as [Hin|Hin]; [discriminate Hin|]). exact Hin.
Qed.

Lemma CreateVolumeFromSnapshot_generated_accepted_witness :
  exists v w',
    CreateVolumeFromSnapshot Demo.World Demo.get_caller_identity
      Demo.create_volume Demo.wait_volume_available Demo.account
      (Demo.snapshot (lit "disk")) None (Some (lit "evidence")) []
    = (Ok v, w') /\
    volume_name v = Some (lit "evidence-disk-3174b803-copy").
Proof.
  do 2 eexists. split.
  - unfold Demo.snapshot.
    rewrite (CreateVolumeFromSnapshot_generated_accepted Demo.World
      Demo.get_caller_identity Demo.create_volume Demo.wait_volume_available
      Demo.account (lit "snap-0456") Demo.source_volume (lit "disk")
      (Some (lit "evidence")) [] (lit "evidence-disk-3174b803-copy")).
    + reflexivity.
    + vm_compute. reflexivity.
    + intros Hin. cbn in Hin.
      repeat (destruct Hin as [Hin|Hin]; [discriminate Hin|]). exact Hin.
    + intros p E. injection E as <-. exact no_newline_evidence.
  - reflexivity.
Defined.

Lemma CreateVolumeFromSnapshot_inv :
  forall World get_caller_identity create_volume wait_volume_available
         self snapshot volume_name volume_name_prefix (w w' : World) v,
    CreateVolumeFromSnapshot World get_caller_identity create_volume
      wait_volume_available self snapshot volume_name volume_name_prefix w
    = (Ok v, w') ->
    exists composed response w1,
      composed_name (get_caller_identity w) snapshot volume_name
        volume_name_prefix = Ok composed /\
      tag_value_ok composed /\
      create_volume (availability_zone snapshot) (snapshot_id snapshot)
        [{| ResourceType := lit "volume";
            Tags := [[(lit "Key", lit "Name"); (lit "Value", composed)]] |}]
        w = (Ok response, w1) /\
      wait_volume_available [VolumeId response] w1 = (Ok tt, w') /\
      v = {| volume_id := VolumeId response;
             volume_account := self;
             volume_region := default_region self;
             volume_availability_zone := AvailabilityZone response;
             Aws.volume_name := Some composed |}.
Proof.
  intros World gci cv wva self snapshot volume_name prefix w w' v H.
  unfold CreateVolumeFromSnapshot in H.
  change (match volume_name with
          | Some (c :: n) => Ok (c :: n)
          | _ => _GenerateVolumeName (gci w) snapshot prefix
          end)
    with (composed_name (gci w) snapshot volume_name prefix) in H.
  destruct (composed_name (gci w) snapshot volume_name prefix)
    as [composed|e]; [|discriminate H].
  destruct (REGEX_TAG_VALUE_match composed) eqn:Hre; cbn [negb] in H;
    [|discriminate H].
  unfold create_tagged_volume, GetTagForResourceType in H.
  destruct (cv _ _ _ w) as [[response|e] w1] eqn:Hcv.
  - destruct (wva _ w1) as [[[]|e] w2] eqn:Hw.
    + injection H as <- <-. exists composed, response, w1.
      repeat split; try reflexivity; try assumption.
      apply REGEX_TAG_VALUE_match_spec. exact Hre.
    + exfalso. destruct e; try discriminate H.
      destruct (name snapshot); discriminate H.
  - exfalso. destruct e; try discriminate H.
    destruct (name snapshot); discriminate H.
Qed.

(** X6: a volume that [CreateVolumeFromSnapshot] returns carries the
    composed name, which matches [REGEX_TAG_VALUE] and was sent to
    [create_volume] as the [Name] tag of a [volume] resource, together
    with the zone and the id of the snapshot; its id and zone are those
    of the response, and its region is the default region of the
    account. *)
Theorem CreateVolumeFromSnapshot_returns :
  forall World get_caller_identity create_volume wait_volume_available
         self snapshot volume_name volume_name_prefix (w w' : World) v,
    CreateVolumeFromSnapshot World get_caller_identity create_volume
      wait_volume_available self snapshot volume_name volume_name_prefix w
    = (Ok v, w') ->
    exists composed response w1,
      composed_name (get_caller_identity w) snapshot volume_name
        volume_name_prefix = Ok composed /\
      tag_value_ok composed /\
      create_volume (availability_zone snapshot) (snapshot_id snapshot)
        [{| ResourceType := lit "volume";
            Tags := [[(lit "Key", lit "Name"); (lit "Value", composed)]] |}]
        w = (Ok response, w1) /\
      wait_volume_available [VolumeId response] w1 = (Ok tt, w') /\
      v = {| volume_id := VolumeId response;
             volume_account := self;
             volume_region := default_region self;
             volume_availability_zone := AvailabilityZone response;
             Aws.volume_name := Some composed |}.
Proof.
  intros World gci cv wva self snapshot volume_name prefix w w' v H.
  exact (CreateVolumeFromSnapshot_inv World gci cv wva self snapshot
           volume_name prefix w w' v H).
Qed.

Lemma CreateVolumeFromSnapshot_returns_witness :
  exists composed,
    composed_name (Demo.get_caller_identity []) (Demo.snapshot (lit "disk"))
      (Some (lit "my-copy")) None = Ok composed /\
    tag_value_ok composed.
Proof.
  destruct (CreateVolumeFromSnapshot_returns Demo.World
              Demo.get_caller_identity Demo.create_volume
              Demo.wait_volume_available Demo.account
              (Demo.snapshot (lit "disk")) (Some (lit "my-copy")) None
              [] _ _ eq_refl)
    as (composed & response & w1 & Hc & Hok & _).
  exists composed. split; [exact Hc | exact Hok].
Defined.

(** ** More on the lookups of volumes *)

Lemma count_by_name_fold (volumes : dict VolumeInfo) (wanted : str) :
  forall (l : dict VolumeInfo) (a : option str) (c : Z),
    (forall k info, In (k, info) l -> dict_get volumes k = Some info) ->
    fold_left
      (fun (st : option str * Z) (key : str) =>
         match dict_get volumes key with
         | Some info =>
             match dict_get info (lit "name") with
             | Some n => if str_eqb n wanted
                         then (Some key, snd st + 1) else st
             | None => st
             end
         | None => st
         end)
      (dict_keys l) (a, c)
    = (match rev (filter (named wanted) l) with
       | [] => a
       | e :: _ => Some (fst e)
       end,
       c + Z.of_nat (length (filter (named wanted) l))).
Proof.
  induction l as [|[k info] l IH]; intros a c Hl.
  - cbn. f_equal. lia.
  - cbn [dict_keys map fold_left fst].
    rewrite (Hl k info (or_introl eq_refl)).
    change (map fst l) with (dict_keys l).
    assert (Hl' : forall k' info', In (k', info') l ->
                    dict_get volumes k' = Some info')
      by (intros k' info' Hin; apply Hl; right; exact Hin).
    assert (En : named wanted (k, info)
                 = match dict_get info (lit "name") with
                   | Some n => str_eqb n wanted
                   | None => false
                   end) by reflexivity.
    cbn [filter]. rewrite En. clear En.
    destruct (dict_get info (lit "name")) as [n|]; [|apply IH; exact Hl'].
    destruct (str_eqb n wanted); [|apply IH; exact Hl'].
    cbn [snd]. rewrite IH by exact Hl'. cbn [rev length].
    destruct (rev (filter (named wanted) l)) as [|e r]; cbn [app fst];
      f_equal; lia.
Qed.

(** The loop of [__GetVolumeByName] on a dictionary: the key of the
    last entry with the name, and the number of such entries. *)
Lemma count_by_name_spec (volumes : dict VolumeInfo) (wanted : str) :
  dict_wf volumes ->
  count_by_name volumes wanted
  = (match rev (filter (named wanted) volumes) with
     | [] => None
     | e :: _ => Some (fst e)
     end,
     Z.of_nat (length (filter (named wanted) volumes))).
Proof.
  intros Hwf. unfold count_by_name.
  rewrite (count_by_name_fold volumes wanted volumes None 0); [reflexivity|].
  intros k info Hin. apply dict_get_NoDup; assumption.
Qed.

(** X7: on the listing that [ListVolumes] returns, [__GetVolumeByName]
    raises "not found" when no entry carries the name, raises "multiple
    volumes" when two or more do, and with exactly one such entry
    returns the volume of its key, with the zone of the entry (or raises
    [KeyError] when the entry has no zone). *)
Theorem GetVolumeByName_outcomes :
  forall World ListVolumes self volume_name region (w w1 : World) volumes,
    ListVolumes region w = (Ok volumes, w1) ->
    dict_wf volumes ->
    __GetVolumeByName World ListVolumes self volume_name region w =
    (match filter (named volume_name) volumes with
     | [] => Raise (volume_not_found volume_name)
     | [(volume_id, info)] =>
         match dict_get info (lit "zone") with
         | None => Raise (KeyError (lit "zone"))
         | Some zone =>
             Ok {| Aws.volume_id := volume_id;
                   volume_account := self;
                   volume_region := region_or_default self region;
                   volume_availability_zone := zone;
                   Aws.volume_name := Some volume_name |}
         end
     | _ :: _ :: _ =>
         Raise (RuntimeError (Msg
           (lit "Multiple volumes with tag name " ++ volume_name
              ++ lit " were found in the AWS account. Please look-up the volume by its unique AWS volume-ID instead")))
     end, w1).
Proof.
  intros World ListVolumes self volume_name region w w1 volumes HL Hwf.
  unfold __GetVolumeByName. rewrite HL, (count_by_name_spec _ _ Hwf).
  destruct (filter (named volume_name) volumes) as [|[k info] [|e2 rest]]
    eqn:Ef.
  - reflexivity.
  - cbn [rev app length fst]. change (Z.of_nat 1 =? 0) with false.
    change (Z.of_nat 1 >? 1) with false. cbv iota.
    assert (Hin : In (k, info) volumes).
    { assert (H : In (k, info) (filter (named volume_name) volumes))
        by (rewrite Ef; left; reflexivity).
      apply filter_In in H. exact (proj1 H). }
    rewrite (dict_get_NoDup volumes k info Hwf Hin).
    destruct (dict_get info (lit "zone")); reflexivity.
  - cbn [length]. 
    destruct (Z.of_nat (S (S (length rest))) =? 0) eqn:E0;
      [apply Z.eqb_eq in E0; lia|].
    destruct (Z.of_nat (S (S (length rest))) >? 1) eqn:E1;
      [reflexivity|].
    exfalso. destruct (Z.gtb_spec (Z.of_nat (S (S (length rest)))) 1);
      [discriminate E1 | lia].
Qed.

Lemma GetVolumeByName_outcomes_witness :
  exists v,
    __GetVolumeByName Demo.World Demo.ListVolumes Demo.account (lit "data")
      None [] = (Ok v, []) /\ volume_id v = lit "vol-0123".
Proof.
  assert (Hwf : dict_wf Demo.listing).
  { unfold dict_wf, Demo.listing. cbn [dict_keys map fst].
    constructor.
    - intros [E|[]]. discriminate E.
    - constructor; [intros [] | constructor]. }
  eexists. split.
  - exact (GetVolumeByName_outcomes Demo.World Demo.ListVolumes Demo.account
             (lit "data") None [] [] Demo.listing eq_refl Hwf).
  - reflexivity.
Defined.

Lemma count_by_name_key (volumes : dict VolumeInfo) (wanted : str) :
  forall k c,
    count_by_name volumes wanted = (Some k, c) ->
    exists info,
      dict_get volumes k = Some info /\
      dict_get info (lit "name") = Some wanted.
Proof.
  unfold count_by_name.
  assert (H : forall (l : list str) (st : option str * Z),
    (forall k, fst st = Some k ->
       exists info, dict_get volumes k = Some info /\
                    dict_get info (lit "name") = Some wanted) ->
    forall k, fst (fold_left
      (fun (st : option str * Z) (key : str) =>
         match dict_get volumes key with
         | Some info =>
             match dict_get info (lit "name") with
             | Some n => if str_eqb n wanted
                         then (Some key, snd st + 1) else st
             | None => st
             end
         | None => st
         end) l st) = Some k ->
       exists info, dict_get volumes k = Some info /\
                    dict_get info (lit "name") = Some wanted).
  { induction l as [|key l IH]; intros st Hst; [exact Hst|].
    cbn [fold_left]. apply IH.
    destruct (dict_get volumes key) as [info|] eqn:Ek; [|exact Hst].
    destruct (dict_get info (lit "name")) as [n|] eqn:En; [|exact Hst].
    destruct (str_eqb n wanted) eqn:E; [|exact Hst].
    apply str_eqb_eq in E. subst n. cbn [fst]. intros k Hk.
    injection Hk as <-. exists info. split; assumption. }
  intros k c Hc. apply (H (dict_keys volumes) (None, 0)).
  - cbn [fst]. intros k' Hk'. discriminate Hk'.
  - rewrite Hc. reflexivity.
Qed.

Lemma GetVolumeById_returns World ListVolumes self id region (w w1 : World) v :
  __GetVolumeById World ListVolumes self id region w = (Ok v, w1) ->
  exists volumes info,
    ListVolumes region w = (Ok volumes, w1) /\
    dict_get volumes id = Some info /\
    dict_get info (lit "zone") = Some (volume_availability_zone v) /\
    volume_region v = region_or_default self region /\
    volume_id v = id /\ volume_name v = None.
Proof.
  unfold __GetVolumeById. intros H.
  destruct (ListVolumes region w) as [[volumes|e] w'] eqn:HL;
    [|discriminate H].
  destruct (dict_get volumes id) as [[|x info]|] eqn:Hid; try discriminate H.
  destruct (dict_get (x :: info) (lit "zone")) as [zone|] eqn:Hz;
    [|discriminate H].
  injection H as <- <-. exists volumes, (x :: info).
  repeat split; assumption.
Qed.

Lemma GetVolumeByName_returns World ListVolumes self wanted region
    (w w1 : World) v :
  __GetVolumeByName World ListVolumes self wanted region w = (Ok v, w1) ->
  exists volumes info,
    ListVolumes region w = (Ok volumes, w1) /\
    dict_get volumes (volume_id v) = Some info /\
    dict_get info (lit "zone") = Some (volume_availability_zone v) /\
    volume_region v = region_or_default self region /\
    dict_get info (lit "name") = Some wanted /\
    volume_name v = Some wanted.
Proof.
  unfold __GetVolumeByName. intros H.
  destruct (ListVolumes region w) as [[volumes|e] w'] eqn:HL;
    [|discriminate H].
  destruct (count_by_name volumes wanted) as [found count] eqn:Hc.
  destruct (count =? 0); [discriminate H|].
  destruct (count >? 1); [discriminate H|].
  destruct found as [k|]; [|discriminate H].
  destruct (count_by_name_key volumes wanted k count Hc)
    as (info & Hk & Hn).
  rewrite Hk in H.
  destruct (dict_get info (lit "zone")) as [zone|] eqn:Hz; [|discriminate H].
  injection H as <- <-. exists volumes, info. repeat split; assumption.
Qed.

(** X8: a volume that [GetVolume] returns is an entry of the listing of
    the last [ListVolumes] call, with the zone of that entry and the
    region asked for (or the default one). Either its id is the string
    asked for, and it carries no name; or the entry carries the string
    asked for as its name, and so does the volume. *)
Theorem GetVolume_returns :
  forall World ListVolumes self wanted region (w w' : World) v,
    GetVolume World ListVolumes self wanted region w = (Ok v, w') ->
    exists w0 volumes info,
      ListVolumes region w0 = (Ok volumes, w') /\
      dict_get volumes (volume_id v) = Some info /\
      dict_get info (lit "zone") = Some (volume_availability_zone v) /\
      volume_region v = region_or_default self region /\
      ((volume_id v = wanted /\ volume_name v = None) \/
       (dict_get info (lit "name") = Some wanted /\
        volume_name v = Some wanted)).
Proof.
  intros World ListVolumes self wanted region w w' v H.
  unfold GetVolume in H.
  destruct (__GetVolumeById World ListVolumes self wanted region w)
    as [r1 w1] eqn:H1.
  destruct r1 as [v1|e1].
  - cbn [try_except_RuntimeError] in H. injection H as <- <-.
    destruct (GetVolumeById_returns _ _ _ _ _ _ _ _ H1)
      as (volumes & info & HL & Hid & Hz & Hr & Hv & Hn).
    exists w, volumes, info. rewrite Hv. repeat split; auto.
  - destruct e1; cbn [try_except_RuntimeError] in H; try discriminate H.
    destruct (__GetVolumeByName World ListVolumes self wanted region w1)
      as [r2 w2] eqn:H2.
    destruct r2 as [v2|e2].
    + cbn [try_except_RuntimeError] in H. injection H as <- <-.
      destruct (GetVolumeByName_returns _ _ _ _ _ _ _ _ H2)
        as (volumes & info & HL & Hid & Hz & Hr & Hnm & Hn).
      exists w1, volumes, info. repeat split; auto.
    + destruct e2; cbn [try_except_RuntimeError] in H; discriminate H.
Qed.

Lemma GetVolume_returns_witness :
  exists info,
    dict_get Demo.listing (lit "vol-0123") = Some info /\
    dict_get info (lit "name") = Some (lit "data").
Proof.
  destruct (GetVolume_returns Demo.World Demo.ListVolumes Demo.account
              (lit "data") None [] [] _ eq_refl)
    as (w0 & volumes & info & HL & Hid & _ & _ & [[Hv _]|[Hn _]]).
  - discriminate Hv.
  - injection HL as <-. exists info. split; [exact Hid | exact Hn].
Defined.

Lemma GetVolumeByName_eq_not_found World ListVolumes self wanted region
    (w w1 : World) volumes :
  ListVolumes region w = (Ok volumes, w1) ->
  dict_wf volumes ->
  filter (named wanted) volumes = [] ->
  __GetVolumeByName World ListVolumes self wanted region w
  = (Raise (volume_not_found wanted), w1).
Proof.
  intros HL Hwf Hnone. unfold __GetVolumeByName.
  rewrite HL, (count_by_name_spec _ _ Hwf), Hnone. reflexivity.
Qed.

Lemma GetVolume_not_found_aux :
  forall World ListVolumes self wanted region (w w1 w2 : World)
         (volumes1 volumes2 : dict VolumeInfo),
    ListVolumes region w = (Ok volumes1, w1) ->
    ListVolumes region w1 = (Ok volumes2, w2) ->
    dict_wf volumes2 ->
    (dict_get volumes1 wanted = None \/ dict_get volumes1 wanted = Some []) ->
    filter (named wanted) volumes2 = [] ->
    GetVolume World ListVolumes self wanted region w
    = (Raise (RuntimeError (Exc (volume_not_found wanted))), w2).
Proof.
  intros World ListVolumes self wanted region w w1 w2 volumes1 volumes2
    HL1 HL2 Hwf Hid Hname.
  unfold GetVolume.
  assert (H1 : __GetVolumeById World ListVolumes self wanted region w
               = (Raise (volume_not_found wanted), w1)).
  { unfold __GetVolumeById. rewrite HL1.
    change (@dict_get VolumeInfo volumes1 wanted = None \/
            @dict_get VolumeInfo volumes1 wanted = Some []) in Hid.
    destruct Hid as [E | E]; rewrite E; reflexivity. }
  rewrite H1. cbn [volume_not_found try_except_RuntimeError].
  rewrite (GetVolumeByName_eq_not_found World ListVolumes self wanted region
             w1 w2 volumes2 HL2 Hwf Hname).
  reflexivity.
Qed.

(** X9: when the string asked for is no key of the first listing (or
    the key of an empty entry) and the name of no entry of the second
    listing, [GetVolume] raises a [RuntimeError] built from the "not
    found" error of the lookup by name, after two [ListVolumes] calls. *)
Theorem GetVolume_not_found :
  forall World ListVolumes self wanted region (w w1 w2 : World)
         (volumes1 volumes2 : dict VolumeInfo),
    ListVolumes region w = (Ok volumes1, w1) ->
    ListVolumes region w1 = (Ok volumes2, w2) ->
    dict_wf volumes2 ->
    (dict_get volumes1 wanted = None \/ dict_get volumes1 wanted = Some []) ->
    filter (named wanted) volumes2 = [] ->
    GetVolume World ListVolumes self wanted region w
    = (Raise (RuntimeError (Exc (volume_not_found wanted))), w2).
Proof.
  intros World ListVolumes self wanted region w w1 w2 volumes1 volumes2
    HL1 HL2 Hwf Hid Hname.
  exact (GetVolume_not_found_aux World ListVolumes self wanted region
           w w1 w2 volumes1 volumes2 HL1 HL2 Hwf Hid Hname).
Qed.

Lemma Demo_listing_wf : dict_wf Demo.listing.
Proof.
  unfold dict_wf, Demo.listing. cbn [dict_keys map fst].
  constructor.
  - intros [E|[]]. discriminate E.
  - constructor; [intros [] | constructor].
Defined.

Lemma GetVolume_not_found_witness :
  GetVolume Demo.World Demo.ListVolumes Demo.account (lit "vol-9999") None []
  = (Raise (RuntimeError (Exc (volume_not_found (lit "vol-9999")))), []).
Proof.
  apply (GetVolume_not_found Demo.World Demo.ListVolumes Demo.account
           (lit "vol-9999") None [] [] [] Demo.listing Demo.listing
           eq_refl eq_refl Demo_listing_wf).
  - left. reflexivity.
  - reflexivity.
Defined.

(** ** The listings *)

Import Listing ListingFacts.

Lemma dict_get_dict_set {V} (d : dict V) (k k' : str) (v : V) :
  dict_get (dict_set d k v) k' =
  if str_eqb k k' then Some v else dict_get d k'.
Proof.
  induction d as [|[k0 v0] d IH]; simpl; [reflexivity|].
  destruct (str_eqb k0 k) eqn:E0; simpl.
  - apply str_eqb_eq in E0. subst k0. destruct (str_eqb k k'); reflexivity.
  - rewrite IH. destruct (str_eqb k k') eqn:E; [|reflexivity].
    apply str_eqb_eq in E. subst k'. rewrite E0. reflexivity.
Qed.

Lemma dict_keys_dict_set {V} (d : dict V) (k : str) (v : V) :
  (In k (dict_keys d) -> dict_keys (dict_set d k v) = dict_keys d) /\
  (~ In k (dict_keys d) -> dict_keys (dict_set d k v) = dict_keys d ++ [k]).
Proof.
  induction d as [|[k0 v0] d [IH1 IH2]]; simpl.
  - split; [contradiction | reflexivity].
  - destruct (str_eqb k0 k) eqn:E0; simpl.
    + apply str_eqb_eq in E0. split; [reflexivity | intros H; exfalso; auto].
    + apply str_eqb_neq in E0. split.
      * intros [H|H]; [contradiction | rewrite IH1 by exact H; reflexivity].
      * intros H. rewrite IH2 by tauto. reflexivity.
Qed.

Lemma dict_wf_dict_set {V} (d : dict V) (k : str) (v : V) :
  dict_wf d -> dict_wf (dict_set d k v).
Proof.
  unfold dict_wf. intros Hnd.
  destruct (dict_keys_dict_set d k v) as [H1 H2].
  destruct (in_dec (list_eq_dec Z.eq_dec) k (dict_keys d)) as [Hin|Hin].
  - rewrite H1 by exact Hin. exact Hnd.
  - rewrite H2 by exact Hin. apply NoDup_app; repeat split.
    + exact Hnd.
    + constructor; [intros [] | constructor].
    + intros a Ha [E|[]]. subst a. exact (Hin Ha).
Qed.

Lemma find_app_last {A} (f : A -> bool) (l : list A) (x : A) :
  find f (l ++ [x]) =
  match find f l with
  | Some y => Some y
  | None => if f x then Some x else None
  end.
Proof.
  induction l as [|a l IH]; simpl; [reflexivity|].
  destruct (f a); [reflexivity | exact IH].
Qed.

(** X10: after the loop over the volumes of a response, the entry of
    an id is built from the last volume of the response with that id;
    the entry of an id that the response does not hold stays as it
    was. *)
Theorem add_volumes_lookup :
  forall self page volumes id,
    dict_get (add_volumes self page volumes) id =
    match find (fun volume => str_eqb (DescribeVolumes.VolumeId volume) id)
               (rev page) with
    | Some volume => Some (volume_info self volume)
    | None => dict_get volumes id
    end.
Proof.
  intros self page. induction page as [|v page IH]; intros volumes id.
  - reflexivity.
  - change (add_volumes self (v :: page) volumes)
      with (add_volumes self page
              (dict_set volumes (DescribeVolumes.VolumeId v)
                 (volume_info self v))).
    rewrite IH. cbn [rev]. rewrite find_app_last.
    destruct (find _ (rev page)); [reflexivity|].
    rewrite dict_get_dict_set.
    destruct (str_eqb (DescribeVolumes.VolumeId v) id); reflexivity.
Qed.

Lemma add_volumes_app self (a b : list DescribeVolumes.Volume) volumes :
  add_volumes self (a ++ b) volumes
  = add_volumes self b (add_volumes self a volumes).
Proof. unfold add_volumes. apply fold_left_app. Qed.

(** X11: when [describe_volumes] serves a chain of pages, each naming
    the token of the next, [ListVolumes] with at least as many turns of
    its loop as there are pages returns the listing built from the
    volumes of all the pages in their order, and leaves the account in
    the state after the last page. *)
Theorem ListVolumes_all_pages :
  forall World describe_volumes self region filters (w w' : World) pages,
    volume_pages describe_volumes (region_or_default self region)
      (match filters with Some (f :: fs) => f :: fs | _ => [] end)
      None w pages w' ->
    forall fuel,
      (length pages <= fuel)%nat ->
      ListVolumes World describe_volumes fuel self region filters w
      = Some (Ok (add_volumes self (all_volumes pages) []), w').
Proof.
  intros World describe_volumes self region filters w w' pages Hpages.
  unfold ListVolumes.
  set (fs := match filters with Some (f :: fs) => f :: fs | _ => [] end) in *.
  generalize (@nil (str * VolumeInfo)) as volumes.
  induction Hpages as [token w response w1 Hd Hlast
                      |token w response w1 c t pages w' Hd Hnext Hrest IH];
    intros volumes fuel Hfuel.
  - destruct fuel as [|fuel]; [simpl in Hfuel; lia|].
    cbn [ListVolumes_pages]. rewrite Hd.
    unfold all_volumes. cbn [flat_map]. rewrite app_nil_r.
    destruct Hlast as [-> | ->]; reflexivity.
  - destruct fuel as [|fuel]; [simpl in Hfuel; lia|].
    cbn [ListVolumes_pages]. rewrite Hd, Hnext.
    rewrite IH by (simpl in Hfuel; lia).
    unfold all_volumes. cbn [flat_map]. rewrite add_volumes_app.
    reflexivity.
Qed.

Lemma ListVolumes_all_pages_witness :
  ListVolumes Sample.World Sample.describe_volumes 5 Sample.account None
    None []
  = Some (Ok [ (lit "vol-0123",
                 [(lit "region", lit "us-east-1");
                  (lit "zone", lit "us-east-1a");
                  (lit "name", lit "data")]);
               (lit "vol-0124",
                 [(lit "region", lit "us-east-1");
                  (lit "zone", lit "us-east-1b");
                  (lit "device", lit "/dev/sda1")]) ], []).
Proof.
  apply (ListVolumes_all_pages Sample.World Sample.describe_volumes
           Sample.account None None [] [] [Sample.page1; Sample.page2]).
  - eapply next_page; [reflexivity | reflexivity |].
    apply last_page; [reflexivity | left; reflexivity].
  - cbn. lia.
Defined.

Lemma volume_info_ok (self : AwsAccount) (v : DescribeVolumes.Volume) :
  entry_ok self (volume_info self v).
Proof.
  unfold entry_ok, volume_info.
  destruct (resource_name (DescribeVolumes.Tags v)) as [[|c n]|];
    destruct (DescribeVolumes.Attachments v) as [|a atts]; cbn;
    (split; [reflexivity|]);
    (split; [eexists; reflexivity|]);
    intros n' Hn'; try discriminate Hn';
    injection Hn' as <-; discriminate.
Qed.

Lemma instance_info_ok (self : AwsAccount) (i : DescribeInstances.Instance) :
  entry_ok self (instance_info self i).
Proof.
  unfold entry_ok, instance_info.
  destruct (resource_name (DescribeInstances.Tags i)) as [[|c n]|]; cbn;
    (split; [reflexivity|]);
    (split; [eexists; reflexivity|]);
    intros n' Hn'; try discriminate Hn';
    injection Hn' as <-; discriminate.
Qed.

Lemma listing_ok_nil (self : AwsAccount) : listing_ok self [].
Proof.
  split; [constructor|]. intros id info H. discriminate H.
Qed.

Lemma listing_ok_dict_set (self : AwsAccount) (d : dict (dict str)) k info :
  listing_ok self d -> entry_ok self info ->
  listing_ok self (dict_set d k info).
Proof.
  intros [Hwf Hd] Hinfo. split; [apply dict_wf_dict_set; exact Hwf|].
  intros id info' H. rewrite dict_get_dict_set in H.
  destruct (str_eqb k id).
  - injection H as <-. exact Hinfo.
  - exact (Hd id info' H).
Qed.

Lemma listing_ok_add_volumes (self : AwsAccount) page : forall volumes,
  listing_ok self volumes -> listing_ok self (add_volumes self page volumes).
Proof.
  induction page as [|v page IH]; intros volumes H; [exact H|].
  change (add_volumes self (v :: page) volumes)
    with (add_volumes self page
            (dict_set volumes (DescribeVolumes.VolumeId v)
               (volume_info self v))).
  apply IH. apply listing_ok_dict_set; [exact H | apply volume_info_ok].
Qed.

Lemma ListVolumes_pages_ok World describe_volumes self region filters :
  forall fuel token volumes (w w' : World) listing,
    listing_ok self volumes ->
    ListVolumes_pages World describe_volumes fuel self region filters token
      volumes w = Some (Ok listing, w') ->
    listing_ok self listing.
Proof.
  induction fuel as [|fuel IH]; intros token volumes w w' listing Hok H;
    [discriminate H|].
  cbn [ListVolumes_pages] in H.
  destruct (describe_volumes _ filters token w) as [[response|e] w1];
    [|discriminate H].
  pose proof (listing_ok_add_volumes self
                (DescribeVolumes.Volumes response) volumes Hok) as Hok'.
  destruct (DescribeVolumes.NextToken response) as [[|c t]|].
  - injection H as <- _. exact Hok'.
  - exact (IH _ _ _ _ _ Hok' H).
  - injection H as <- _. exact Hok'.
Qed.

(** X12: in a listing that [ListVolumes] returns, whatever the number
    of pages, every id has one entry, and every entry has the default
    region of the account as its region (also when another region was
    asked for), a zone, and a name only when the name is not empty. *)
Theorem ListVolumes_entries :
  forall World describe_volumes fuel self region filters (w w' : World)
         volumes,
    ListVolumes World describe_volumes fuel self region filters w
      = Some (Ok volumes, w') ->
    NoDup (dict_keys volumes) /\
    forall id info,
      dict_get volumes id = Some info ->
      dict_get info (lit "region") = Some (default_region self) /\
      (exists zone, dict_get info (lit "zone") = Some zone) /\
      (forall n, dict_get info (lit "name") = Some n -> n <> []).
Proof.
  intros World describe_volumes fuel self region filters w w' volumes H.
  unfold ListVolumes in H.
  exact (ListVolumes_pages_ok World describe_volumes self region _ fuel None
           [] w w' volumes (listing_ok_nil self) H).
Qed.

Lemma ListVolumes_entries_witness :
  exists volumes,
    ListVolumes Sample.World Sample.describe_volumes 2 Sample.account
      (Some (lit "eu-west-1")) None [] = Some (Ok volumes, []) /\
    forall id info,
      dict_get volumes id = Some info ->
      dict_get info (lit "region") = Some (lit "us-east-1").
Proof.
  eexists. split; [reflexivity|].
  intros id info Hid.
  exact (proj1 (proj2 (ListVolumes_entries Sample.World
                         Sample.describe_volumes 2 Sample.account
                         (Some (lit "eu-west-1")) None [] [] _ eq_refl)
                  id info Hid)).
Defined.

(** X13: on a listing that [ListVolumes] returned, the lookup by id
    never raises [KeyError]: it returns the volume of the id, with the
    zone of its entry, when the id is in the listing, and raises "not
    found" otherwise. *)
Theorem GetVolumeById_on_listing :
  forall World describe_volumes fuel self region filters (w w' : World)
         (volumes : dict VolumeInfo),
    ListVolumes World describe_volumes fuel self region filters w
      = Some (Ok volumes, w') ->
    forall (AccountListVolumes :
              option str -> World -> result (dict VolumeInfo) * World)
           region' (w0 w1 : World) id,
      AccountListVolumes region' w0 = (Ok volumes, w1) ->
      __GetVolumeById World AccountListVolumes self id region' w0 =
      match dict_get volumes id with
      | Some info =>
          (Ok {| volume_id := id;
                 volume_account := self;
                 volume_region := region_or_default self region';
                 volume_availability_zone :=
                   dict_get_default info (lit "zone") [];
                 volume_name := None |}, w1)
      | None => (Raise (volume_not_found id), w1)
      end.
Proof.
  intros World describe_volumes fuel self region filters w w' volumes H
    LV region' w0 w1 id HLV.
  unfold ListVolumes in H.
  destruct (ListVolumes_pages_ok World describe_volumes self region _ fuel
              None [] w w' volumes (listing_ok_nil self) H)
    as [_ Hentries].
  unfold __GetVolumeById. rewrite HLV.
  destruct (dict_get volumes id) as [info|] eqn:Hid; [|reflexivity].
  destruct (Hentries id info Hid) as (Hr & [zone Hz] & _).
  unfold dict_get_default.
  destruct info as [|x info]; [discriminate Hz|].
  cbv beta iota. rewrite Hz. reflexivity.
Qed.

Lemma GetVolumeById_on_listing_witness :
  exists v,
    __GetVolumeById Sample.World
      (fun _ w =>
         match ListVolumes Sample.World Sample.describe_volumes 2
                 Sample.account None None w with
         | Some r => r
         | None => (Raise UnboundLocalError, w)
         end)
      Sample.account (lit "vol-0124") None [] = (Ok v, []) /\
    volume_availability_zone v = lit "us-east-1b".
Proof.
  eexists. split.
  - exact (GetVolumeById_on_listing Sample.World Sample.describe_volumes 2
             Sample.account None None [] [] _ eq_refl _ None [] []
             (lit "vol-0124") eq_refl).
  - reflexivity.
Defined.

Lemma fold_left_flat_map {A B C} (g : A -> C -> A) (f : B -> list C)
    (l : list B) : forall acc,
  fold_left (fun acc b => fold_left g (f b) acc) l acc
  = fold_left g (flat_map f l) acc.
Proof.
  induction l as [|b l IH]; intros acc; [reflexivity|].
  cbn [fold_left flat_map]. rewrite fold_left_app. apply IH.
Qed.

Lemma add_instances_flat (self : AwsAccount) reservations instances :
  add_instances self reservations instances
  = fold_left (add_instance self) (all_instances reservations) instances.
Proof.
  unfold add_instances, all_instances.
  exact (fold_left_flat_map (add_instance self)
           DescribeInstances.Instances reservations instances).
Qed.

(** X14: after the loops over the reservations of a response, the
    entry of an id is built from the last instance with that id that is
    not terminated; an id that only terminated instances carry keeps
    the entry it had, and has none in a listing that starts empty. *)
Theorem add_instances_lookup :
  forall self reservations instances id,
    dict_get (add_instances self reservations instances) id =
    match find
            (fun instance =>
               str_eqb (DescribeInstances.InstanceId instance) id
               && negb (str_eqb (DescribeInstances.State_Name instance)
                          (lit "terminated")))
            (rev (all_instances reservations)) with
    | Some instance => Some (instance_info self instance)
    | None => dict_get instances id
    end.
Proof.
  intros self reservations instances id. rewrite add_instances_flat.
  generalize (all_instances reservations) as l. intros l.
  revert instances. induction l as [|i l IH]; intros instances.
  - reflexivity.
  - cbn [fold_left rev]. rewrite IH, find_app_last.
    destruct (find _ (rev l)); [reflexivity|].
    unfold add_instance.
    destruct (str_eqb (DescribeInstances.State_Name i) (lit "terminated")).
    + rewrite andb_false_r. reflexivity.
    + cbn [negb]. rewrite andb_true_r, dict_get_dict_set.
      destruct (str_eqb (DescribeInstances.InstanceId i) id); reflexivity.
Qed.

Lemma listing_ok_add_instances (self : AwsAccount) reservations instances :
  listing_ok self instances ->
  listing_ok self (add_instances self reservations instances).
Proof.
  rewrite add_instances_flat.
  generalize (all_instances reservations) as l. intros l. revert instances.
  induction l as [|i l IH]; intros instances H; [exact H|].
  cbn [fold_left]. apply IH. unfold add_instance.
  destruct (negb _); [|exact H].
  apply listing_ok_dict_set; [exact H | apply instance_info_ok].
Qed.

Lemma ListInstances_pages_ok World describe_instances self region filters :
  forall fuel token instances (w w' : World) listing,
    listing_ok self instances ->
    ListInstances_pages World describe_instances fuel self region filters
      token instances w = Some (Ok listing, w') ->
    listing_ok self listing.
Proof.
  induction fuel as [|fuel IH]; intros token instances w w' listing Hok H;
    [discriminate H|].
  cbn [ListInstances_pages] in H.
  destruct (describe_instances _ filters token w) as [[response|e] w1];
    [|discriminate H].
  pose proof (listing_ok_add_instances self
                (DescribeInstances.Reservations response) instances Hok)
    as Hok'.
  destruct (DescribeInstances.NextToken response) as [[|c t]|].
  - injection H as <- _. exact Hok'.
  - exact (IH _ _ _ _ _ Hok' H).
  - injection H as <- _. exact Hok'.
Qed.

(** In a listing that [ListInstances] returns, every id has one
    entry, and every entry has the default region of the account as
    its region, a zone, and a name only when the name is not empty. *)
Theorem ListInstances_entries :
  forall World describe_instances fuel self region filters (w w' : World)
         instances,
    ListInstances World describe_instances fuel self region filters w
      = Some (Ok instances, w') ->
    NoDup (dict_keys instances) /\
    forall id info,
      dict_get instances id = Some info ->
      dict_get info (lit "region") = Some (default_region self) /\
      (exists zone, dict_get info (lit "zone") = Some zone) /\
      (forall n, dict_get info (lit "name") = Some n -> n <> []).
Proof.
  intros World describe_instances fuel self region filters w w' instances H.
  unfold ListInstances in H.
  exact (ListInstances_pages_ok World describe_instances self region _ fuel
           None [] w w' instances (listing_ok_nil self) H).
Qed.

Lemma ListInstances_entries_witness :
  exists instances,
    ListInstances Sample.World Sample.describe_instances 1 Sample.account
      None None []
    = Some (Ok instances, []) /\
    dict_keys instances = [lit "i-0001"] /\
    NoDup (dict_keys instances).
Proof.
  eexists. split; [reflexivity|]. split; [reflexivity|].
  exact (proj1 (ListInstances_entries Sample.World
                  Sample.describe_instances 1 Sample.account
                  None None [] [] _ eq_refl)).
Defined.

Lemma first_name_tag_spec (tags : list (dict str)) (v : str) :
  first_name_tag tags = Some v <->
  exists pre tag post,
    tags = pre ++ tag :: post /\ tag_name_value tag = Some v /\
    Forall (fun t => tag_name_value t = None) pre.
Proof.
  induction tags as [|t tags IH]; cbn [first_name_tag].
  - split; [discriminate|]. intros (pre & tag & post & H & _).
    destruct pre; discriminate H.
  - destruct (tag_name_value t) as [n|] eqn:Et.
    + split.
      * intros H. injection H as <-. exists [], t, tags.
        repeat split; auto.
      * intros (pre & tag & post & H & Hv & Hpre).
        destruct pre as [|p pre]; cbn [app] in H; injection H as <- _.
        -- congruence.
        -- inversion Hpre; congruence.
    + rewrite IH. split.
      * intros (pre & tag & post & -> & Hv & Hpre).
        exists (t :: pre), tag, post. repeat split; auto.
      * intros (pre & tag & post & H & Hv & Hpre).
        destruct pre as [|p pre]; cbn [app] in H; injection H as <- ->.
        -- congruence.
        -- inversion Hpre; subst. exists pre, tag, post. repeat split; auto.
Qed.

Lemma tag_name_value_spec (tag : dict str) (v : str) :
  tag_name_value tag = Some v <->
  dict_get tag (lit "Key") = Some (lit "Name") /\
  dict_get tag (lit "Value") = Some v.
Proof.
  unfold tag_name_value. destruct (dict_get tag (lit "Key")) as [k|].
  - destruct (str_eqb k (lit "Name")) eqn:E.
    + apply str_eqb_eq in E. subst k. tauto.
    + apply str_eqb_neq in E. split; [discriminate|].
      intros [H _]. congruence.
  - split; [discriminate | intros [H _]; discriminate H].
Qed.

(** X15: the name that the listings read off the tags of a resource is
    the value of the first tag that has the key [Name] and a value:
    tags with another key, and [Name] tags without a value, are passed
    over, and later [Name] tags do not count. *)
Theorem resource_name_first_tag :
  forall tags v,
    resource_name tags = Some v <->
    exists pre tag post,
      tags = Some (pre ++ tag :: post) /\
      dict_get tag (lit "Key") = Some (lit "Name") /\
      dict_get tag (lit "Value") = Some v /\
      forall t, In t pre ->
        ~ (dict_get t (lit "Key") = Some (lit "Name") /\
           exists v', dict_get t (lit "Value") = Some v').
Proof.
  intros tags v.
  assert (Hpre : forall pre : list (dict str),
            Forall (fun t => tag_name_value t = None) pre <->
            forall t, In t pre ->
              ~ (dict_get t (lit "Key") = Some (lit "Name") /\
                 exists v', dict_get t (lit "Value") = Some v')).
  { intros pre. rewrite Forall_forall. split.
    - intros H t Ht [Hk [v' Hv']].
      assert (E : tag_name_value t = Some v')
        by (apply tag_name_value_spec; split; assumption).
      rewrite (H t Ht) in E. discriminate E.
    - intros H t Ht. destruct (tag_name_value t) as [v'|] eqn:E;
        [|reflexivity].
      exfalso. apply (H t Ht). apply tag_name_value_spec in E.
      destruct E as [Hk Hv']. split; [exact Hk | exists v'; exact Hv']. }
  assert (Hlist : forall l : list (dict str),
            first_name_tag l = Some v <->
            exists pre tag post,
              l = pre ++ tag :: post /\
              dict_get tag (lit "Key") = Some (lit "Name") /\
              dict_get tag (lit "Value") = Some v /\
              forall t, In t pre ->
                ~ (dict_get t (lit "Key") = Some (lit "Name") /\
                   exists v', dict_get t (lit "Value") = Some v')).
  { intros l. rewrite first_name_tag_spec. split.
    - intros (pre & tag & post & Hl & Hv & Hp). exists pre, tag, post.
      apply tag_name_value_spec in Hv. destruct Hv as [Hk Hv].
      repeat split; try assumption. apply Hpre. exact Hp.
    - intros (pre & tag & post & Hl & Hk & Hv & Hp). exists pre, tag, post.
      repeat split; try assumption.
      + apply tag_name_value_spec. split; assumption.
      + apply Hpre. exact Hp. }
  unfold resource_name. destruct tags as [[|t ts]|].
  - split; [discriminate|]. intros (pre & tag & post & H & _).
    injection H as H. destruct pre; discriminate H.
  - rewrite Hlist. split.
    + intros (pre & tag & post & Hl & Hrest). exists pre, tag, post.
      rewrite Hl. split; [reflexivity | exact Hrest].
    + intros (pre & tag & post & Hl & Hrest). exists pre, tag, post.
      injection Hl as Hl. split; [exact Hl | exact Hrest].
  - split; [discriminate|]. intros (pre & tag & post & H & _).
    discriminate H.
Qed.

(** ** The lookups of instances *)

Import Forensics.

Section InstanceLookups.

Variable World : Type.
Variable ListInstances :
  option str -> World -> result (dict InstanceInfo) * World.

Lemma GetInstanceById_returns self id region (w w1 : World) i :
  __GetInstanceById World ListInstances self id region w = (Ok i, w1) ->
  exists instances info,
    ListInstances region w = (Ok instances, w1) /\
    dict_get instances id = Some info /\
    dict_get info (lit "zone") = Some (instance_availability_zone i) /\
    instance_region i = region_or_default self region /\
    instance_account i = self /\
    instance_id i = id /\ instance_name i = None.
Proof.
  unfold __GetInstanceById. intros H.
  destruct (ListInstances region w) as [[instances|e] w'] eqn:HL;
    [|discriminate H].
  destruct (dict_get instances id) as [[|x info]|] eqn:Hid;
    try discriminate H.
  destruct (dict_get (x :: info) (lit "zone")) as [zone|] eqn:Hz;
    [|discriminate H].
  injection H as <- <-. exists instances, (x :: info).
  repeat split; assumption.
Qed.

Lemma GetInstanceByName_returns self wanted region (w w1 : World) i :
  __GetInstanceByName World ListInstances self wanted region w = (Ok i, w1) ->
  exists instances info,
    ListInstances region w = (Ok instances, w1) /\
    dict_get instances (instance_id i) = Some info /\
    dict_get info (lit "zone") = Some (instance_availability_zone i) /\
    instance_region i = region_or_default self region /\
    instance_account i = self /\
    dict_get info (lit "name") = Some wanted /\
    instance_name i = Some wanted.
Proof.
  unfold __GetInstanceByName. intros H.
  destruct (ListInstances region w) as [[instances|e] w'] eqn:HL;
    [|discriminate H].
  change (count_instances_by_name instances wanted)
    with (count_by_name instances wanted) in H.
  destruct (count_by_name instances wanted) as [found count] eqn:Hc.
  destruct (count =? 0); [discriminate H|].
  destruct (count >? 1); [discriminate H|].
  destruct found as [k|]; [|discriminate H].
  destruct (count_by_name_key instances wanted k count Hc)
    as (info & Hk & Hn).
  unfold InstanceInfo, VolumeInfo in *. rewrite Hk in H.
  destruct (dict_get info (lit "zone")) as [zone|] eqn:Hz; [|discriminate H].
  injection H as <- <-. exists instances, info. repeat split; assumption.
Qed.

(** [GetInstance] falls back as [GetVolume] does: an instance
    found by id is returned; after a [RuntimeError] of the lookup by
    id, an instance found by name is returned; and when both lookups
    raise a [RuntimeError], a [RuntimeError] built from the second one
    is raised. *)
Theorem GetInstance_fallback :
  forall self instance_name_or_id region (w : World),
    let by_id :=
      __GetInstanceById World ListInstances self instance_name_or_id
        region w in
    let by_name :=
      __GetInstanceByName World ListInstances self instance_name_or_id
        region (snd by_id) in
    (forall i,
       fst by_id = Ok i ->
       GetInstance World ListInstances self instance_name_or_id region w
       = (Ok i, snd by_id)) /\
    (forall a1 i,
       fst by_id = Raise (RuntimeError a1) -> fst by_name = Ok i ->
       GetInstance World ListInstances self instance_name_or_id region w
       = (Ok i, snd by_name)) /\
    (forall a1 a2,
       fst by_id = Raise (RuntimeError a1) ->
       fst by_name = Raise (RuntimeError a2) ->
       GetInstance World ListInstances self instance_name_or_id region w
       = (Raise (RuntimeError (Exc (RuntimeError a2))), snd by_name)).
Proof.
  intros self id region w by_id by_name.
  unfold GetInstance. fold by_id.
  destruct by_id as [r1 w1] eqn:E1. cbn [fst snd] in *.
  repeat split.
  - intros i ->. reflexivity.
  - intros a1 i -> H2. cbn [try_except_RuntimeError].
    fold by_name. destruct by_name as [r2 w2]. cbn [fst snd] in *.
    subst r2. reflexivity.
  - intros a1 a2 -> H2. cbn [try_except_RuntimeError].
    fold by_name. destruct by_name as [r2 w2]. cbn [fst snd] in *.
    subst r2. reflexivity.
Qed.

(** X16: an instance that [GetInstance] returns is an entry of the
    listing of the last [ListInstances] call, with the zone of that
    entry, the region asked for (or the default one) and the account
    of the call. Either its id is the string asked for, and it carries
    no name; or the entry carries the string asked for as its name. *)
Theorem GetInstance_returns :
  forall self wanted region (w w' : World) i,
    GetInstance World ListInstances self wanted region w = (Ok i, w') ->
    exists w0 instances info,
      ListInstances region w0 = (Ok instances, w') /\
      dict_get instances (instance_id i) = Some info /\
      dict_get info (lit "zone") = Some (instance_availability_zone i) /\
      instance_region i = region_or_default self region /\
      instance_account i = self /\
      ((instance_id i = wanted /\ instance_name i = None) \/
       (dict_get info (lit "name") = Some wanted /\
        instance_name i = Some wanted)).
Proof.
  intros self wanted region w w' i H.
  unfold GetInstance in H.
  destruct (__GetInstanceById World ListInstances self wanted region w)
    as [r1 w1] eqn:H1.
  destruct r1 as [i1|e1].
  - cbn [try_except_RuntimeError] in H. injection H as <- <-.
    destruct (GetInstanceById_returns _ _ _ _ _ _ H1)
      as (instances & info & HL & Hid & Hz & Hr & Ha & Hv & Hn).
    exists w, instances, info. rewrite Hv. repeat split; auto.
  - destruct e1; cbn [try_except_RuntimeError] in H; try discriminate H.
    destruct (__GetInstanceByName World ListInstances self wanted region w1)
      as [r2 w2] eqn:H2.
    destruct r2 as [i2|e2].
    + cbn [try_except_RuntimeError] in H. injection H as <- <-.
      destruct (GetInstanceByName_returns _ _ _ _ _ _ H2)
        as (instances & info & HL & Hid & Hz & Hr & Ha & Hnm & Hn).
      exists w1, instances, info. repeat split; auto.
    + destruct e2; cbn [try_except_RuntimeError] in H; discriminate H.
Qed.

End InstanceLookups.

Lemma GetInstance_fallback_witness :
  GetInstance Sample.World Sample.ListInstances Sample.account (lit "i-9999")
    None []
  = (Raise (RuntimeError (Exc (instance_not_found (lit "i-9999")))), []) /\
  (exists i,
     GetInstance Sample.World Sample.ListInstances Sample.account
       (lit "web") None [] = (Ok i, []) /\ instance_id i = lit "i-0001").
Proof.
  split.
  - destruct (GetInstance_fallback Sample.World Sample.ListInstances
                Sample.account (lit "i-9999") None []) as (_ & _ & Hboth).
    exact (Hboth (Msg (lit "Instance i-9999 was not found in AWS account"))
             (Msg (lit "Instance i-9999 was not found in AWS account"))
             eq_refl eq_refl).
  - destruct (GetInstance_fallback Sample.World Sample.ListInstances
                Sample.account (lit "web") None []) as (_ & Hname & _).
    eexists. split; [eapply Hname; reflexivity | reflexivity].
Defined.

Lemma GetInstance_returns_witness :
  exists info,
    dict_get Sample.instances (lit "i-0001") = Some info /\
    dict_get info (lit "name") = Some (lit "web").
Proof.
  destruct (GetInstance_returns Sample.World Sample.ListInstances
              Sample.account (lit "web") None [] [] _ eq_refl)
    as (w0 & instances & info & HL & Hid & _ & _ & _ & [[Hv _]|[Hn _]]).
  - discriminate Hv.
  - injection HL as <-. exists info. split; [exact Hid | exact Hn].
Defined.

(** ** The boot volume and the snapshots *)

Lemma find_boot_volume_found (volumes : dict VolumeInfo) (boot : option str) :
  forall keys k,
    find_boot_volume volumes keys boot = Ok (Some k) ->
    exists b info pre post,
      boot = Some b /\ keys = pre ++ k :: post /\
      dict_get volumes k = Some info /\
      dict_get info (lit "device") = Some b /\
      forall k', In k' pre ->
        exists info' d',
          dict_get volumes k' = Some info' /\
          dict_get info' (lit "device") = Some d' /\ d' <> b.
Proof.
  induction keys as [|key keys IH]; intros k H; [discriminate H|].
  cbn [find_boot_volume] in H.
  destruct (dict_get volumes key) as [info|] eqn:Hk; [|discriminate H].
  destruct (dict_get info (lit "device")) as [d|] eqn:Hd; [|discriminate H].
  destruct boot as [b|].
  - destruct (str_eqb d b) eqn:E.
    + injection H as <-. apply str_eqb_eq in E. subst d.
      exists b, info, [], keys. repeat split; auto.
      intros k' [].
    + apply str_eqb_neq in E.
      destruct (IH k H) as (b' & info' & pre & post & Hb & Hkeys & Hk' & Hd'
                            & Hpre).
      injection Hb as <-.
      exists b, info', (key :: pre), post. rewrite Hkeys.
      repeat split; auto.
      intros k' [<-|Hin]; [exists info, d; auto | exact (Hpre k' Hin)].
  - destruct (IH k H) as (b' & _ & _ & _ & Hb & _). discriminate Hb.
Qed.

Section BootAndSnapshot.

Variable World : Type.
Variable ListVolumes :
  option str -> list Filter -> World -> result (dict VolumeInfo) * World.
Variable root_device_name : str -> World -> result (option str) * World.
Variable create_snapshot :
  str -> list TagSpecification -> World ->
  result CreateSnapshotResponse * World.
Variable wait_snapshot_completed : list str -> World -> result unit * World.
Variable now : World -> str.

(** X17: a volume that [GetBootVolume] returns is the first volume, in
    the order of the listing of the volumes attached to the instance,
    whose device is the root device of the instance; every volume
    before it has another device. The volume carries the account, the
    region and the zone of the instance, and no name. *)
Theorem GetBootVolume_returns :
  forall self (w w' : World) v,
    GetBootVolume World ListVolumes root_device_name self w = (Ok v, w') ->
    exists boot w1 volumes info pre post,
      root_device_name (instance_id self) w = (Ok (Some boot), w1) /\
      ListVolumes None
        [{| Filter_Name := lit "attachment.instance-id";
            Filter_Values := [instance_id self] |}] w1 = (Ok volumes, w') /\
      dict_keys volumes = pre ++ volume_id v :: post /\
      dict_get volumes (volume_id v) = Some info /\
      dict_get info (lit "device") = Some boot /\
      (forall k, In k pre ->
         exists info' d',
           dict_get volumes k = Some info' /\
           dict_get info' (lit "device") = Some d' /\ d' <> boot) /\
      volume_account v = instance_account self /\
      volume_region v = instance_region self /\
      volume_availability_zone v = instance_availability_zone self /\
      volume_name v = None.
Proof.
  intros self w w' v H. unfold GetBootVolume, Instance_ListVolumes in H.
  destruct (root_device_name (instance_id self) w) as [[boot|e] w1] eqn:Hr;
    [|discriminate H].
  destruct (ListVolumes None _ w1) as [[volumes|e] w2] eqn:HL;
    [|discriminate H].
  destruct (find_boot_volume volumes (dict_keys volumes) boot)
    as [[k|]|e] eqn:Hf; try discriminate H.
  injection H as <- <-.
  destruct (find_boot_volume_found volumes boot _ k Hf)
    as (b & info & pre & post & -> & Hkeys & Hk & Hd & Hpre).
  exists b, w1, volumes, info, pre, post. cbn [volume_id].
  repeat split; auto.
Qed.

(** X18: for a timestamp of at most 254 characters, the name of a
    snapshot is the name asked for (the id of the volume when none, or
    the empty one, is given), cut to what the timestamp and its
    separator leave of 255 characters, followed by ['-'] and the
    timestamp; it has between 1 and 255 characters; and when the
    timestamp holds no newline, it matches [REGEX_TAG_VALUE] exactly
    when the kept part of the name holds no newline. *)
Theorem snapshot_tag_name_spec :
  forall self snapshot_name timestamp,
    (length timestamp <= 254)%nat ->
    let base := match snapshot_name with
                | Some (c :: n) => c :: n
                | _ => volume_id self
                end in
    let kept := firstn (254 - length timestamp) base in
    snapshot_tag_name self snapshot_name timestamp
      = kept ++ lit "-" ++ timestamp /\
    0 < len (snapshot_tag_name self snapshot_name timestamp) <= 255 /\
    (~ In newline timestamp ->
     (REGEX_TAG_VALUE_match
        (snapshot_tag_name self snapshot_name timestamp) = true
      <-> ~ In newline kept)).
Proof.
  intros self snapshot_name timestamp Hts base kept.
  assert (Heq : snapshot_tag_name self snapshot_name timestamp
                = kept ++ lit "-" ++ timestamp).
  { unfold snapshot_tag_name. fold base. unfold len.
    rewrite slice_to_nonneg by lia.
    replace (Z.to_nat (255 - Z.of_nat (length timestamp) - 1))
      with (254 - length timestamp)%nat by lia.
    reflexivity. }
  assert (Hkept : (length kept <= 254 - length timestamp)%nat).
  { subst kept. rewrite length_firstn. lia. }
  assert (Hlen : 0 < len (kept ++ lit "-" ++ timestamp) <= 255).
  { unfold len. rewrite !length_app. simpl length. lia. }
  rewrite Heq. split; [reflexivity|]. split; [exact Hlen|].
  intros Hnl. rewrite REGEX_TAG_VALUE_match_spec. split.
  - intros (body & tail & Hb & [->| ->] & Hfree & _) Hin.
    + rewrite app_nil_r in Hb. subst body. apply Hfree.
      apply in_or_app. left. exact Hin.
    + destruct (exists_last (l := lit "-" ++ timestamp)) as (l' & a & Hl).
      { discriminate. }
      rewrite Hl, app_assoc in Hb. apply app_inj_tail in Hb.
      destruct Hb as [_ Ha]. subst a.
      assert (Hin' : In newline (lit "-" ++ timestamp)).
      { rewrite Hl. apply in_or_app. right. left. reflexivity. }
      destruct Hin' as [E|Hin']; [discriminate E | exact (Hnl Hin')].
  - intros Hfree. apply tag_value_ok_no_newline; [|exact Hlen].
    intros Hin. apply in_app_or in Hin. destruct Hin as [Hin|Hin];
      [exact (Hfree Hin)|].
    destruct Hin as [E|Hin]; [discriminate E | exact (Hnl Hin)].
Qed.

Lemma Snapshot_inv :
  forall self snapshot_name (w w' : World) snapshot,
    Snapshot World create_snapshot wait_snapshot_completed now self
      snapshot_name w = (Ok snapshot, w') ->
    let tag_name := snapshot_tag_name self snapshot_name (now w) in
    tag_value_ok tag_name /\
    exists response w1,
      create_snapshot (volume_id self)
        [{| ResourceType := lit "snapshot";
            Tags := [[(lit "Key", lit "Name"); (lit "Value", tag_name)]] |}]
        w = (Ok response, w1) /\
      wait_snapshot_completed [SnapshotId response] w1 = (Ok tt, w') /\
      snapshot = {| snapshot_id := SnapshotId response;
                    volume := self;
                    name := Some tag_name |}.
Proof.
  intros self snapshot_name w w' snapshot H tag_name.
  unfold Snapshot in H. fold tag_name in H.
  destruct (REGEX_TAG_VALUE_match tag_name) eqn:Hre; cbn [negb] in H;
    [|discriminate H].
  split; [apply REGEX_TAG_VALUE_match_spec; exact Hre|].
  unfold GetTagForResourceType in H.
  destruct (create_snapshot _ _ w) as [[response|e] w1] eqn:Hc.
  - destruct (wait_snapshot_completed _ w1) as [[[]|e] w2] eqn:Hw.
    + injection H as <- <-. exists response, w1. repeat split; assumption.
    + exfalso. destruct e; discriminate H.
  - exfalso. destruct e; discriminate H.
Qed.

(** X19: a snapshot that [Snapshot] returns is a snapshot of the
    volume, under the name made of the name asked for and the time of
    the call; this name matches [REGEX_TAG_VALUE] and was sent to
    [create_snapshot] as the [Name] tag of a [snapshot] resource, and
    the id of the snapshot is that of the response. *)
Theorem Snapshot_returns :
  forall self snapshot_name (w w' : World) snapshot,
    Snapshot World create_snapshot wait_snapshot_completed now self
      snapshot_name w = (Ok snapshot, w') ->
    let tag_name := snapshot_tag_name self snapshot_name (now w) in
    tag_value_ok tag_name /\
    exists response w1,
      create_snapshot (volume_id self)
        [{| ResourceType := lit "snapshot";
            Tags := [[(lit "Key", lit "Name"); (lit "Value", tag_name)]] |}]
        w = (Ok response, w1) /\
      wait_snapshot_completed [SnapshotId response] w1 = (Ok tt, w') /\
      snapshot = {| snapshot_id := SnapshotId response;
                    volume := self;
                    name := Some tag_name |}.
Proof.
  intros self snapshot_name w w' snapshot H.
  exact (Snapshot_inv self snapshot_name w w' snapshot H).
Qed.

End BootAndSnapshot.

Lemma GetBootVolume_returns_witness :
  exists v,
    GetBootVolume Sample.World Sample.ListVolumes Sample.root_device_name
      Sample.instance [] = (Ok v, []) /\
    volume_id v = lit "vol-0124" /\
    volume_region v = lit "us-east-1".
Proof.
  eexists. split; [reflexivity|]. split; [reflexivity|].
  destruct (GetBootVolume_returns Sample.World Sample.ListVolumes
              Sample.root_device_name Sample.instance [] [] _ eq_refl)
    as (boot & w1 & volumes & info & pre & post & _ & _ & _ & _ & _ & _ & _
        & Hreg & _).
  exact Hreg.
Defined.

Lemma snapshot_tag_name_spec_witness :
  snapshot_tag_name Demo.source_volume None (lit "20200102030405")
  = lit "vol-0123-20200102030405".
Proof.
  exact (proj1 (snapshot_tag_name_spec Demo.source_volume None
                  (lit "20200102030405") ltac:(cbn; lia))).
Defined.

Lemma Snapshot_returns_witness :
  exists snapshot,
    Snapshot Sample.World Sample.create_snapshot Sample.wait_ok Sample.now
      Demo.source_volume None [] = (Ok snapshot, [lit "create_snapshot"]) /\
    tag_value_ok (lit "vol-0123-20200102030405").
Proof.
  eexists. split; [reflexivity|].
  exact (proj1 (Snapshot_returns Sample.World Sample.create_snapshot
                  Sample.wait_ok Sample.now Demo.source_volume None []
                  _ _ eq_refl)).
Defined.

(** ** The copy of a volume *)

Lemma find_boot_volume_none (volumes : dict VolumeInfo) (boot : option str) :
  forall keys,
    (forall k, In k keys ->
       exists info d,
         dict_get volumes k = Some info /\
         dict_get info (lit "device") = Some d /\ Some d <> boot) ->
    find_boot_volume volumes keys boot = Ok None.
Proof.
  induction keys as [|key keys IH]; intros H; [reflexivity|].
  cbn [find_boot_volume].
  destruct (H key (or_introl eq_refl)) as (info & d & -> & -> & Hd).
  destruct boot as [b|].
  - destruct (str_eqb d b) eqn:E.
    + apply str_eqb_eq in E. subst d. exfalso. apply Hd. reflexivity.
    + apply IH. intros k Hk. apply H. right. exact Hk.
  - apply IH. intros k Hk. apply H. right. exact Hk.
Qed.

(** The name of a volume created from a named snapshot under the prefix
    [evidence]. *)
Lemma evidence_copy_name World get_caller_identity create_volume
    wait_volume_available account sid vol tag (w w' : World) v :
  CreateVolumeFromSnapshot World get_caller_identity create_volume
    wait_volume_available account
    {| snapshot_id := sid; volume := vol; name := Some tag |}
    None (Some (lit "evidence")) w = (Ok v, w') ->
  exists data,
    encode (dict_get_default (get_caller_identity w) (lit "UserId") []
              ++ volume_id vol) = Some data /\
    volume_account v = account /\
    volume_name v
    = Some (lit "evidence-" ++ firstn 232 tag ++ lit "-"
              ++ checksum_of data ++ lit "-copy").
Proof.
  intros H.
  destruct (CreateVolumeFromSnapshot_inv _ _ _ _ _ _ _ _ _ _ _ H)
    as (composed & response & w1 & Hc & _ & _ & _ & ->).
  cbn [composed_name] in Hc. rewrite GenerateVolumeName_eq in Hc.
  destruct (encode _) as [data|]; [|discriminate Hc].
  apply Ok_inj in Hc. subst composed. exists data.
  split; [reflexivity|]. split; reflexivity.
Qed.

Section CopyFacts.

Variable World : Type.
Variable get_caller_identity : World -> dict str.
Variable create_volume :
  str -> str -> list TagSpecification -> World ->
  result CreateVolumeResponse * World.
Variable wait_volume_available : list str -> World -> result unit * World.
Variable ListVolumes :
  option str -> list Filter -> World -> result (dict VolumeInfo) * World.
Variable ListInstances :
  option str -> World -> result (dict InstanceInfo) * World.
Variable root_device_name : str -> World -> result (option str) * World.
Variable create_snapshot :
  str -> list TagSpecification -> World ->
  result CreateSnapshotResponse * World.
Variable wait_snapshot_completed : list str -> World -> result unit * World.
Variable delete_snapshot : str -> World -> result unit * World.
Variable now : World -> str.
Variable text_of_other : exn -> str.

Local Abbreviation copy :=
  (CreateVolumeCopy World get_caller_identity create_volume
     wait_volume_available ListVolumes ListInstances root_device_name
     create_snapshot wait_snapshot_completed delete_snapshot now
     text_of_other).
Local Abbreviation lookup := (lookup_instance World ListInstances).
Local Abbreviation source :=
  (volume_to_copy World ListVolumes root_device_name).
Local Abbreviation steps :=
  (copy_steps World get_caller_identity create_volume wait_volume_available
     ListVolumes root_device_name create_snapshot wait_snapshot_completed
     delete_snapshot now).
Local Abbreviation snapshot_of :=
  (Snapshot World create_snapshot wait_snapshot_completed now).
Local Abbreviation create_from :=
  (CreateVolumeFromSnapshot World get_caller_identity create_volume
     wait_volume_available).
Local Abbreviation get_volume :=
  (GetVolume World (fun region => ListVolumes region [])).
Local Abbreviation get_instance := (GetInstance World ListInstances).
Local Abbreviation boot_volume_of :=
  (GetBootVolume World ListVolumes root_device_name).

(** X20: a volume created from the snapshot that [Snapshot] made of a
    volume, under the prefix [evidence], is named [evidence-], then the
    232 left-most characters of the name of the snapshot, which is the
    id of the volume and the time of the snapshot, then ['-'], the
    checksum of the caller and the volume, and [-copy]; for an id and a
    timestamp of at most 231 characters together nothing is cut. *)
Theorem Snapshot_then_copy_name :
  forall account vol (w w1 w2 : World) snapshot v,
    snapshot_of vol None w = (Ok snapshot, w1) ->
    create_from account snapshot None (Some (lit "evidence")) w1
      = (Ok v, w2) ->
    exists data,
      encode (dict_get_default (get_caller_identity w1) (lit "UserId") []
                ++ volume_id vol) = Some data /\
      volume_name v
      = Some (lit "evidence-"
                ++ firstn 232 (snapshot_tag_name vol None (now w))
                ++ lit "-" ++ checksum_of data ++ lit "-copy") /\
      ((length (volume_id vol) + length (now w) <= 231)%nat ->
       volume_name v
       = Some (lit "evidence-" ++ volume_id vol ++ lit "-" ++ now w
                 ++ lit "-" ++ checksum_of data ++ lit "-copy")).
Proof.
  intros account vol w w1 w2 snapshot v Hs Hc.
  destruct (Snapshot_inv World create_snapshot wait_snapshot_completed now
              vol None w w1 snapshot Hs)
    as (_ & response & w0 & _ & _ & ->).
  destruct (evidence_copy_name _ _ _ _ _ _ _ _ _ _ _ Hc)
    as (data & Henc & _ & Hname).
  exists data. split; [exact Henc|]. split; [exact Hname|].
  intros Hshort. rewrite Hname.
  assert (Htag : snapshot_tag_name vol None (now w)
                 = volume_id vol ++ lit "-" ++ now w).
  { unfold snapshot_tag_name, len. rewrite slice_to_nonneg by lia.
    rewrite firstn_all2 by lia. reflexivity. }
  rewrite Htag, firstn_all2
    by (rewrite !length_app; simpl length; lia).
  rewrite <- !app_assoc. reflexivity.
Qed.

(** X21: called with neither an instance nor a volume (each [None] or
    empty), [CreateVolumeCopy] raises the [AttributeError] of
    [None.GetBootVolume] and leaves the account as it was. *)
Theorem CreateVolumeCopy_no_source :
  forall zone (w : World),
    copy None zone None w = (Raised AttributeError, w) /\
    copy (Some []) zone None w = (Raised AttributeError, w) /\
    copy None zone (Some []) w = (Raised AttributeError, w) /\
    copy (Some []) zone (Some []) w = (Raised AttributeError, w).
Proof.
  intros zone w. repeat split; reflexivity.
Qed.

(** X22: when the copy of the boot volume of an instance is asked for
    and no attached volume has the root device of the instance as its
    device, the [RuntimeError] of [GetBootVolume] is caught and the
    handler, which formats the volume name [None] with ['{0:s}'], raises
    [TypeError] in its place. *)
Theorem CreateVolumeCopy_boot_volume_missing :
  forall zone c n (w w0 w1 w2 : World) instance boot volumes,
    get_instance {| default_availability_zone := zone |} (c :: n) None w
      = (Ok instance, w0) ->
    root_device_name (instance_id instance) w0 = (Ok boot, w1) ->
    ListVolumes None
      [{| Filter_Name := lit "attachment.instance-id";
          Filter_Values := [instance_id instance] |}] w1
      = (Ok volumes, w2) ->
    (forall k, In k (dict_keys volumes) ->
       exists info d,
         dict_get volumes k = Some info /\
         dict_get info (lit "device") = Some d /\ Some d <> boot) ->
    copy (Some (c :: n)) zone None w = (Raised (Exn TypeError), w2).
Proof.
  intros zone c n w w0 w1 w2 instance boot volumes Hi Hr HL Hnone.
  unfold CreateVolumeCopy, lookup_instance. rewrite Hi.
  unfold copy_steps, volume_to_copy, GetBootVolume, Instance_ListVolumes.
  rewrite Hr, HL, (find_boot_volume_none volumes boot _ Hnone).
  reflexivity.
Qed.

(** X23: when the copy of a named volume is asked for, the instance,
    when one is named, is found, and the volume is in no listing, by id
    or by name, [CreateVolumeCopy] raises a [RuntimeError] whose message
    is [Error copying volume "name": ] followed by the text of the error
    of [GetVolume], [Volume name was not found in AWS account]; no
    snapshot is made. When the instance that is named is not found, the
    exception of [GetInstance], raised before the [try], is raised as
    it is, whatever the volume. *)
Theorem CreateVolumeCopy_volume_missing :
  forall instance_name zone,
    (forall c n (w w0 w1 w2 : World) instance
            (volumes1 volumes2 : dict VolumeInfo),
       lookup {| default_availability_zone := zone |} instance_name w
         = (Ok instance, w0) ->
       ListVolumes None [] w0 = (Ok volumes1, w1) ->
       ListVolumes None [] w1 = (Ok volumes2, w2) ->
       dict_wf volumes2 ->
       (dict_get volumes1 (c :: n) = None \/
        dict_get volumes1 (c :: n) = Some []) ->
       filter (named (c :: n)) volumes2 = [] ->
       copy instance_name zone (Some (c :: n)) w
       = (Raised (Exn (RuntimeError (Msg
            (lit "Error copying volume " ++ [34] ++ (c :: n) ++ [34]
               ++ lit ": " ++ lit "Volume " ++ (c :: n)
               ++ lit " was not found in AWS account")))), w2)) /\
    (forall volume_name (w w0 : World) e,
       lookup {| default_availability_zone := zone |} instance_name w
         = (Raise e, w0) ->
       copy instance_name zone volume_name w = (Raised (Exn e), w0)).
Proof.
  intros instance_name zone. split.
  - intros c n w w0 w1 w2 instance volumes1 volumes2 Hi HL1 HL2 Hwf Hid
      Hname.
    unfold CreateVolumeCopy. rewrite Hi.
    unfold copy_steps, volume_to_copy.
    rewrite (GetVolume_not_found_aux World
               (fun region => ListVolumes region [])
               {| default_availability_zone := zone |} (c :: n) None
               w0 w1 w2 volumes1 volumes2 HL1 HL2 Hwf Hid Hname).
    reflexivity.
  - intros volume_name w w0 e Hi.
    unfold CreateVolumeCopy. rewrite Hi. reflexivity.
Qed.

(** X24: when the volume cannot be created from the snapshot, whether
    the snapshot is one of a named volume or of the boot volume of an
    instance, the snapshot is not deleted: [CreateVolumeCopy] ends in
    the state that the failed creation left. An exception of the
    creation that is not a [RuntimeError] is raised as it is; a
    [RuntimeError] is wrapped in the message of the copy when a volume
    name was given, and replaced by the [TypeError] of the handler,
    which formats the name with ['{0:s}'], when the name is [None]. *)
Theorem CreateVolumeCopy_keeps_snapshot :
  forall instance_name zone volume_name (w w0 w1 w2 w3 : World)
         instance vol snapshot e,
    lookup {| default_availability_zone := zone |} instance_name w
      = (Ok instance, w0) ->
    source {| default_availability_zone := zone |} instance volume_name w0
      = (Returned vol, w1) ->
    snapshot_of vol None w1 = (Ok snapshot, w2) ->
    create_from {| default_availability_zone := zone |} snapshot None
      (Some (lit "evidence")) w2 = (Raise e, w3) ->
    copy instance_name zone volume_name w =
    (match e with
     | RuntimeError arg =>
         match volume_name with
         | None => Raised (Exn TypeError)
         | Some name =>
             Raised (Exn (RuntimeError (Msg
               (copy_error_message text_of_other name (RuntimeError arg)))))
         end
     | _ => Raised (Exn e)
     end, w3).
Proof.
  intros instance_name zone volume_name w w0 w1 w2 w3 instance vol snapshot
    e Hi Hv Hs Hc.
  unfold CreateVolumeCopy. rewrite Hi.
  unfold copy_steps. rewrite Hv, Hs, Hc.
  destruct e; try reflexivity. destruct volume_name; reflexivity.
Qed.

Lemma copy_steps_returned account instance volume_name (w w' : World) v :
  steps account instance volume_name w = (Returned v, w') ->
  exists vol snapshot w1 w2 w3,
    (match volume_name with
     | Some (c :: n) => get_volume account (c :: n) None w = (Ok vol, w1)
     | _ => exists i, instance = Some i /\
                      boot_volume_of i w = (Ok vol, w1)
     end) /\
    snapshot_of vol None w1 = (Ok snapshot, w2) /\
    create_from account snapshot None (Some (lit "evidence")) w2
      = (Ok v, w3) /\
    delete_snapshot (snapshot_id snapshot) w3 = (Ok tt, w').
Proof.
  unfold copy_steps, volume_to_copy. intros H.
  assert (Hrest : forall (vol : AwsVolume) (w1 : World),
    match snapshot_of vol None w1 with
    | (Raise e, w2) => (Raised (Exn e), w2)
    | (Ok snapshot, w2) =>
        match create_from account snapshot None (Some (lit "evidence")) w2
        with
        | (Raise e, w3) => (Raised (Exn e), w3)
        | (Ok new_volume, w3) =>
            match Delete World delete_snapshot snapshot w3 with
            | (Raise e, w4) => (Raised (Exn e), w4)
            | (Ok _, w4) => (Returned new_volume, w4)
            end
        end
    end = (Returned v, w') ->
    exists snapshot w2 w3,
      snapshot_of vol None w1 = (Ok snapshot, w2) /\
      create_from account snapshot None (Some (lit "evidence")) w2
        = (Ok v, w3) /\
      delete_snapshot (snapshot_id snapshot) w3 = (Ok tt, w')).
  { intros vol w1 Hr.
    destruct (snapshot_of vol None w1) as [[snapshot|e] w2] eqn:Hs;
      [|discriminate Hr].
    destruct (create_from account snapshot None (Some (lit "evidence")) w2)
      as [[new_volume|e] w3] eqn:Hc; [|discriminate Hr].
    unfold Delete in Hr.
    destruct (delete_snapshot (snapshot_id snapshot) w3)
      as [[[]|e] w4] eqn:Hd.
    - injection Hr as <- <-. exists snapshot, w2, w3.
      repeat split; assumption.
    - destruct e; discriminate Hr. }
  destruct volume_name as [[|c n]|].
  - destruct instance as [i|]; [|discriminate H].
    destruct (boot_volume_of i w) as [[vol|e] w1] eqn:Hb;
      cbn [outcome_of] in H; [|discriminate H].
    destruct (Hrest vol w1 H) as (snapshot & w2 & w3 & Hs & Hc & Hd).
    exists vol, snapshot, w1, w2, w3. repeat split; try assumption.
    exists i. split; [reflexivity | exact Hb].
  - destruct (get_volume account (c :: n) None w) as [[vol|e] w1] eqn:Hv;
      cbn [outcome_of] in H; [|discriminate H].
    destruct (Hrest vol w1 H) as (snapshot & w2 & w3 & Hs & Hc & Hd).
    exists vol, snapshot, w1, w2, w3. repeat split; assumption.
  - destruct instance as [i|]; [|discriminate H].
    destruct (boot_volume_of i w) as [[vol|e] w1] eqn:Hb;
      cbn [outcome_of] in H; [|discriminate H].
    destruct (Hrest vol w1 H) as (snapshot & w2 & w3 & Hs & Hc & Hd).
    exists vol, snapshot, w1, w2, w3. repeat split; try assumption.
    exists i. split; [reflexivity | exact Hb].
Qed.

(** X25: when [CreateVolumeCopy] returns a volume, the instance, when
    one is named, was found; the source volume is the one that
    [GetVolume] returns for the volume name when one is given, and else
    the boot volume of that instance; a snapshot of the source volume
    was made, the volume was created from it and the snapshot was
    deleted, in this order; the volume belongs to the account of the
    zone and is named [evidence-], the 232 left-most characters of the
    name of the snapshot, ['-'], the checksum of the caller and the id
    of the source volume, and [-copy]. *)
Theorem CreateVolumeCopy_returns :
  forall instance_name zone volume_name (w w' : World) v,
    copy instance_name zone volume_name w = (Returned v, w') ->
    exists instance vol snapshot w0 w1 w2 w3 data,
      lookup {| default_availability_zone := zone |} instance_name w
        = (Ok instance, w0) /\
      (match volume_name with
       | Some (c :: n) =>
           get_volume {| default_availability_zone := zone |} (c :: n) None
             w0 = (Ok vol, w1)
       | _ => exists i, instance = Some i /\
                        boot_volume_of i w0 = (Ok vol, w1)
       end) /\
      snapshot_of vol None w1 = (Ok snapshot, w2) /\
      volume snapshot = vol /\
      create_from {| default_availability_zone := zone |} snapshot None
        (Some (lit "evidence")) w2 = (Ok v, w3) /\
      delete_snapshot (snapshot_id snapshot) w3 = (Ok tt, w') /\
      volume_account v = {| default_availability_zone := zone |} /\
      encode (dict_get_default (get_caller_identity w2) (lit "UserId") []
                ++ volume_id vol) = Some data /\
      Aws.volume_name v
      = Some (lit "evidence-"
                ++ firstn 232 (snapshot_tag_name vol None (now w1))
                ++ lit "-" ++ checksum_of data ++ lit "-copy").
Proof.
  intros instance_name zone volume_name w w' v H.
  unfold CreateVolumeCopy in H.
  destruct (lookup_instance World ListInstances _ instance_name w)
    as [[instance|e] w0] eqn:Hi; [|discriminate H].
  destruct (steps {| default_availability_zone := zone |} instance
              volume_name w0) as [[v0|r] w1] eqn:Hsteps.
  - injection H as <- <-.
    destruct (copy_steps_returned _ _ _ _ _ _ Hsteps)
      as (vol & snapshot & w1' & w2 & w3 & Hsrc & Hs & Hc & Hd).
    destruct (Snapshot_inv World create_snapshot wait_snapshot_completed now
                vol None w1' w2 snapshot Hs)
      as (_ & response & wa & _ & _ & Esnap).
    pose proof Hc as Hc'. rewrite Esnap in Hc'.
    destruct (evidence_copy_name _ _ _ _ _ _ _ _ _ _ _ Hc')
      as (data & Henc & Hacc & Hname).
    exists instance, vol, snapshot, w0, w1', w2, w3, data.
    split; [reflexivity|]. split; [exact Hsrc|]. split; [exact Hs|].
    split; [rewrite Esnap; reflexivity|].
    repeat split; assumption.
  - exfalso. destruct r as [[]|]; try discriminate H.
    destruct volume_name; discriminate H.
Qed.

End CopyFacts.

Lemma Sample_volumes_wf : dict_wf Sample.volumes.
Proof.
  unfold dict_wf, Sample.volumes. cbn [dict_keys map fst].
  constructor.
  - intros [E|[]]. discriminate E.
  - constructor; [intros [] | constructor].
Defined.

Lemma Snapshot_then_copy_name_witness :
  exists v data,
    volume_name v
    = Some (lit "evidence-" ++ volume_id Demo.source_volume ++ lit "-"
              ++ Sample.now [] ++ lit "-" ++ checksum_of data
              ++ lit "-copy").
Proof.
  edestruct (Snapshot_then_copy_name Sample.World Sample.get_caller_identity
               Sample.create_volume Sample.wait_ok Sample.create_snapshot
               Sample.wait_ok Sample.now Sample.account Demo.source_volume
               [])
    as (data & _ & _ & Hshort);
    [vm_compute; reflexivity | vm_compute; reflexivity |].
  eexists. exists data. apply Hshort. cbn. lia.
Defined.

Lemma CreateVolumeCopy_boot_volume_missing_witness :
  CreateVolumeCopy Sample.World Sample.get_caller_identity
    Sample.create_volume Sample.wait_ok Sample.ListVolumes
    Sample.ListInstances Sample.root_device_xvda Sample.create_snapshot
    Sample.wait_ok Sample.delete_snapshot Sample.now Sample.text_of_other
    (Some (119 :: lit "eb")) (lit "us-east-1a") None []
  = (Raised (Exn TypeError), []).
Proof.
  eapply (CreateVolumeCopy_boot_volume_missing Sample.World
            Sample.get_caller_identity Sample.create_volume Sample.wait_ok
            Sample.ListVolumes Sample.ListInstances Sample.root_device_xvda
            Sample.create_snapshot Sample.wait_ok Sample.delete_snapshot
            Sample.now Sample.text_of_other);
    [vm_compute; reflexivity | vm_compute; reflexivity
    | vm_compute; reflexivity |].
  intros k Hk. cbn in Hk. destruct Hk as [<-|[<-|[]]].
  - do 2 eexists. split; [reflexivity|]. split; [reflexivity|].
    intros E. discriminate E.
  - do 2 eexists. split; [reflexivity|]. split; [reflexivity|].
    intros E. discriminate E.
Defined.

Lemma CreateVolumeCopy_volume_missing_witness :
  CreateVolumeCopy Sample.World Sample.get_caller_identity
      Sample.create_volume Sample.wait_ok Sample.ListVolumes
      Sample.ListInstances Sample.root_device_name Sample.create_snapshot
      Sample.wait_ok Sample.delete_snapshot Sample.now Sample.text_of_other
      (Some (lit "web")) (lit "us-east-1a") (Some (lit "vol-9999")) []
  = (Raised (Exn (RuntimeError (Msg
       (lit ("Error copying volume " ++ String (ascii_of_nat 34) "vol-9999"
             ++ String (ascii_of_nat 34)
                  ": Volume vol-9999 was not found in AWS account"))))),
     []) /\
  CreateVolumeCopy Sample.World Sample.get_caller_identity
      Sample.create_volume Sample.wait_ok Sample.ListVolumes
      Sample.ListInstances Sample.root_device_name Sample.create_snapshot
      Sample.wait_ok Sample.delete_snapshot Sample.now Sample.text_of_other
      (Some (lit "db")) (lit "us-east-1a") (Some (lit "data")) []
  = (Raised (Exn (RuntimeError (Exc (RuntimeError (Msg
       (lit "Instance db was not found in AWS account")))))), []).
Proof.
  destruct (CreateVolumeCopy_volume_missing Sample.World Sample.get_caller_identity
      Sample.create_volume Sample.wait_ok Sample.ListVolumes
      Sample.ListInstances Sample.root_device_name Sample.create_snapshot
      Sample.wait_ok Sample.delete_snapshot Sample.now Sample.text_of_other
      (Some (lit "web")) (lit "us-east-1a")) as (Hvolume & _).
  destruct (CreateVolumeCopy_volume_missing Sample.World Sample.get_caller_identity
      Sample.create_volume Sample.wait_ok Sample.ListVolumes
      Sample.ListInstances Sample.root_device_name Sample.create_snapshot
      Sample.wait_ok Sample.delete_snapshot Sample.now Sample.text_of_other
      (Some (lit "db")) (lit "us-east-1a")) as (_ & Hinstance).
  split.
  - eapply eq_trans.
    + eapply (Hvolume 118 (lit "ol-9999") [] [] [] [] _ Sample.volumes
                Sample.volumes).
      * vm_compute. reflexivity.
      * reflexivity.
      * reflexivity.
      * exact Sample_volumes_wf.
      * left. reflexivity.
      * reflexivity.
    + vm_compute. reflexivity.
  - apply (Hinstance (Some (lit "data")) [] []).
    vm_compute. reflexivity.
Defined.

Lemma CreateVolumeCopy_returns_witness :
  exists v,
    CreateVolumeCopy Sample.World Sample.get_caller_identity
      Sample.create_volume Sample.wait_ok Sample.ListVolumes
      Sample.ListInstances Sample.root_device_name Sample.create_snapshot
      Sample.wait_ok Sample.delete_snapshot Sample.now Sample.text_of_other
      (Some (lit "web")) (lit "us-east-1a") None []
    = (Returned v,
       [lit "delete_snapshot"; lit "create_volume"; lit "create_snapshot"]) /\
    volume_account v = {| default_availability_zone := lit "us-east-1a" |}.
Proof.
  eassert (H : CreateVolumeCopy Sample.World Sample.get_caller_identity
      Sample.create_volume Sample.wait_ok Sample.ListVolumes
      Sample.ListInstances Sample.root_device_name Sample.create_snapshot
      Sample.wait_ok Sample.delete_snapshot Sample.now Sample.text_of_other
      (Some (lit "web")) (lit "us-east-1a") None []
    = (Returned _, _)) by (vm_compute; reflexivity).
  destruct (CreateVolumeCopy_returns Sample.World Sample.get_caller_identity
      Sample.create_volume Sample.wait_ok Sample.ListVolumes
      Sample.ListInstances Sample.root_device_name Sample.create_snapshot
      Sample.wait_ok Sample.delete_snapshot Sample.now Sample.text_of_other
      (Some (lit "web")) (lit "us-east-1a") None [] _ _ H)
    as (instance & vol & snapshot & w0 & w1 & w2 & w3 & data & _ & _ & _ & _
        & _ & _ & Hacc & _).
  eexists. split; [exact H | exact Hacc].
Defined.

Lemma CreateVolumeCopy_keeps_snapshot_witness :
  CreateVolumeCopy Sample.World Sample.get_caller_identity
      Sample.create_volume_fails Sample.wait_ok Sample.ListVolumes
      Sample.ListInstances Sample.root_device_name Sample.create_snapshot
      Sample.wait_ok Sample.delete_snapshot Sample.now Sample.text_of_other
      None (lit "us-east-1a") (Some (lit "data")) []
  = (Raised (Exn (RuntimeError (Msg
       (lit ("Error copying volume " ++ String (ascii_of_nat 34) "data"
             ++ String (ascii_of_nat 34)
                  ": Error: could not create volume "
             ++ "evidence-vol-0123-20200102030405-3174b803-copy"
             ++ " from snapshot vol-0123-20200102030405"
             ++ ": VolumeLimitExceeded"))))),
     [lit "create_snapshot"]) /\
  CreateVolumeCopy Sample.World Sample.get_caller_identity
      Sample.create_volume_fails Sample.wait_ok Sample.ListVolumes
      Sample.ListInstances Sample.root_device_name Sample.create_snapshot
      Sample.wait_ok Sample.delete_snapshot Sample.now Sample.text_of_other
      (Some (lit "web")) (lit "us-east-1a") None []
  = (Raised (Exn TypeError), [lit "create_snapshot"]).
Proof.
  split.
  - eapply eq_trans.
    + eapply (CreateVolumeCopy_keeps_snapshot Sample.World Sample.get_caller_identity
      Sample.create_volume_fails Sample.wait_ok Sample.ListVolumes
      Sample.ListInstances Sample.root_device_name Sample.create_snapshot
      Sample.wait_ok Sample.delete_snapshot Sample.now Sample.text_of_other
                None (lit "us-east-1a") (Some (lit "data"))).
      * vm_compute. reflexivity.
      * vm_compute. reflexivity.
      * vm_compute. reflexivity.
      * vm_compute. reflexivity.
    + vm_compute. reflexivity.
  - eapply eq_trans.
    + eapply (CreateVolumeCopy_keeps_snapshot Sample.World Sample.get_caller_identity
      Sample.create_volume_fails Sample.wait_ok Sample.ListVolumes
      Sample.ListInstances Sample.root_device_name Sample.create_snapshot
      Sample.wait_ok Sample.delete_snapshot Sample.now Sample.text_of_other
                (Some (lit "web")) (lit "us-east-1a") None).
      * vm_compute. reflexivity.
      * vm_compute. reflexivity.
      * vm_compute. reflexivity.
      * vm_compute. reflexivity.
    + vm_compute. reflexivity.
Defined.

(** ** More on the keyword map *)

Lemma is_kind_cases (k : str) :
  k = lit "field_selector" \/ k = lit "label_selector" ->
  other_kind k <> k /\
  (other_kind k = lit "field_selector" \/ other_kind k = lit "label_selector")
  /\ forall c, Keyword c = k \/ Keyword c = other_kind k.
Proof.
  intros [-> | ->].
  - split; [discriminate|]. split; [right; reflexivity|].
    intros c. destruct c; cbn; auto.
  - split; [discriminate|]. split; [left; reflexivity|].
    intros c. destruct c; cbn; auto.
Qed.

Lemma collect_two (k : str) :
  k = lit "field_selector" \/ k = lit "label_selector" ->
  forall sels l1 l2,
    collect sels [(k, l1); (other_kind k, l2)]
    = [(k, l1 ++ fragments_of_kind k sels);
       (other_kind k, l2 ++ fragments_of_kind (other_kind k) sels)].
Proof.
  intros Hk. destruct (is_kind_cases k Hk) as (Hne & _ & Hc).
  induction sels as [|c sels IH]; intros l1 l2.
  - cbn [collect fold_left]. unfold fragments_of_kind. cbn [filter map].
    rewrite !app_nil_r. reflexivity.
  - change (collect (c :: sels) [(k, l1); (other_kind k, l2)])
      with (collect sels
              (defaultdict_append [(k, l1); (other_kind k, l2)]
                 (Keyword c) (ToString c))).
    rewrite !fragments_of_kind_cons. cbn [defaultdict_append].
    destruct (Hc c) as [E|E]; rewrite E.
    + rewrite str_eqb_refl.
      assert (Eo : str_eqb k (other_kind k) = false)
        by (apply str_eqb_neq; congruence).
      rewrite Eo, IH, <- app_assoc. reflexivity.
    + assert (Eo : str_eqb k (other_kind k) = false)
        by (apply str_eqb_neq; congruence).
      assert (Eo' : str_eqb (other_kind k) k = false)
        by (apply str_eqb_neq; exact Hne).
      rewrite Eo, Eo', str_eqb_refl, IH, <- app_assoc. reflexivity.
Qed.

Lemma collect_one (k : str) :
  k = lit "field_selector" \/ k = lit "label_selector" ->
  forall sels l1,
    collect sels [(k, l1)]
    = (k, l1 ++ fragments_of_kind k sels)
      :: match fragments_of_kind (other_kind k) sels with
         | [] => []
         | f :: fs => [(other_kind k, f :: fs)]
         end.
Proof.
  intros Hk. destruct (is_kind_cases k Hk) as (Hne & _ & Hc).
  induction sels as [|c sels IH]; intros l1.
  - cbn [collect fold_left]. unfold fragments_of_kind. cbn [filter map].
    rewrite app_nil_r. reflexivity.
  - change (collect (c :: sels) [(k, l1)])
      with (collect sels
              (defaultdict_append [(k, l1)] (Keyword c) (ToString c))).
    rewrite !fragments_of_kind_cons. cbn [defaultdict_append].
    destruct (Hc c) as [E|E]; rewrite E.
    + rewrite str_eqb_refl.
      assert (Eo : str_eqb k (other_kind k) = false)
        by (apply str_eqb_neq; congruence).
      rewrite Eo, IH, <- app_assoc. reflexivity.
    + assert (Eo : str_eqb k (other_kind k) = false)
        by (apply str_eqb_neq; congruence).
      assert (Eo' : str_eqb (other_kind k) k = false)
        by (apply str_eqb_neq; exact Hne).
      rewrite Eo, Eo', str_eqb_refl, (collect_two k Hk).
      reflexivity.
Qed.

(** The keyword map of a selector that is not empty, entry by entry. *)
Lemma ToKeywords_closed_form (c : Component) (rest : list Component) :
  ToKeywords {| selectors := c :: rest |} =
  (Keyword c, join (lit ",") (fragments_of_kind (Keyword c) (c :: rest)))
  :: match fragments_of_kind (other_kind (Keyword c)) (c :: rest) with
     | [] => []
     | f :: fs => [(other_kind (Keyword c), join (lit ",") (f :: fs))]
     end.
Proof.
  assert (Hk : Keyword c = lit "field_selector" \/
               Keyword c = lit "label_selector") by apply Keyword_cases.
  destruct (is_kind_cases _ Hk) as (Hne & _ & _).
  unfold ToKeywords. cbn [selectors].
  change (collect (c :: rest) [])
    with (collect rest [(Keyword c, [ToString c])]).
  rewrite (collect_one _ Hk), !fragments_of_kind_cons, str_eqb_refl.
  assert (Eo : str_eqb (Keyword c) (other_kind (Keyword c)) = false)
    by (apply str_eqb_neq; congruence).
  rewrite Eo. cbn [map fst snd app].
  destruct (fragments_of_kind (other_kind (Keyword c)) rest); reflexivity.
Qed.

(** X26: the keyword map lists the kinds in the order in which they
    first occur in the selector: the entry of the kind of the first
    component comes first, and the entry of the other kind follows when
    some component has that kind; so the map has at most two
    entries. *)
Theorem ToKeywords_order :
  forall c rest,
    ToKeywords {| selectors := c :: rest |} =
    (Keyword c, join (lit ",") (fragments_of_kind (Keyword c) (c :: rest)))
    :: match fragments_of_kind (other_kind (Keyword c)) (c :: rest) with
       | [] => []
       | f :: fs => [(other_kind (Keyword c), join (lit ",") (f :: fs))]
       end /\
    (length (ToKeywords {| selectors := c :: rest |}) <= 2)%nat.
Proof.
  intros c rest. split; [apply ToKeywords_closed_form|].
  rewrite ToKeywords_closed_form.
  destruct (fragments_of_kind (other_kind (Keyword c)) (c :: rest));
    cbn [length]; lia.
Qed.

Lemma In_join_head (sep x : str) (c : Z) (xs : list str) :
  In c x -> In c (join sep (x :: xs)).
Proof.
  intros H. destruct xs as [|y ys]; [exact H|].
  change (join sep (x :: y :: ys)) with (x ++ sep ++ join sep (y :: ys)).
  apply in_or_app. left. exact H.
Qed.

Lemma ToString_has_equals (c : Component) : In equals_sign (ToString c).
Proof.
  destruct c as [n|n| |k v]; cbn [ToString].
  - apply in_or_app. left. cbn. unfold equals_sign. tauto.
  - apply in_or_app. left. cbn. unfold equals_sign. tauto.
  - cbn. unfold equals_sign. tauto.
  - apply in_or_app. right. left. reflexivity.
Qed.

(** X27: no value of a keyword map is empty: each one holds an ['='],
    whatever the names, keys and values of the components, the empty
    ones included. *)
Theorem ToKeywords_values :
  forall sels kind s,
    dict_get (ToKeywords {| selectors := sels |}) kind = Some s ->
    In equals_sign s /\ s <> [].
Proof.
  intros sels kind s H. rewrite dict_get_ToKeywords in H.
  assert (Hin : In equals_sign s).
  { destruct (fragments_of_kind kind sels) as [|f fs] eqn:Ef;
      [discriminate H|].
    assert (Hs : s = join (lit ",") (f :: fs)) by congruence.
    subst s. apply In_join_head.
    assert (Hf : In f (fragments_of_kind kind sels))
      by (rewrite Ef; left; reflexivity).
    unfold fragments_of_kind in Hf. apply in_map_iff in Hf.
    destruct Hf as (c & <- & _). apply ToString_has_equals. }
  split; [exact Hin|]. intros ->. exact Hin.
Qed.

Lemma ToKeywords_values_witness :
  In equals_sign (lit "metadata.name=") /\ lit "metadata.name=" <> [].
Proof.
  exact (ToKeywords_values [Name []] (lit "field_selector")
           (lit "metadata.name=") eq_refl).
Defined.

(** X28: the builder does not escape commas: a name or a label value
    that holds a comma followed by the text of another component gives
    the same keyword map as the two components one after the other. *)
Theorem ToKeywords_comma_ambiguity :
  forall a b k1 v1 k2 v2,
    ToKeywords {| selectors := [Name (a ++ lit ",metadata.name=" ++ b)] |}
    = ToKeywords {| selectors := [Name a; Name b] |} /\
    ToKeywords
      {| selectors := [Label k1 (v1 ++ lit "," ++ k2 ++ lit "=" ++ v2)] |}
    = ToKeywords {| selectors := [Label k1 v1; Label k2 v2] |}.
Proof.
  intros a b k1 v1 k2 v2. split.
  - unfold ToKeywords. cbn [selectors collect fold_left Keyword ToString
      defaultdict_append]. rewrite str_eqb_refl.
    cbn [map fst snd join app]. rewrite <- !app_assoc. reflexivity.
  - unfold ToKeywords. cbn [selectors collect fold_left Keyword ToString
      defaultdict_append]. rewrite str_eqb_refl.
    cbn [map fst snd join app]. rewrite <- !app_assoc. reflexivity.
Qed.

(** ** The S3 paths *)


Lemma rfind_from_absent (s : str) (c : Z) : forall i found,
  ~ In c s -> rfind_from s c i found = found.
Proof.
  induction s as [|x s IH]; intros i found H; [reflexivity|].
  cbn [rfind_from]. unfold char_eqb. destruct (x =? c) eqn:E.
  - apply Z.eqb_eq in E. exfalso. apply H. left. exact E.
  - apply IH. intros Hin. apply H. right. exact Hin.
Qed.

Lemma rfind_from_last (c : Z) (b : str) : forall (a : str) i found,
  ~ In c b ->
  rfind_from (a ++ c :: b) c i found = i + Z.of_nat (length a).
Proof.
  induction a as [|x a IH]; intros i found H.
  - cbn [app rfind_from length]. unfold char_eqb. rewrite Z.eqb_refl.
    rewrite rfind_from_absent by exact H. lia.
  - cbn [app rfind_from length]. rewrite IH by exact H. lia.
Qed.

Lemma basename_of_path (dir name : str) :
  ~ In slash name -> basename (dir ++ slash :: name) = name.
Proof.
  intros H. unfold basename, rfind.
  rewrite rfind_from_last by exact H.
  unfold slice_from.
  destruct (0 <=? 0 + Z.of_nat (length dir) + 1) eqn:E;
    [|apply Z.leb_gt in E; lia].
  replace (Z.to_nat (0 + Z.of_nat (length dir) + 1))
    with (S (length dir)) by lia.
  change (dir ++ slash :: name) with (dir ++ [slash] ++ name).
  rewrite app_assoc. apply skipn_app_exact.
  rewrite length_app. simpl length. lia.
Qed.

Lemma basename_plain (p : str) : ~ In slash p -> basename p = p.
Proof.
  intros H. unfold basename, rfind.
  rewrite rfind_from_absent by exact H. reflexivity.
Qed.

Section S3Facts.

Variable World : Type.
Variable upload_file :
  str -> str -> str -> World -> option S3.sdk_exception * World.


(** [Put] stores a file under its name without the directories:
    for a path that ends in a name without ['/'], after a ['/'] or
    alone, the key sent to [upload_file] is that name. *)
Theorem Put_key :
  forall self s3_path dir name (w : World),
    ~ In slash name ->
    S3.Put World upload_file self s3_path (dir ++ slash :: name) w =
    (match upload_file (dir ++ slash :: name) (S3.strip_scheme s3_path)
             name w with
     | (None, w1) => (None, w1)
     | (Some e, w1) =>
         (Some
            match e with
            | S3.FileNotFoundError text =>
                S3.ResourceNotFoundError
                  (lit "Could not upload file " ++ (dir ++ slash :: name)
                     ++ lit ": " ++ text) S3.module_name e
            | S3.ClientError text | S3.BucketAlreadyOwnedByYou text =>
                S3.ResourceCreationError
                  (lit "Could not upload file " ++ (dir ++ slash :: name)
                     ++ lit ": " ++ text) S3.module_name e
            | S3.OtherException _ => S3.Propagated e
            end, w1)
     end) /\
    basename name = name.
Proof.
  intros self s3_path dir name w H. split; [|apply basename_plain; exact H].
  unfold S3.Put. rewrite basename_of_path by exact H.
  destruct (upload_file _ _ name w) as [[[]|] w1]; reflexivity.
Qed.

End S3Facts.


Lemma Put_key_witness :
  basename (lit "myfile") = lit "myfile".
Proof.
  refine (proj2 (Put_key unit (fun _ _ _ w => (None, w))
                   {| S3.account_default_region := lit "us-east-1" |}
                   (lit "s3://test/bucket") (lit "/tmp") (lit "myfile") tt _)).
  intros Hin. cbn in Hin.
  repeat (destruct Hin as [Hin|Hin]; [discriminate Hin|]). exact Hin.
Defined.

(** ** The region of an account *)

(** X30: the default region of an account is its zone without the last
    character; it is empty for the empty zone. *)
Theorem default_region_of_zone :
  forall region c,
    default_region {| default_availability_zone := region ++ [c] |} = region
    /\ default_region {| default_availability_zone := [] |} = [].
Proof.
  intros region c. split; [|reflexivity].
  unfold default_region, slice_to. cbn [default_availability_zone].
  change (0 <=? -1) with false. cbv iota. unfold len.
  rewrite length_app. cbn [length].
  replace (Z.to_nat (Z.of_nat (length region + 1) + -1))
    with (length region) by lia.
  rewrite firstn_app, Nat.sub_diag, firstn_O, app_nil_r.
  apply firstn_all.
Qed.
